(** * Web_Final: session-authenticated task board

  A shallow embedding of the server ([v2_withbackend/server.js]) and of the
  parts of the browser client ([AppCore]) that carry the task
  synchronisation contract, together with the properties stated about them.

  Conventions of the embedding:
  - a JSON value is a [value]; a JS object used as a record (a request body,
    a stored document) is a [gmap string value], an absent key standing for
    [undefined];
  - code that can throw returns an [outcome];
  - the database is explicit state ([Db]) threaded through the handlers; the
    clock reads, the fresh identifier chosen by the driver and the random
    salt are explicit arguments;
  - library functions the source calls but does not define (scrypt, the
    date formatting functions, the [ObjectId] parser) are fields of the
    classes [Scrypt] and [Runtime]. *)

From Stdlib Require Import ZArith NArith Ascii String List Lia Bool.
From Stdlib Require Import Strings.Byte.
From Stdlib Require Import Floats.SpecFloat.
From stdpp Require Import base option list strings pretty gmap sorting.

Local Open Scope string_scope.
Local Set Warnings "-register-all".

(* ===================================================================== *)
(** ** JavaScript values and control outcomes *)
(* ===================================================================== *)

Module Js.

(** JSON values as they reach the handlers, extended with MongoDB's
    [ObjectId] (stored in documents, never sent by a client). *)
Inductive value : Type :=
| VNull
| VBool (b : bool)
| VNum (n : Z)
| VStr (s : string)
| VOid (o : N)
| VArr (items : list value)
| VObj (fields : list (string * value)).

(** A JS object used as a record; a missing key reads as [undefined]. *)
Abbreviation object := (gmap string value).

Inductive exn : Type :=
| TypeError
| RangeError
| BSONError
| MongoError.

Inductive outcome (A : Type) : Type :=
| Return (a : A)
| Throws (e : exn).
Arguments Return {A} a.
Arguments Throws {A} e.

Definition bind {A B} (m : outcome A) (k : A -> outcome B) : outcome B :=
  match m with
  | Return a => k a
  | Throws e => Throws e
  end.

(** [try { m } catch (_) { h }] *)
Definition try_catch {A} (m : outcome A) (h : exn -> A) : A :=
  match m with
  | Return a => a
  | Throws e => h e
  end.

(** Truthiness of a possibly-undefined value: [undefined], [null], [false],
    [0] and [''] are falsy, everything else is truthy. *)
Definition truthy (v : option value) : bool :=
  match v with
  | None => false
  | Some VNull => false
  | Some (VBool b) => b
  | Some (VNum n) => negb (n =? 0)%Z
  | Some (VStr s) => negb (String.eqb s "")
  | Some (VOid _) => true
  | Some (VArr _) => true
  | Some (VObj _) => true
  end.

(** [typeof v === 'string'] *)
Definition is_string (v : option value) : bool :=
  match v with
  | Some (VStr _) => true
  | _ => false
  end.

(** Truthiness of a string ([!s] is its negation). *)
Definition nonempty (s : string) : bool := negb (String.eqb s "").

(** [s.startsWith(p)] *)
Definition startsWith (p s : string) : bool := String.prefix p s.

(** [s.slice(n)] for [0 <= n]. *)
Fixpoint slice (n : nat) (s : string) : string :=
  match n, s with
  | O, _ => s
  | S _, EmptyString => EmptyString
  | S k, String _ r => slice k r
  end.

(** [s.endsWith(p)] *)
Definition endsWith (p s : string) : bool :=
  String.eqb (slice (String.length s - String.length p) s) p
  && (String.length p <=? String.length s)%nat.

(** [s.split(c)] for a one-character separator. *)
Fixpoint split (c : ascii) (s : string) : list string :=
  match s with
  | EmptyString => [EmptyString]
  | String a r =>
      if Ascii.eqb a c then EmptyString :: split c r
      else match split c r with
           | h :: t => String a h :: t
           | [] => [String a EmptyString]
           end
  end.

(** [s.replace(' ', 'T')]: only the first space is replaced. *)
Fixpoint replace_first_space (s : string) : string :=
  match s with
  | EmptyString => EmptyString
  | String a r =>
      if Ascii.eqb a " " then String "T" r
      else String a (replace_first_space r)
  end.

End Js.
Export Js.

(* ===================================================================== *)
(** ** Credential store: [hashPassword] and [verifyPassword] *)
(* ===================================================================== *)

Module Credential.

(** [crypto.scryptSync(password, salt, keylen)]: some key derivation
    function that returns a buffer of exactly [keylen] bytes. *)
Class Scrypt : Type := {
  scryptSync : string -> string -> nat -> list byte;
  scryptSync_length : forall password salt keylen,
    length (scryptSync password salt keylen) = keylen
}.

Definition hexDigit (n : N) : ascii :=
  ascii_of_N (if (n <? 10)%N then 48 + n else 87 + n).

Definition hexOfByte (b : byte) : string :=
  let n := Byte.to_N b in
  String (hexDigit (n / 16)) (String (hexDigit (n mod 16)) EmptyString).

(** [buf.toString('hex')] *)
Fixpoint toStringHex (buf : list byte) : string :=
  match buf with
  | [] => EmptyString
  | b :: r => hexOfByte b +:+ toStringHex r
  end.

Definition hexValue (a : ascii) : option N :=
  let n := N_of_ascii a in
  if (48 <=? n)%N && (n <=? 57)%N then Some (n - 48)%N
  else if (97 <=? n)%N && (n <=? 102)%N then Some (n - 87)%N
  else if (65 <=? n)%N && (n <=? 70)%N then Some (n - 55)%N
  else None.

(** [Buffer.from(s, 'hex')]: decodes two digits at a time and stops at the
    first pair that is not hexadecimal (a trailing single digit is
    dropped); it never throws. *)
Fixpoint bufferFromHex (s : string) : list byte :=
  match s with
  | String a (String b r) =>
      match hexValue a, hexValue b with
      | Some x, Some y =>
          match Byte.of_N (16 * x + y) with
          | Some c => c :: bufferFromHex r
          | None => []
          end
      | _, _ => []
      end
  | _ => []
  end.

#[export] Instance byte_eq_decision : EqDecision byte := Byte.byte_eq_dec.

(** [crypto.timingSafeEqual(a, b)]: throws a [RangeError] when the two
    buffers differ in byte length. *)
Definition timingSafeEqual (a b : list byte) : outcome bool :=
  if (length a =? length b)%nat then Return (bool_decide (a = b))
  else Throws RangeError.

Section WithScrypt.
Context `{Scrypt}.

(** [hashPassword(password)], with the 16 bytes drawn by
      [crypto.randomBytes(16)] as an argument. *)
Definition hashPassword (randomBytes16 : list byte) (password : string) : string :=
    let salt := toStringHex randomBytes16 in
    let hash := toStringHex (scryptSync password salt 64) in
    salt +:+ ":" +:+ hash.

(** [verifyPassword(password, stored)]; [stored = None] is [undefined]. *)
Definition verifyPassword (password : string) (stored : option string) : outcome bool :=
    let stored' :=
      match stored with
      | Some s => if nonempty s then s else EmptyString
      | None => EmptyString
      end in
    let parts := split ":" stored' in
    match parts !! 0%nat, parts !! 1%nat with
    | Some salt, Some hash =>
        if negb (nonempty salt) || negb (nonempty hash) then Return false
        else
          let calc := toStringHex (scryptSync password salt 64) in
          timingSafeEqual (bufferFromHex hash) (bufferFromHex calc)
    | _, _ => Return false
    end.
End WithScrypt.

(** A toy derivation function, enough to run the definitions. *)
Definition toyDerive (password salt : string) (keylen : nat) : list byte :=
  let seed := (String.length password + 7 * String.length salt)%nat in
  map (fun i => match Byte.of_N (N.of_nat (seed + i) mod 256) with
                | Some b => b
                | None => "000"%byte
                end) (seq 0 keylen).

#[export] Instance toyScrypt : Scrypt :=
  {| scryptSync := toyDerive;
     scryptSync_length := fun password salt keylen =>
       eq_trans (length_map _ (seq 0 keylen)) (length_seq keylen 0) |}.

End Credential.

(* ===================================================================== *)
(** ** The server: sessions, the two guards and the task handlers *)
(* ===================================================================== *)

Module Server.

(** Functions of the platform that [server.js] calls and does not define. *)
Class Runtime : Type := {
  (** [new ObjectId(s)]: the identifier written [s]; [None] when the driver
      rejects the text (the constructor throws). *)
  parseObjectId : string -> option N;
  (** [new Date(t).toISOString()] for a time value [t] in milliseconds. *)
  toISOString : Z -> string;
  (** [date.toLocaleString('en-IN', { timeZone: 'Asia/Kolkata', ... })]. *)
  toLocaleStringIST : Z -> string;
  (** The time value of [new Date(s)]; [None] for an Invalid Date. *)
  parseDate : string -> option Z;
  (** [String(v)] for a value that is not a string. *)
  stringOfOther : value -> string;
  (** Whether the database accepts an update whose [$set] is empty. *)
  emptySetAllowed : bool
}.

(** *** Collections *)

Record session : Type := {
  token : string;
  userId : N;
  createdAt : Z;
  expiresAt : Z
}.

(** The database handle [db]: [up] is false when the store cannot be
    reached, in which case every operation on a collection rejects.  The
    [tasks] collection is keyed by [_id]; a stored document holds its other
    fields. *)
Record Db : Type := {
  up : bool;
  sessions : list session;
  tasks : gmap N object
}.

Definition setSessions (db : Db) (ss : list session) : Db :=
  {| up := up db; sessions := ss; tasks := tasks db |}.

Definition setTasks (db : Db) (ts : gmap N object) : Db :=
  {| up := up db; sessions := sessions db; tasks := ts |}.

(** [db.collection('sessions').findOne({ token })] *)
Definition findSession (db : Db) (tok : string) : outcome (option session) :=
  if up db
  then Return (List.find (fun s => String.eqb (token s) tok) (sessions db))
  else Throws MongoError.

(** *** Session manager *)

(** [createSession(userId)], with the random token and the clock read as
    arguments. *)
Definition createSession (db : Db) (randomToken : string) (now : Z) (uid : N)
  : outcome (string * Db) :=
  let expires := (now + 1000 * 60 * 60 * 24 * 7)%Z in
  if up db
  then Return (randomToken,
               setSessions db (sessions db ++
                 [{| token := randomToken; userId := uid;
                     createdAt := now; expiresAt := expires |}]))
  else Throws MongoError.

(** [getSession(token)]; [now] is the value of [Date.now()]. *)
Definition getSession (db : Db) (now : Z) (tok : string) : outcome (option session) :=
  if negb (nonempty tok) then Return None
  else
    bind (findSession db tok) (fun r =>
      match r with
      | None => Return None
      | Some s =>
          if negb (expiresAt s =? 0)%Z && (expiresAt s <? now)%Z
          then Return None
          else Return (Some s)
      end).

(** *** Requests *)

Record request : Type := {
  method : string;
  path : string;
  authorization : option string;
  cookie : option string
}.

(** [h.startsWith('Bearer ') ? h.slice(7) : ''] with
    [h = req.headers['authorization'] || '']. *)
Definition bearerToken (req : request) : string :=
  let h := default EmptyString (authorization req) in
  if startsWith "Bearer " h then slice 7 h else EmptyString.

(** The class [\s] on the one-byte characters of a header. *)
Definition isSpace (a : ascii) : bool :=
  let n := N_of_ascii a in
  ((9 <=? n)%N && (n <=? 13)%N) || (n =? 32)%N || (n =? 160)%N.

Fixpoint skipSpaces (s : string) : string :=
  match s with
  | EmptyString => EmptyString
  | String a r => if isSpace a then skipSpaces r else s
  end.

(** The longest prefix without [;], the capture [([^;]+)]. *)
Fixpoint upToSemicolon (s : string) : string :=
  match s with
  | EmptyString => EmptyString
  | String a r => if Ascii.eqb a ";" then EmptyString else String a (upToSemicolon r)
  end.

(** [token=([^;]+)] anchored at the start of [s]. *)
Definition tokenHere (s : string) : option string :=
  if startsWith "token=" s
  then let v := upToSemicolon (slice 6 s) in
       if nonempty v then Some v else None
  else None.

(** The alternative [;\s*] tried at each position, leftmost first. *)
Fixpoint tokenAfterSemicolon (s : string) : option string :=
  match s with
  | EmptyString => None
  | String a r =>
      if Ascii.eqb a ";"
      then match tokenHere (skipSpaces r) with
           | Some v => Some v
           | None => tokenAfterSemicolon r
           end
      else tokenAfterSemicolon r
  end.

(** The first capture of the cookie pattern: [token=] at the start of the
    header or after a [;] and any white space, then the longest non-empty
    run of characters other than [;]; [None] is [undefined]. *)
Definition cookieToken (c : string) : option string :=
  match tokenHere c with
  | Some v => Some v
  | None => tokenAfterSemicolon c
  end.

(** [tokenHeader || tokenCookie || ''] *)
Definition requestToken (req : request) : string :=
  let tokenHeader := bearerToken req in
  if nonempty tokenHeader then tokenHeader
  else default EmptyString (cookieToken (default EmptyString (cookie req))).

(** *** API guard *)

Inductive auth_result : Type :=
| Authorized (uid : N)
| Unauthorized.

(** [authRequired]: [Authorized uid] stands for [req.userId = uid; next()],
    [Unauthorized] for the 401 response. *)
Definition authRequired (db : Db) (now : Z) (req : request) : auth_result :=
  try_catch
    (bind (getSession db now (bearerToken req)) (fun s =>
       match s with
       | None => Return Unauthorized
       | Some s => Return (Authorized (userId s))
       end))
    (fun _ => Unauthorized).

(** *** Page guard *)

Inductive guard_result : Type :=
| Redirect (location : string)
| Next.

Definition isGetOrHead (req : request) : bool :=
  String.eqb (method req) "GET" || String.eqb (method req) "HEAD".

Definition isHtml (req : request) : bool :=
  isGetOrHead req && (String.eqb (path req) "/" || endsWith ".html" (path req)).

Definition allowed : list string := ["/login.html"; "/signup.html"].

(** [token ? await db.collection('sessions').findOne({ token }) : null] *)
Definition lookupToken (db : Db) (tok : string) : outcome (option session) :=
  if nonempty tok then findSession db tok else Return None.

(** The middleware protecting HTML pages; [Next] stands for [next()]. *)
Definition pageGuard (db : Db) (req : request) : guard_result :=
  try_catch
    (if isHtml req && negb (bool_decide (path req ∈ allowed))
     then bind (lookupToken db (requestToken req)) (fun s =>
            match s with
            | None => Return (Redirect "/login.html")
            | Some _ => Return Next
            end)
     else Return Next)
    (fun _ => Next).

(** [sessionFromRequest(req)] *)
Definition sessionFromRequest (db : Db) (req : request) : outcome (option session) :=
  lookupToken db (requestToken req).

Inductive page_response : Type :=
| PagePreflight
| PageRedirect (location : string)
| PageFile (file : string)
| PageNotFound
| PageUnhandled (e : exn).

Definition pageRoutes : list string :=
  ["/index.html"; "/tasks.html"; "/inbox.html"; "/analytics.html"].

(** The handler shared by [app.get('/')] and the four page routes; a
    rejection of [sessionFromRequest] is not caught there. *)
Definition pageRoute (db : Db) (req : request) (file : string) : page_response :=
  match sessionFromRequest db req with
  | Throws e => PageUnhandled e
  | Return None => PageRedirect "/login.html"
  | Return (Some _) => PageFile file
  end.

(** A request for a path outside [/api] through the middleware chain: the
    CORS middleware (which answers [OPTIONS] itself), the page guard, then
    [express.static] ([isFile p] holds when it finds a regular file to send
    for [p]; with [index: false] the root is passed on), then the page
    routes; [PageNotFound] is the default 404 and [PageUnhandled] a
    rejection nothing catches. *)
Definition servePage (isFile : string -> bool) (db : Db) (req : request) : page_response :=
  if String.eqb (method req) "OPTIONS" then PagePreflight
  else
    match pageGuard db req with
    | Redirect l => PageRedirect l
    | Next =>
        if isGetOrHead req && isFile (path req) then PageFile (path req)
        else if isGetOrHead req && String.eqb (path req) "/"
        then pageRoute db req "index.html"
        else if isGetOrHead req && bool_decide (path req ∈ pageRoutes)
        then pageRoute db req (slice 1 (path req))
        else PageNotFound
    end.

(** *** Task repository *)

Inductive response : Type :=
| RespTasks (docs : list object)
| RespTask (status : nat) (doc : object)
| RespOk
| RespError (status : nat) (error : string).

(** A stored document as the driver returns it, with its [_id]. *)
Definition withId (id : N) (d : object) : object := <["_id" := VOid id]> d.

(** The filter [{ userId: new ObjectId(req.userId) }] on a document. *)
Definition ownedBy (uid : N) (d : object) : bool :=
  match d !! "userId" with
  | Some (VOid o) => (o =? uid)%N
  | _ => false
  end.

Definition newerFirst (a b : N * object) : Prop := (b.1 <= a.1)%N.

#[export] Instance newerFirst_dec a b : Decision (newerFirst a b) :=
  N.le_dec b.1 a.1.

(** [find({ userId }).sort({ _id: -1 }).toArray()] *)
Definition findTasks (db : Db) (uid : N) : outcome (list (N * object)) :=
  if up db
  then Return (merge_sort newerFirst
                 (filter (fun kv => ownedBy uid kv.2 = true) (map_to_list (tasks db))))
  else Throws MongoError.

(** [GET /api/tasks] for the authenticated user [uid]. *)
Definition listTasks (db : Db) (uid : N) : response :=
  try_catch
    (bind (findTasks db uid) (fun ts =>
       Return (RespTasks (map (fun kv => withId kv.1 kv.2) ts))))
    (fun _ => RespError 500 "Failed to fetch tasks").

(** [insertOne(doc)] with the identifier the driver generates; an
    identifier already present is a duplicate-key error. *)
Definition insertOne (db : Db) (newId : N) (doc : object) : outcome Db :=
  if up db
  then match tasks db !! newId with
       | Some _ => Throws MongoError
       | None => Return (setTasks db (<[newId := doc]> (tasks db)))
       end
  else Throws MongoError.

Section WithRuntime.
Context `{Runtime}.

(** [String(v)] *)
Definition jsString (v : value) : string :=
  match v with
  | VStr s => s
  | _ => stringOfOther v
  end.

(** [new Date(s).toISOString()], which throws on an Invalid Date. *)
Definition newDateISO (s : string) : outcome string :=
  match parseDate s with
  | Some t => Return (toISOString t)
  | None => Throws RangeError
  end.

(** [new ObjectId(id)] on a route parameter. *)
Definition ObjectId (s : string) : outcome N :=
  match parseObjectId s with
  | Some o => Return o
  | None => Throws BSONError
  end.

(** The block [if (deadline) { ... } else { ... }] of the create handler:
    the value given to [doc.deadline]. *)
Definition createDeadline (deadline : option value) : value :=
  match deadline with
  | Some d =>
      if truthy (Some d)
      then try_catch
             (bind (newDateISO (replace_first_space (jsString d)))
                (fun iso => Return (VStr iso)))
             (fun _ => VNull)
      else VNull
  | None => VNull
  end.

(** The document [doc] of the create handler, built from the destructured
    body (with its defaults), the clock reads and the caller. *)
Definition newTaskDoc (tDate tNow : Z) (uid : N) (body : object) (title : value) : object :=
  let priority := default (VStr "Medium") (body !! "priority") in
  let status := default (VStr "backlog") (body !! "status") in
  let assignee := default (VStr "") (body !! "assignee") in
  let starred := default (VBool false) (body !! "starred") in
  <["deadline" := createDeadline (body !! "deadline")]>
  (<["userId" := VOid uid]>
  (<["assignedAtIST" := VStr (toLocaleStringIST tDate)]>
  (<["assignedAt" := VStr (toISOString tDate)]>
  (<["createdAt" := VNum tNow]>
  (<["starred" := VBool (truthy (Some starred))]>
  (<["assignee" := assignee]>
  (<["status" := status]>
  (<["priority" := priority]>
  (<["title" := title]> ∅))))))))).

(** [POST /api/tasks] for the authenticated user [uid]: [tDate] is the
    value of [new Date()], [tNow] the later value of [Date.now()], [newId]
    the identifier generated for the inserted document. *)
Definition createTask (db : Db) (tDate tNow : Z) (newId : N) (uid : N) (body : object)
  : response * Db :=
  match body !! "title" with
  | Some title =>
      if negb (truthy (Some title)) || negb (is_string (Some title))
      then (RespError 400 "Title is required", db)
      else
        let doc := newTaskDoc tDate tNow uid body title in
        try_catch
          (bind (insertOne db newId doc) (fun db' =>
             Return (RespTask 201 (withId newId doc), db')))
          (fun _ => (RespError 500 "Failed to create task", db))
  | None => (RespError 400 "Title is required", db)
  end.

Definition mutableFields : list string :=
  ["title"; "priority"; "status"; "assignee"; "starred"; "deadline"].

(** The [forEach] copying the accepted fields that are not [undefined]. *)
Definition pickUpdate (body : object) : object :=
  fold_left
    (fun update k =>
       match body !! k with
       | Some v => <[k := v]> update
       | None => update
       end)
    mutableFields ∅.

Definition isDigit (a : ascii) : bool :=
  let n := N_of_ascii a in (48 <=? n)%N && (n <=? 57)%N.

(** The test of the pattern for a [datetime-local] value without seconds:
    four digits, [-], two digits, [-], two digits, [T], two digits, [:],
    two digits, and nothing else. *)
Definition isLocalDateTime (s : string) : bool :=
  match list_ascii_of_string s with
  | [y1; y2; y3; y4; s1; m1; m2; s2; d1; d2; t; h1; h2; c; n1; n2] =>
      forallb isDigit [y1; y2; y3; y4; m1; m2; d1; d2; h1; h2; n1; n2]
      && Ascii.eqb s1 "-" && Ascii.eqb s2 "-" && Ascii.eqb t "T" && Ascii.eqb c ":"
  | _ => false
  end.

(** The block [if (update.deadline) { ... }] of the update handler. *)
Definition normalizeDeadline (update : object) : object :=
  match update !! "deadline" with
  | Some d =>
      if truthy (Some d)
      then
        let dstr := replace_first_space (jsString d) in
        let dstr := if isLocalDateTime dstr then dstr +:+ ":00" else dstr in
        try_catch
          (bind (newDateISO dstr) (fun iso =>
             Return (<["deadline" := VStr iso]> update)))
          (fun _ => delete "deadline" update)
      else update
  | None => update
  end.

(** The block [if (update.status === 'done') { ... }]. *)
Definition stampCompleted (tDate : Z) (update : object) : object :=
  match update !! "status" with
  | Some (VStr s) =>
      if String.eqb s "done"
      then <["completedAtIST" := VStr (toLocaleStringIST tDate)]>
             (<["completedAt" := VStr (toISOString tDate)]> update)
      else update
  | _ => update
  end.

(** The [update] object the handler passes to [$set]. *)
Definition buildUpdate (tDate : Z) (body : object) : object :=
  stampCompleted tDate (normalizeDeadline (pickUpdate body)).

(** [findOneAndUpdate({ _id, userId }, { $set: update },
    { returnDocument: 'after' })]: the fields of [update] overwrite those of
    the matching document; the first component is [result.value]. *)
Definition findOneAndUpdate (db : Db) (id uid : N) (update : object)
  : outcome (option object * Db) :=
  if negb (up db) then Throws MongoError
  else if (size update =? 0)%nat && negb emptySetAllowed then Throws MongoError
  else
    match tasks db !! id with
    | Some d =>
        if ownedBy uid d
        then let d' := update ∪ d in
             Return (Some (withId id d'), setTasks db (<[id := d']> (tasks db)))
        else Return (None, db)
    | None => Return (None, db)
    end.

(** [PATCH /api/tasks/:id] for the authenticated user [uid]; [tDate] is the
    value of [new Date()] read when the status becomes ['done']. *)
Definition patchTask (db : Db) (tDate : Z) (uid : N) (idParam : string) (body : object)
  : response * Db :=
  try_catch
    (let update := buildUpdate tDate body in
     bind (ObjectId idParam) (fun id =>
     bind (findOneAndUpdate db id uid update) (fun r =>
       match r.1 with
       | None => Return (RespError 404 "Not found", r.2)
       | Some d => Return (RespTask 200 d, r.2)
       end)))
    (fun _ => (RespError 500 "Failed to update task", db)).

(** [deleteOne({ _id, userId })]: the first component is [deletedCount]. *)
Definition deleteOne (db : Db) (id uid : N) : outcome (nat * Db) :=
  if negb (up db) then Throws MongoError
  else
    match tasks db !! id with
    | Some d =>
        if ownedBy uid d
        then Return (1%nat, setTasks db (delete id (tasks db)))
        else Return (0%nat, db)
    | None => Return (0%nat, db)
    end.

(** [DELETE /api/tasks/:id] for the authenticated user [uid]. *)
Definition deleteTask (db : Db) (uid : N) (idParam : string) : response * Db :=
  try_catch
    (bind (ObjectId idParam) (fun id =>
     bind (deleteOne db id uid) (fun r =>
       if (r.1 =? 0)%nat
       then Return (RespError 404 "Not found", r.2)
       else Return (RespOk, r.2))))
    (fun _ => (RespError 500 "Failed to delete task", db)).

(** *** Sequences of calls *)

(** A call on the task API, with the clock reads and the identifier the
    driver generates as far as the handler uses them. *)
Inductive call : Type :=
| CallList
| CallCreate (tDate tNow : Z) (newId : N) (body : object)
| CallUpdate (tDate : Z) (idParam : string) (body : object)
| CallDelete (idParam : string).

(** The handler behind [authRequired] for a call of the user [uid]. *)
Definition handle (db : Db) (uid : N) (c : call) : response * Db :=
  match c with
  | CallList => (listTasks db uid, db)
  | CallCreate tDate tNow newId body => createTask db tDate tNow newId uid body
  | CallUpdate tDate idParam body => patchTask db tDate uid idParam body
  | CallDelete idParam => deleteTask db uid idParam
  end.

(** The calls of a list served one after the other; the responses come in
    the order of the calls. *)
Fixpoint serve (db : Db) (cs : list (N * call)) : list response * Db :=
  match cs with
  | [] => ([], db)
  | (uid, c) :: rest =>
      let '(r, db1) := handle db uid c in
      let '(rs, db2) := serve db1 rest in
      (r :: rs, db2)
  end.

End WithRuntime.

(** A stand-in runtime, enough to run the definitions: identifiers are 24
    hexadecimal digits, dates are written as their time value, and only
    decimal time values parse as dates. *)
Definition hexNumber (s : string) : option N :=
  fold_left
    (fun acc a =>
       match acc, Credential.hexValue a with
       | Some n, Some d => Some (16 * n + d)%N
       | _, _ => None
       end)
    (list_ascii_of_string s) (Some 0%N).

Definition decimalNumber (s : string) : option Z :=
  if nonempty s && forallb isDigit (list_ascii_of_string s)
  then Some (fold_left
               (fun acc a => (10 * acc + Z.of_N (N_of_ascii a - 48))%Z)
               (list_ascii_of_string s) 0%Z)
  else None.

#[export] Instance toyRuntime : Runtime := {|
  parseObjectId s := if (String.length s =? 24)%nat then hexNumber s else None;
  toISOString t := "iso:" +:+ pretty t;
  toLocaleStringIST t := "ist:" +:+ pretty t;
  parseDate := decimalNumber;
  stringOfOther _ := "[object]";
  emptySetAllowed := true
|}.

End Server.

(* ===================================================================== *)
(** ** The client: the board, the drop handler and the status widget *)
(* ===================================================================== *)

Module AppCore.

(** *** Numbers of the status widget

    The shares are computed in IEEE 754 binary64, as JavaScript does; the
    operations are those of the Standard Library's [SpecFloat].  Counts and
    rounded widths are integers far below [2^53], on which the arithmetic
    of the source is exact, and are kept in [Z]. *)

Definition prec : Z := 53.
Definition emax : Z := 1024.

Definition number_of_Z (n : Z) : spec_float := binary_normalize prec emax n 0 false.

(** [Math.round(x)]: the integer nearest to [x], a tie going up; [None]
    stands for a result that is not a finite number. *)
Definition mathRound (x : spec_float) : option Z :=
  match x with
  | S754_zero _ => Some 0%Z
  | S754_finite s m e =>
      let n := if s then Z.neg m else Z.pos m in
      Some (if (0 <=? e)%Z then n * 2 ^ e
            else (2 * n + 2 ^ (- e)) / 2 ^ (- e + 1))%Z
  | S754_infinity _ => None
  | S754_nan => None
  end.

(** [round = v => Math.max(0, Math.round(v))] *)
Definition round (v : spec_float) : option Z :=
  match v with
  | S754_infinity true => Some 0%Z
  | _ => Z.max 0 <$> mathRound v
  end.

Record counts : Type := {
  backlog : nat;
  progress : nat;
  review : nat;
  done : nat
}.

(** The flex-basis percentages given to the four segments. *)
Record widths : Type := {
  wBacklog : Z;
  wProgress : Z;
  wReview : Z;
  wDone : Z
}.

Definition totalWidth (w : widths) : Z :=
  (wBacklog w + wProgress w + wReview w + wDone w)%Z.

(** [total = Math.max(1, backlog + progress + review + done)] *)
Definition total (c : counts) : Z :=
  Z.max 1 (Z.of_nat (backlog c + progress c + review c + done c)).

(** [pct = s => (s / total) * 100] *)
Definition pct (c : counts) (s : nat) : spec_float :=
  SFmul prec emax
    (SFdiv prec emax (number_of_Z (Z.of_nat s)) (number_of_Z (total c)))
    (number_of_Z 100).

(** The statements from [let sum = rb + rp + rr + rd] to the residual put
    on the done segment. *)
Definition fixResidual (rb rp rr rd : Z) : widths :=
  let sum := (rb + rp + rr + rd)%Z in
  let rd1 := if (sum =? 0)%Z then 100%Z else rd in
  let sum1 := if (sum =? 0)%Z then 100%Z else sum in
  let rd2 := if negb (sum1 =? 100)%Z then Z.max 0 (rd1 + (100 - sum1)) else rd1 in
  {| wBacklog := rb; wProgress := rp; wReview := rr; wDone := rd2 |}.

(** The widths [updateTasksStatusWidget] assigns for the counts [c]. *)
Definition segmentWidths (c : counts) : option widths :=
  rb ← round (pct c (backlog c));
  rp ← round (pct c (progress c));
  rr ← round (pct c (review c));
  rd ← round (pct c (done c));
  Some (fixResidual rb rp rr rd).

(** *** Page state *)

Record task : Type := {
  id : string;
  title : string;
  priority : string;
  status : string;
  assignee : string;
  starred : bool
}.

Definition setStatus (t : task) (s : string) : task :=
  {| id := id t; title := title t; priority := priority t; status := s;
     assignee := assignee t; starred := starred t |}.

(** A [.kanban-column]: its [data-status], the [data-id] of the cards in
    its body in document order, and the number shown by its [.count]
    element when it has one. *)
Record column : Type := {
  dataStatus : string;
  cards : list string;
  count : option nat
}.

Definition setCards (c : column) (cs : list string) : column :=
  {| dataStatus := dataStatus c; cards := cs; count := count c |}.

(** The page: [this.data.tasks], the [.tasks-board] element when the page
    has one, the widths shown by the [.chart.stacked .stack] charts when
    the page has some, and the counts shown by the legend when present. *)
Record page : Type := {
  tasks : list task;
  board : option (list column);
  stacks : option (option widths);
  legend : option counts
}.

(** [this.data.tasks.find(t => String(t.id) === String(id))] *)
Definition findTask (ts : list task) (i : string) : option task :=
  List.find (fun t => String.eqb (id t) i) ts.

(** The assignment [task.status = s] on the object returned by [find]:
    the first task of the list with that id. *)
Fixpoint assignStatus (ts : list task) (i s : string) : list task :=
  match ts with
  | [] => []
  | t :: r =>
      if String.eqb (id t) i then setStatus t s :: r
      else t :: assignStatus r i s
  end.

Definition statusKeys : list string := ["backlog"; "in-progress"; "review"; "done"].

(** [byStatus[task.status] || byStatus['backlog']] *)
Definition groupOf (t : task) : string :=
  if bool_decide (status t ∈ statusKeys) then status t else "backlog".

(** The cards [_renderBoard] puts in each column, and its counts. *)
Definition renderColumns (ts : list task) (cols : list column) : list column :=
  map (fun c =>
         let cs := id <$> filter (fun t => groupOf t = dataStatus c) ts in
         {| dataStatus := dataStatus c; cards := cs;
            count := (fun _ => length cs) <$> count c |})
      cols.

(** [board.querySelector('.kanban-card[data-id="..."]')] finds a card. *)
Definition hasCard (cols : list column) (i : string) : bool :=
  existsb (fun c => existsb (String.eqb i) (cards c)) cols.

Fixpoint removeFirst (i : string) (l : list string) : option (list string) :=
  match l with
  | [] => None
  | x :: r =>
      if String.eqb x i then Some r
      else cons x <$> removeFirst i r
  end.

(** Detaching the first card with id [i] in document order. *)
Fixpoint detachCard (cols : list column) (i : string) : list column :=
  match cols with
  | [] => []
  | c :: r =>
      match removeFirst i (cards c) with
      | Some l => setCards c l :: r
      | None => c :: detachCard r i
      end
  end.

(** [body.appendChild(cardEl)] for the body of column number [k]: the card
    leaves its place and becomes the last card of that column. *)
Definition moveCard (cols : list column) (i : string) (k : nat) : list column :=
  if hasCard cols i
  then alter (fun c => setCards c (cards c ++ [i])) k (detachCard cols i)
  else cols.

(** [_updateColumnCounts(board)] *)
Definition updateColumnCounts (cols : list column) : list column :=
  map (fun c =>
         {| dataStatus := dataStatus c; cards := cards c;
            count := (fun _ => length (cards c)) <$> count c |})
      cols.

(** [board.querySelectorAll('.kanban-column[data-status="s"] .kanban-card').length] *)
Definition domCount (cols : list column) (s : string) : nat :=
  list_sum (map (fun c => if String.eqb (dataStatus c) s then length (cards c) else 0%nat) cols).

Definition dataCount (ts : list task) (s : string) : nat :=
  length (filter (fun t => status t = s) ts).

(** The counts [updateTasksStatusWidget] works from: the live DOM when the
    board is present, the data model otherwise. *)
Definition widgetCounts (p : page) : counts :=
  match board p with
  | Some cols =>
      {| backlog := domCount cols "backlog"; progress := domCount cols "in-progress";
         review := domCount cols "review"; done := domCount cols "done" |}
  | None =>
      {| backlog := dataCount (tasks p) "backlog"; progress := dataCount (tasks p) "in-progress";
         review := dataCount (tasks p) "review"; done := dataCount (tasks p) "done" |}
  end.

(** [updateTasksStatusWidget()] *)
Definition updateTasksStatusWidget (p : page) : page :=
  match stacks p with
  | None => p
  | Some _ =>
      let c := widgetCounts p in
      {| tasks := tasks p; board := board p;
         stacks := Some (segmentWidths c);
         legend := (fun _ => c) <$> legend p |}
  end.

(** *** The drop handler of a column *)

(** The request sent by [fetch]. *)
Record fetch_request : Type := {
  reqMethod : string;
  reqUrl : string;
  reqBody : list (string * value)
}.

(** How the awaited [fetch] settles: it rejects on a network failure and
    resolves with the HTTP status of the response otherwise. *)
Inductive fetch_result : Type :=
| NetworkError
| HttpResponse (status : nat).

(** What the handler keeps across the [await]: the id read from the drag
    data and the captured previous status. *)
Record pending : Type := {
  dragId : string;
  prev : string
}.

Definition withBoard (p : page) (cols : list column) : page :=
  {| tasks := tasks p; board := Some cols; stacks := stacks p; legend := legend p |}.

Definition withTasks (p : page) (ts : list task) : page :=
  {| tasks := ts; board := board p; stacks := stacks p; legend := legend p |}.

(** The handler up to its [await], for a drop of the card [i] on column
    number [k]: the page it leaves, and the request issued with what is kept
    for the continuation ([None] when the handler returns early). *)
Definition dropStart (p : page) (k : nat) (i : string)
  : page * option (fetch_request * pending) :=
  match board p with
  | None => (p, None)
  | Some cols =>
      match cols !! k with
      | None => (p, None)
      | Some col =>
          let target := dataStatus col in
          match findTask (tasks p) i with
          | None => (p, None)
          | Some t =>
              if String.eqb (status t) target then (p, None)
              else
                let p1 := withTasks p (assignStatus (tasks p) i target) in
                let p2 := withBoard p1 (updateColumnCounts (moveCard cols i k)) in
                let p3 := updateTasksStatusWidget p2 in
                (p3, Some ({| reqMethod := "PATCH"; reqUrl := "/api/tasks/" +:+ i;
                              reqBody := [("status", VStr target)] |},
                           {| dragId := i; prev := status t |}))
          end
      end
  end.

(** The handler after the [await]: the [catch] block runs when [fetch]
    rejected, and nothing runs when it resolved. *)
Definition dropSettle (p : page) (pd : pending) (r : fetch_result) : page :=
  match r with
  | HttpResponse _ => p
  | NetworkError =>
      match board p with
      | None => p
      | Some cols =>
          let p1 := withTasks p (assignStatus (tasks p) (dragId pd) (prev pd)) in
          let cols1 :=
            match list_find (fun c => dataStatus c = prev pd) cols with
            | Some (j, _) => moveCard cols (dragId pd) j
            | None => cols
            end in
          updateTasksStatusWidget (withBoard p1 (updateColumnCounts cols1))
      end
  end.

(** The whole handler, given how the request settles. *)
Definition drop (p : page) (k : nat) (i : string) (r : fetch_result) : page :=
  match dropStart p k i with
  | (p', Some (_, pd)) => dropSettle p' pd r
  | (p', None) => p'
  end.

End AppCore.

(* ===================================================================== *)
(** ** The server: accounts and the authenticated routes *)
(* ===================================================================== *)

Module Accounts.
Import Credential Server.

(** How the store matches a stored field against the value of an equality
    query such as [{ email }]: on two strings it is string equality; on
    other values (arrays, operator objects) it is left to the store. *)
Class Matching : Type := {
  fieldMatches : value -> value -> bool;
  fieldMatches_strings : forall a b,
    fieldMatches (VStr a) (VStr b) = String.eqb a b
}.

(** A document of the [users] collection. *)
Record user : Type := {
  userOid : N;
  userName : value;
  userEmail : value;
  passwordHash : string;
  userCreatedAt : Z
}.

Inductive auth_response : Type :=
| AuthSession (status : nat) (token : string) (id : N) (name email : value)
| AuthUser (id : N) (name email : value)
| AuthOk
| AuthError (status : nat) (error : string)
| AuthUnhandled (e : exn).

(** [deleteOne({ token })] removes the first session with that token. *)
Fixpoint deleteFirstSession (tok : string) (ss : list session) : list session :=
  match ss with
  | [] => []
  | s :: r =>
      if String.eqb (token s) tok then r
      else s :: deleteFirstSession tok r
  end.

Definition deleteSession (db : Db) (tok : string) : outcome Db :=
  if up db
  then Return (setSessions db (deleteFirstSession tok (sessions db)))
  else Throws MongoError.

(** [db.collection('users').findOne({ _id })] *)
Definition findUserById (db : Db) (users : list user) (id : N) : outcome (option user) :=
  if up db
  then Return (List.find (fun u => (userOid u =? id)%N) users)
  else Throws MongoError.

(** [db.collection('users').insertOne(doc)]; an identifier already present
    is a duplicate-key error. *)
Definition insertUser (db : Db) (users : list user) (u : user) : outcome (list user) :=
  if up db
  then if existsb (fun v => (userOid v =? userOid u)%N) users
       then Throws MongoError
       else Return (users ++ [u])%list
  else Throws MongoError.

(** [GET /api/auth/me]; the handler has no [try], a rejection of the lookup
    is not caught. *)
Definition me (db : Db) (users : list user) (now : Z) (req : request) : auth_response :=
  match authRequired db now req with
  | Unauthorized => AuthError 401 "Unauthorized"
  | Authorized uid =>
      match findUserById db users uid with
      | Throws e => AuthUnhandled e
      | Return None => AuthError 404 "Not found"
      | Return (Some u) => AuthUser (userOid u) (userName u) (userEmail u)
      end
  end.

(** [POST /api/auth/logout] *)
Definition logout (db : Db) (now : Z) (req : request) : auth_response * Db :=
  match authRequired db now req with
  | Unauthorized => (AuthError 401 "Unauthorized", db)
  | Authorized _ =>
      match deleteSession db (bearerToken req) with
      | Throws e => (AuthUnhandled e, db)
      | Return db' => (AuthOk, db')
      end
  end.

Section WithCrypto.
Context `{Scrypt} `{Matching}.

(** [db.collection('users').findOne({ email })] *)
Definition findUserByEmail (db : Db) (users : list user) (email : value)
  : outcome (option user) :=
  if up db
  then Return (List.find (fun u => fieldMatches email (userEmail u)) users)
  else Throws MongoError.

(** [hashPassword(password)] on a value of the body: [scryptSync] rejects
    an argument that is neither a string nor a buffer. *)
Definition hashPasswordValue (salt : list byte) (password : value) : outcome string :=
  match password with
  | VStr s => Return (hashPassword salt s)
  | _ => Throws TypeError
  end.

(** [verifyPassword(password, stored)] on a value of the body: the guard on
    the stored form runs first, then [scryptSync] sees the password. *)
Definition verifyPasswordValue (password : value) (stored : string) : outcome bool :=
  match password with
  | VStr s => verifyPassword s (Some stored)
  | _ =>
      let parts := split ":" stored in
      match parts !! 0%nat, parts !! 1%nat with
      | Some salt, Some hash =>
          if negb (nonempty salt) || negb (nonempty hash) then Return false
          else Throws TypeError
      | _, _ => Return false
      end
  end.

(** [POST /api/auth/signup]: [salt] and [tokenBytes] are the bytes drawn by
    [crypto.randomBytes(16)] and [crypto.randomBytes(24)], [tCreated] and
    [tSession] the two reads of [Date.now()], [newId] the identifier the
    driver generates for the user. *)
Definition signup (db : Db) (users : list user)
    (salt tokenBytes : list byte) (tCreated tSession : Z) (newId : N) (body : object)
  : auth_response * list user * Db :=
  match body !! "name", body !! "email", body !! "password" with
  | Some name, Some email, Some password =>
      if negb (truthy (Some name)) || negb (truthy (Some email))
         || negb (truthy (Some password))
      then (AuthError 400 "Missing fields", users, db)
      else
        try_catch
          (bind (findUserByEmail db users email) (fun existing =>
             match existing with
             | Some _ => Return (AuthError 409 "Email already registered", users, db)
             | None =>
                 bind (hashPasswordValue salt password) (fun ph =>
                 bind (insertUser db users
                         {| userOid := newId; userName := name; userEmail := email;
                            passwordHash := ph; userCreatedAt := tCreated |})
                      (fun users' =>
                 bind (createSession db (toStringHex tokenBytes) tSession newId)
                      (fun r =>
                 Return (AuthSession 201 r.1 newId name email, users', r.2))))
             end))
          (fun _ => (AuthError 500 "Signup failed", users, db))
  | _, _, _ => (AuthError 400 "Missing fields", users, db)
  end.

(** [POST /api/auth/login] *)
Definition login (db : Db) (users : list user)
    (tokenBytes : list byte) (tSession : Z) (body : object)
  : auth_response * Db :=
  match body !! "email", body !! "password" with
  | Some email, Some password =>
      if negb (truthy (Some email)) || negb (truthy (Some password))
      then (AuthError 400 "Missing fields", db)
      else
        try_catch
          (bind (findUserByEmail db users email) (fun found =>
             match found with
             | None => Return (AuthError 401 "Invalid credentials", db)
             | Some u =>
                 bind (verifyPasswordValue password (passwordHash u)) (fun ok =>
                   if ok
                   then bind (createSession db (toStringHex tokenBytes) tSession (userOid u))
                          (fun r =>
                             Return (AuthSession 200 r.1 (userOid u) (userName u) (userEmail u),
                                     r.2))
                   else Return (AuthError 401 "Invalid credentials", db))
             end))
          (fun _ => (AuthError 500 "Login failed", db))
  | _, _ => (AuthError 400 "Missing fields", db)
  end.

End WithCrypto.

(** A stand-in store matching: strings match when equal, nothing else
    matches. *)
Definition toyMatches (q v : value) : bool :=
  match q, v with
  | VStr a, VStr b => String.eqb a b
  | _, _ => false
  end.

#[export] Instance toyMatching : Matching :=
  {| fieldMatches := toyMatches;
     fieldMatches_strings := fun a b => eq_refl |}.

End Accounts.

Module Routes.
Import Server.

Section WithRuntime.
Context `{Runtime}.

(** A task route as registered: [authRequired], then the handler. *)
Definition taskRoute (db : Db) (now : Z) (req : request) (c : call) : response * Db :=
  match authRequired db now req with
  | Unauthorized => (RespError 401 "Unauthorized", db)
  | Authorized uid => handle db uid c
  end.

End WithRuntime.

End Routes.

(* ===================================================================== *)
(** ** The client: pinned list, activity feed and card actions *)
(* ===================================================================== *)

Module AppViews.
Import Server AppCore.

Definition setStarred (t : task) (b : bool) : task :=
  {| id := id t; title := title t; priority := priority t; status := status t;
     assignee := assignee t; starred := b |}.

(** The items of [renderPinnedTasks]:
    [tasks.filter(t => t.starred).slice(0, 6)]. *)
Definition pinnedItems (ts : list task) : list task :=
  take 6 (filter (fun t => starred t = true) ts).

(** [widget.style.display = items.length ? '' : 'none'] *)
Definition pinnedWidgetShown (ts : list task) : bool :=
  negb (length (pinnedItems ts) =? 0)%nat.

(** The click handler of the star button of the card made for the task at
    position [n] of the list: the flag is flipped at once and one PATCH with
    the new flag alone is sent; the [catch] block is empty, so the page
    after the click does not depend on how the request settles. *)
Definition starClick (p : page) (n : nat) : page * option fetch_request :=
  match tasks p !! n with
  | None => (p, None)
  | Some t =>
      let next := negb (starred t) in
      (withTasks p (<[n := setStarred t next]> (tasks p)),
       Some {| reqMethod := "PATCH"; reqUrl := "/api/tasks/" +:+ id t;
               reqBody := [("starred", VBool next)] |})
  end.



(** A task object together with the number [createdAt || 0] the
    comparison reads ([createdAt] is a [Date.now()] wherever it is set). *)
Record dated : Type := {
  theTask : task;
  createdAtMs : Z
}.

(** One step of a stable sort by [(b.createdAt||0) - (a.createdAt||0)]:
    [x], which came before the elements of [l], goes before the first
    element that is not newer than it. *)
Fixpoint insertNewest (x : dated) (l : list dated) : list dated :=
  match l with
  | [] => [x]
  | y :: r =>
      if (createdAtMs x <? createdAtMs y)%Z then y :: insertNewest x r
      else x :: y :: r
  end.

(** [tasks.slice().sort((a, b) => (b.createdAt||0) - (a.createdAt||0))]:
    newest first, tasks of equal age in their order in the list. *)
Definition sortNewestFirst (l : list dated) : list dated :=
  foldr insertNewest [] l.

(** The items of [renderRecentActivity]. *)
Definition recentItems (l : list dated) : list dated :=
  take 5 (sortNewestFirst l).

(** The argument of [_timeAgo]: a number or a text handed to [Date.parse]. *)
Inductive timestamp : Type :=
| TsNumber (n : Z)
| TsText (s : string).

Section WithRuntime.
Context `{Runtime}.

(** [_timeAgo(ts)]; [now1] and [now2] are the two reads of [Date.now()] in
    [Date.now() - (d || Date.now())].  The times are whole milliseconds, on
    which the divisions followed by [Math.floor] are integer divisions. *)
Definition timeAgo (now1 now2 : Z) (ts : timestamp) : string :=
  let d := match ts with
           | TsNumber n => Some n
           | TsText s => parseDate s
           end in
  let d' := match d with
            | Some n => if (n =? 0)%Z then now2 else n
            | None => now2
            end in
  let diff := Z.max 0 (now1 - d') in
  let m := (diff / 60000)%Z in
  let h := (m / 60)%Z in
  let d2 := (h / 24)%Z in
  if (0 <? d2)%Z then pretty d2 +:+ "d ago"
  else if (0 <? h)%Z then pretty h +:+ "h ago"
  else if (0 <? m)%Z then pretty m +:+ "m ago"
  else "just now".

End WithRuntime.

End AppViews.

(* ===================================================================== *)
(** ** The client: notifications *)
(* ===================================================================== *)

Module Inbox.

(** A notification of [this.data.notifications]; identifiers are of one
    kind (all numbers or all texts) and are kept as their text. *)
Record notification : Type := {
  nid : string;
  isRead : bool;
  ntype : string
}.

(** A rendered [.notification-item]: its [data-id], whether it has the
    class [unread], and its [data-type]. *)
Record item : Type := {
  itemId : string;
  itemUnread : bool;
  itemType : string
}.

(** The notifications button: the number shown by its badge, when it has a
    badge, and the number of click listeners added to it. *)
Record bell : Type := {
  badge : option nat;
  listeners : nat
}.

(** The inbox state: the data, the rendered list when the page has a
    [.notifications-list] (with the empty-state block shown or not), and the
    notifications button when the page has one. *)
Record inbox : Type := {
  notifications : list notification;
  listed : option (list item * bool);
  button : option bell
}.

Definition unreadCount (ns : list notification) : nat :=
  length (filter (fun n => isRead n = false) ns).

(** [setupNotifications()] *)
Definition setupNotifications (s : inbox) : inbox :=
  match button s with
  | None => s
  | Some b =>
      let c := unreadCount (notifications s) in
      {| notifications := notifications s; listed := listed s;
         button := Some {| badge := if (0 <? c)%nat then Some c else badge b;
                           listeners := S (listeners b) |} |}
  end.

(** [renderNotifications()] *)
Definition renderNotifications (s : inbox) : inbox :=
  match listed s with
  | None => s
  | Some _ =>
      {| notifications := notifications s;
         listed :=
           Some (match notifications s with
                 | [] => ([], true)
                 | ns => ((fun n => {| itemId := nid n; itemUnread := negb (isRead n);
                                       itemType := ntype n |}) <$> ns, false)
                 end);
         button := button s |}
  end.

(** The assignment [notification.isRead = true] on the first notification
    with the id. *)
Fixpoint readFirst (i : string) (ns : list notification) : list notification :=
  match ns with
  | [] => []
  | n :: r =>
      if String.eqb (nid n) i
      then {| nid := nid n; isRead := true; ntype := ntype n |} :: r
      else n :: readFirst i r
  end.

(** Removing the class [unread] from the first item with the [data-id]. *)
Fixpoint unmarkFirst (i : string) (l : list item) : list item :=
  match l with
  | [] => []
  | x :: r =>
      if String.eqb (itemId x) i
      then {| itemId := itemId x; itemUnread := false; itemType := itemType x |} :: r
      else x :: unmarkFirst i r
  end.

(** Removing the first item with the [data-id] from the document. *)
Fixpoint removeFirstItem (i : string) (l : list item) : list item :=
  match l with
  | [] => []
  | x :: r => if String.eqb (itemId x) i then r else x :: removeFirstItem i r
  end.

Definition mapListed (f : list item -> list item) (s : inbox) : option (list item * bool) :=
  (fun lb : list item * bool => (f lb.1, lb.2)) <$> listed s.

(** [markNotificationAsRead(id)] *)
Definition markNotificationAsRead (s : inbox) (i : string) : inbox :=
  setupNotifications
    {| notifications := readFirst i (notifications s);
       listed := mapListed (unmarkFirst i) s;
       button := button s |}.

(** [deleteNotification(id)] *)
Definition deleteNotification (s : inbox) (i : string) : inbox :=
  let ns := filter (fun n => nid n <> i) (notifications s) in
  let s1 := {| notifications := ns;
               listed := mapListed (removeFirstItem i) s;
               button := button s |} in
  let s2 := match ns with
            | [] => renderNotifications s1
            | _ => s1
            end in
  setupNotifications s2.

(** [markAllNotificationsAsRead()] *)
Definition markAllNotificationsAsRead (s : inbox) : inbox :=
  setupNotifications
    {| notifications :=
         (fun n => {| nid := nid n; isRead := true; ntype := ntype n |})
           <$> notifications s;
       listed :=
         mapListed (fmap (fun x => {| itemId := itemId x; itemUnread := false;
                                      itemType := itemType x |})) s;
       button := button s |}.

End Inbox.

(* ===================================================================== *)
(** ** The analytics page *)
(* ===================================================================== *)

Module Analytics.

Inductive due : Type :=
| Overdue
| NearDue
| Upcoming.

#[export] Instance due_eq_dec : EqDecision due.
Proof. solve_decision. Defined.

(** [nearMs = 1000*60*60*48] *)
Definition nearMs : Z := 1000 * 60 * 60 * 48.

(** An entry of the deadline list: [ms = Date.parse(t.deadline)], [None]
    when the text does not parse (NaN), and the task's status. *)
Record entry : Type := {
  ms : option Z;
  entryStatus : string
}.

(** [isOverdue = now > i.ms && i.status !== 'done'] *)
Definition isOverdue (now : Z) (e : entry) : bool :=
  match ms e with
  | Some m => (m <? now)%Z && negb (String.eqb (entryStatus e) "done")
  | None => false
  end.

(** [isNear = !isOverdue && (i.ms - now) <= nearMs] *)
Definition isNear (now : Z) (e : entry) : bool :=
  negb (isOverdue now e)
  && match ms e with
     | Some m => (m - now <=? nearMs)%Z
     | None => false
     end.

(** The badge the entry gets. *)
Definition classify (now : Z) (e : entry) : due :=
  if isOverdue now e then Overdue
  else if isNear now e then NearDue
  else Upcoming.

(** The three counters after the [forEach] over the entries, in the order
    overdue, near, upcoming. *)
Definition deadlineCounts (now : Z) (l : list entry) : nat * nat * nat :=
  fold_left
    (fun c e =>
       let '(o, n, u) := c in
       if isOverdue now e then (S o, n, u)
       else if isNear now e then (o, S n, u)
       else (o, n, S u))
    l (0, 0, 0)%nat.

Section GroupBy.
Context {A K : Type} `{EqDecision K}.

(** [map.set(k, (map.get(k) || 0) + 1)] on a [Map], which keeps its keys in
    the order of their first insertion. *)
Fixpoint bump (k : K) (m : list (K * nat)) : list (K * nat) :=
  match m with
  | [] => [(k, 1%nat)]
  | (k', n) :: r =>
      if decide (k' = k) then (k', S n) :: r
      else (k', n) :: bump k r
  end.

(** [groupBy(arr, key)]: the pairs of a label and its number of elements. *)
Definition groupBy (key : A -> K) (arr : list A) : list (K * nat) :=
  fold_left (fun m t => bump (key t) m) arr [].

End GroupBy.

(** [total = segments.reduce((a, b) => a + b.value, 0) || 1], the number
    shown in the centre of the donut. *)
Definition donutTotal {K} (segments : list (K * nat)) : nat :=
  let sum := list_sum segments.*2 in
  if (sum =? 0)%nat then 1%nat else sum.

End Analytics.

(* ===================================================================== *)
(** * Statement vocabulary and sample data *)
(* ===================================================================== *)

Import Credential Server.

(** No [:] occurs in the string. *)
Fixpoint colonFree (s : string) : bool :=
  match s with
  | EmptyString => true
  | String a r => negb (Ascii.eqb a ":") && colonFree r
  end.

(** The record [findOne({ token })] returns when the store answers. *)
Definition storedSession (db : Db) (tok : string) : option session :=
  List.find (fun s => String.eqb (token s) tok) (sessions db).

(** C6, as stated: resolution gives none exactly when no record has the
    token or the record's [expiresAt] is at or before [now]. *)
Definition none_iff_absent_or_due (db : Db) (now : Z) (tok : string) : Prop :=
  getSession db now tok = Return None <->
  (storedSession db tok = None \/
   exists s, storedSession db tok = Some s /\ (expiresAt s <= now)%Z).

(** The response carries the task identified by [id]. *)
Definition exposes (id : N) (r : response) : Prop :=
  match r with
  | RespTasks docs => exists x, x ∈ docs /\ x !! "_id" = Some (VOid id)
  | RespTask _ x => x !! "_id" = Some (VOid id)
  | RespOk => False
  | RespError _ _ => False
  end.

(** What every created document carries: the defaults for the fields the
    body leaves out, the server's clock reads, and the caller as owner. *)
Definition stamped_with_defaults `{Runtime}
    (tDate tNow : Z) (uid : N) (body doc : object) : Prop :=
  (body !! "priority" = None -> doc !! "priority" = Some (VStr "Medium"))
  /\ (body !! "status" = None -> doc !! "status" = Some (VStr "backlog"))
  /\ (body !! "starred" = None -> doc !! "starred" = Some (VBool false))
  /\ doc !! "createdAt" = Some (VNum tNow)
  /\ doc !! "assignedAt" = Some (VStr (toISOString tDate))
  /\ doc !! "assignedAtIST" = Some (VStr (toLocaleStringIST tDate))
  /\ doc !! "userId" = Some (VOid uid).

(** The fields the create handler reads from the body. *)
Definition createFields : list string :=
  ["title"; "priority"; "status"; "assignee"; "starred"; "deadline"].

(** *** Sample data *)

Definition sampleSalt : list byte :=
  [x00; x01; x02; x03; x04; x05; x06; x07;
   x08; x09; x0a; x0b; x0c; x0d; x0e; xff].

(** A store with one session, created at 400 and expiring at 1000. *)
Definition sessionDb : Db :=
  {| up := true;
     sessions := [{| token := "5f2a"; userId := 7; createdAt := 400; expiresAt := 1000 |}];
     tasks := ∅ |}.

(** A page request carrying that session's token as a bearer token. *)
Definition bearerRequest : request :=
  {| method := "GET"; path := "/tasks.html";
     authorization := Some "Bearer 5f2a"; cookie := None |}.

(** A store that cannot be reached. *)
Definition downDb : Db := {| up := false; sessions := []; tasks := ∅ |}.

(** A page request carrying a token in its cookie. *)
Definition cookieRequest : request :=
  {| method := "GET"; path := "/tasks.html";
     authorization := None; cookie := Some "theme=dark; token=0000" |}.

Definition aliceId : N := 10.
Definition bobId : N := 20.

(** A completed task of Alice. *)
Definition aliceTask : object :=
  <["userId" := VOid aliceId]>
  (<["status" := VStr "done"]>
  (<["completedAt" := VStr "iso:5"]>
  (<["title" := VStr "Ship v1"]> ∅))).

Definition sampleDb : Db :=
  {| up := true; sessions := []; tasks := {[ 1%N := aliceTask ]} |}.

Definition aliceTaskId : string := "000000000000000000000001".

Section ClientSamples.
Import AppCore.

Definition emptyColumns : list column :=
  [ {| dataStatus := "backlog"; cards := []; count := Some 0%nat |};
    {| dataStatus := "in-progress"; cards := []; count := Some 0%nat |};
    {| dataStatus := "review"; cards := []; count := Some 0%nat |};
    {| dataStatus := "done"; cards := []; count := Some 0%nat |} ].

Definition boardTasks : list task :=
  [ {| id := "t1"; title := "Write report"; priority := "High";
       status := "backlog"; assignee := ""; starred := false |};
    {| id := "t2"; title := "Fix login"; priority := "Medium";
       status := "done"; assignee := "Asha"; starred := true |} ].

(** The tasks page after [_renderBoard] and [updateTasksStatusWidget]. *)
Definition boardPage : page :=
  updateTasksStatusWidget
    {| tasks := boardTasks;
       board := Some (renderColumns boardTasks emptyColumns);
       stacks := Some None;
       legend := Some {| backlog := 0; progress := 0; review := 0; done := 0 |} |}.

End ClientSamples.


(** *** Vocabulary of the further properties *)

(** The string emails of the stored users, in order. *)
Definition stringEmails (users : list Accounts.user) : list string :=
  omap (fun u => match Accounts.userEmail u with VStr e => Some e | _ => None end) users.

(** No [;] occurs in the string. *)
Fixpoint semicolonFree (s : string) : bool :=
  match s with
  | EmptyString => true
  | String a r => negb (Ascii.eqb a ";") && semicolonFree r
  end.

(** Identifiers strictly decreasing along the list. *)
Definition idsDescending (l : list (N * object)) : Prop :=
  Sorted (fun a b => (b.1 < a.1)%N) l.

(** How an operation of the inbox leaves the badge of the notifications
    button: it shows the number of unread notifications when that number is
    positive and is left as it was otherwise; a page without the button
    stays without it. *)
Definition badge_follows (s s' : Inbox.inbox) : Prop :=
  match Inbox.button s with
  | None => Inbox.button s' = None
  | Some b =>
      exists b',
        Inbox.button s' = Some b'
        /\ Inbox.badge b'
           = if (0 <? Inbox.unreadCount (Inbox.notifications s'))%nat
             then Some (Inbox.unreadCount (Inbox.notifications s'))
             else Inbox.badge b
  end.

(** The number a label has in a list of groups, 0 when it has none. *)
Definition groupCount {K} `{EqDecision K} (k : K) (m : list (K * nat)) : nat :=
  match List.find (fun kv => bool_decide (kv.1 = k)) m with
  | Some kv => kv.2
  | None => 0%nat
  end.

(** *** Further sample data *)

(** A store that answers and is empty. *)
Definition emptyDb : Db := {| up := true; sessions := []; tasks := ∅ |}.

Definition tokenBytesA : list byte :=
  [xa0; xa1; xa2; xa3; xa4; xa5; xa6; xa7; xa8; xa9; xaa; xab;
   xac; xad; xae; xaf; xb0; xb1; xb2; xb3; xb4; xb5; xb6; xb7].

Definition tokenBytesB : list byte :=
  [xc0; xc1; xc2; xc3; xc4; xc5; xc6; xc7; xc8; xc9; xca; xcb;
   xcc; xcd; xce; xcf; xd0; xd1; xd2; xd3; xd4; xd5; xd6; xd7].

(** The body of a signup, and of the login that follows it. *)
Definition signupBody : object :=
  <["name" := VStr "Asha"]>
  (<["email" := VStr "asha@example.org"]>
  (<["password" := VStr "hunter2"]> ∅)).

(** A request carrying the token made of [tokenBytesA]. *)
Definition tokenRequest : request :=
  {| method := "GET"; path := "/api/auth/me";
     authorization := Some ("Bearer " +:+ Credential.toStringHex tokenBytesA);
     cookie := None |}.

(** A user already stored under the email of [signupBody]. *)
Definition storedAsha : Accounts.user :=
  {| Accounts.userOid := 4; Accounts.userName := VStr "A. Rao";
     Accounts.userEmail := VStr "asha@example.org";
     Accounts.passwordHash := "00:00"; Accounts.userCreatedAt := 3 |}.

(** An update of Alice's task: a new title, an unparseable deadline, and
    fields the handler does not accept. *)
Definition aliceUpdate : object :=
  <["title" := VStr "Ship v1.1"]>
  (<["deadline" := VStr "next week"]>
  (<["userId" := VOid bobId]>
  (<["createdAt" := VNum 0]> ∅))).

(** The body of a create call. *)
Definition createBody : object :=
  <["priority" := VStr "High"]> {[ "title" := VStr "Ship v2" ]}.

(** A page request without any token. *)
Definition anonymousRequest : request :=
  {| method := "GET"; path := "/tasks.html"; authorization := None; cookie := None |}.

(** A request for a script of the client. *)
Definition scriptRequest : request :=
  {| method := "GET"; path := "/js/analytics.js"; authorization := None; cookie := None |}.

(** A store holding a task whose identifier is the text of a card's id. *)
Definition cardDb : Db :=
  {| up := true; sessions := [];
     tasks := {[ 1%N := <["userId" := VOid aliceId]>
                         (<["status" := VStr "backlog"]>
                         (<["starred" := VBool false]>
                         (<["title" := VStr "Write report"]> ∅))) ]} |}.

Section MoreClientSamples.
Import AppCore.

(** The tasks page with one card, whose id is the text of an [ObjectId]. *)
Definition cardPage : page :=
  let ts := [ {| id := "000000000000000000000001"; title := "Write report";
                 priority := "High"; status := "backlog"; assignee := "";
                 starred := false |} ] in
  updateTasksStatusWidget
    {| tasks := ts; board := Some (renderColumns ts emptyColumns);
       stacks := Some None;
       legend := Some {| backlog := 0; progress := 0; review := 0; done := 0 |} |}.

End MoreClientSamples.

(** Two deadline entries, one of them without a date that parses. *)
Definition sampleEntries : list Analytics.entry :=
  [ {| Analytics.ms := Some 5000%Z; Analytics.entryStatus := "done" |};
    {| Analytics.ms := None; Analytics.entryStatus := "backlog" |} ].

(* ===================================================================== *)
(** * Properties *)
(* ===================================================================== *)

(** ** Credential store *)

Section CredentialFacts.

Lemma colonFree_app s1 s2 :
  colonFree (s1 +:+ s2) = colonFree s1 && colonFree s2.
Proof.
  induction s1 as [|a r IH]; simpl; [reflexivity|].
  rewrite IH. now rewrite andb_assoc.
Qed.

Lemma hexOfByte_colonFree b : colonFree (hexOfByte b) = true.
Proof. destruct b; vm_compute; reflexivity. Qed.

Lemma toStringHex_cons b r :
  toStringHex (b :: r) = hexOfByte b +:+ toStringHex r.
Proof. reflexivity. Qed.

Lemma toStringHex_colonFree buf : colonFree (toStringHex buf) = true.
Proof.
  induction buf as [|b r IH]; [reflexivity|].
  now rewrite toStringHex_cons, colonFree_app, hexOfByte_colonFree, IH.
Qed.

Lemma split_colonFree s : colonFree s = true -> split ":" s = [s].
Proof.
  induction s as [|a r IH]; simpl; [reflexivity|].
  intros [Ha Hr]%andb_prop.
  apply negb_true_iff in Ha. rewrite Ha, (IH Hr). reflexivity.
Qed.

Lemma split_app_colon s1 s2 :
  colonFree s1 = true ->
  split ":" (s1 +:+ String ":" s2) = s1 :: split ":" s2.
Proof.
  induction s1 as [|a r IH]; simpl; [reflexivity|].
  intros [Ha Hr]%andb_prop.
  apply negb_true_iff in Ha. rewrite Ha, (IH Hr). reflexivity.
Qed.

Lemma string_length_app s1 s2 :
  String.length (s1 +:+ s2) = (String.length s1 + String.length s2)%nat.
Proof. induction s1 as [|a r IH]; simpl; [reflexivity | now rewrite IH]. Qed.

Lemma toStringHex_length buf :
  String.length (toStringHex buf) = (2 * length buf)%nat.
Proof.
  induction buf as [|b r IH]; [reflexivity|].
  rewrite toStringHex_cons, string_length_app, IH.
  unfold hexOfByte. simpl. lia.
Qed.

Lemma nonempty_length s : nonempty s = true <-> (0 < String.length s)%nat.
Proof. destruct s; simpl; split; intros; try easy; lia. Qed.

Lemma bufferFromHex_hexOfByte b s :
  bufferFromHex (hexOfByte b +:+ s) = b :: bufferFromHex s.
Proof. destruct b; reflexivity. Qed.

(** Decoding the hexadecimal text of a buffer gives the buffer back. *)
Lemma bufferFromHex_toStringHex buf : bufferFromHex (toStringHex buf) = buf.
Proof.
  induction buf as [|b r IH]; [reflexivity|].
  now rewrite toStringHex_cons, bufferFromHex_hexOfByte, IH.
Qed.

Lemma timingSafeEqual_refl buf : timingSafeEqual buf buf = Return true.
Proof.
  unfold timingSafeEqual. rewrite Nat.eqb_refl.
  now rewrite bool_decide_eq_true_2.
Qed.

Context `{Scrypt}.

(** The stored form splits back into the salt and the digest it was built
    from. *)
Lemma split_hashPassword salt password :
  split ":" (hashPassword salt password)
  = [toStringHex salt; toStringHex (scryptSync password (toStringHex salt) 64)].
Proof.
  unfold hashPassword.
  change (":" +:+ ?h) with (String ":" h).
  rewrite split_app_colon by apply toStringHex_colonFree.
  now rewrite split_colonFree by apply toStringHex_colonFree.
Qed.

(** What [verifyPassword] does on a stored form with both parts: it
    compares when the decoded digest has 64 bytes and throws otherwise. *)
Lemma verifyPassword_parts password stored salt hash rest :
  nonempty stored = true ->
  split ":" stored = salt :: hash :: rest ->
  nonempty salt = true -> nonempty hash = true ->
  verifyPassword password (Some stored)
  = if (length (bufferFromHex hash) =? 64)%nat
    then Return (bool_decide (bufferFromHex hash = scryptSync password salt 64))
    else Throws RangeError.
Proof.
  intros Hs Hsplit Hsalt Hhash. unfold verifyPassword.
  rewrite Hs, Hsplit. simpl. rewrite Hsalt, Hhash. simpl.
  unfold timingSafeEqual.
  now rewrite bufferFromHex_toStringHex, scryptSync_length.
Qed.

(** A stored form without salt or without digest is refused with [false]. *)
Lemma verifyPassword_missing_part password stored :
  (forall salt hash rest,
      split ":" (default EmptyString stored) = salt :: hash :: rest ->
      nonempty salt = false \/ nonempty hash = false) ->
  verifyPassword password stored = Return false.
Proof.
  intros Hparts. unfold verifyPassword.
  assert (Hst : match stored with
                | Some s => if nonempty s then s else EmptyString
                | None => EmptyString
                end = default EmptyString stored).
  { destruct stored as [[|a r]|]; reflexivity. }
  rewrite Hst.
  destruct (split ":" (default EmptyString stored)) as [|salt [|hash rest]] eqn:E;
    try reflexivity.
  simpl. destruct (Hparts salt hash rest eq_refl) as [-> | ->]; simpl;
    [reflexivity | now rewrite orb_true_r].
Qed.

End CredentialFacts.

(** C9. Hashing a password with any 16-byte salt and then verifying the same
    password against the stored [salt:hash] text returns [true]. *)
Theorem verifyPassword_hashPassword `{Scrypt}
    (salt : list byte) (password : string) :
  length salt = 16%nat ->
  verifyPassword password (Some (hashPassword salt password))
  = Return true.
Proof.
  intros Hlen.
  assert (Hsalt : nonempty (toStringHex salt) = true).
  { apply nonempty_length. rewrite toStringHex_length. lia. }
  assert (Hhash : nonempty (toStringHex
                    (scryptSync password (toStringHex salt) 64)) = true).
  { apply nonempty_length.
    rewrite toStringHex_length, scryptSync_length. lia. }
  assert (Hstored : nonempty (hashPassword salt password) = true).
  { apply nonempty_length. unfold hashPassword.
    rewrite !string_length_app. apply nonempty_length in Hsalt. lia. }
  rewrite (verifyPassword_parts password _ _ _ [] Hstored
             (split_hashPassword salt password) Hsalt Hhash).
  rewrite bufferFromHex_toStringHex, scryptSync_length.
  simpl. now rewrite bool_decide_eq_true_2.
Qed.

Lemma verifyPassword_hashPassword_witness :
  length sampleSalt = 16%nat /\
  verifyPassword "hunter2" (Some (hashPassword sampleSalt "hunter2"))
  = Return true.
Proof.
  split; [reflexivity|].
  apply (verifyPassword_hashPassword sampleSalt "hunter2"). reflexivity.
Defined.

(** C5. [verifyPassword] is not total on malformed stored forms: when the
    digest part does not decode to 64 bytes, [crypto.timingSafeEqual]
    throws.  Here the stored form is ["ab:cd"], whose digest decodes to one
    byte. *)
Theorem verifyPassword_throws_on_short_digest `{Scrypt} (password : string) :
  verifyPassword password (Some "ab:cd") = Throws RangeError.
Proof.
  now rewrite (verifyPassword_parts password "ab:cd" "ab" "cd" []).
Qed.

(** ** Session manager and the two guards *)

Lemma findSession_up db tok :
  up db = true -> findSession db tok = Return (storedSession db tok).
Proof. intros Hup. unfold findSession. now rewrite Hup. Qed.

Lemma findSession_down db tok :
  up db = false -> findSession db tok = Throws MongoError.
Proof. intros Hup. unfold findSession. now rewrite Hup. Qed.

Lemma nonempty_false s : nonempty s = false <-> s = EmptyString.
Proof. destruct s; cbn; split; intros; congruence. Qed.

Lemma nonempty_true s : nonempty s = true <-> s <> EmptyString.
Proof. destruct s; cbn; split; intros; congruence. Qed.

(** C6 (counterexample). A session whose [expiresAt] equals the current
    time is still returned: the comparison in [getSession] is strict. *)
Lemma getSession_at_expiry_instant :
  ~ none_iff_absent_or_due sessionDb 1000 "5f2a".
Proof.
  unfold none_iff_absent_or_due. intros [_ Hback].
  assert (Hnone : getSession sessionDb 1000 "5f2a" = Return None).
  { apply Hback. right. eexists. split; [reflexivity|]. simpl. lia. }
  vm_compute in Hnone. discriminate Hnone.
Qed.

(** C6 (amended). Resolution gives none exactly when the token is empty, or
    the store answers and either holds no record with that token or holds
    one whose [expiresAt] is set (not zero) and strictly before [now]. *)
Theorem getSession_none_iff (db : Db) (now : Z) (tok : string) :
  getSession db now tok = Return None <->
  (tok = EmptyString \/
   (up db = true /\
    (storedSession db tok = None \/
     exists s, storedSession db tok = Some s /\
               expiresAt s <> 0%Z /\ (expiresAt s < now)%Z))).
Proof.
  unfold getSession.
  destruct (nonempty tok) eqn:Htok; simpl.
  - apply nonempty_true in Htok.
    destruct (up db) eqn:Hup.
    + rewrite (findSession_up _ _ Hup). simpl.
      destruct (storedSession db tok) as [s|] eqn:Hs.
      * destruct (Z.eqb_spec (expiresAt s) 0) as [Hz|Hz];
          destruct (Z.ltb_spec (expiresAt s) now) as [Hlt|Hge]; simpl.
        1, 2, 4: split; [discriminate|];
          intros [Hempty | [_ [Hnone | (s' & Hs' & Hnz & Hlt')]]];
          [contradiction | discriminate | injection Hs' as <-; first [contradiction | lia]].
        split; [|reflexivity]. intros _. right. split; [reflexivity|]. right.
        exists s. auto.
      * split; [intros _; right; split; [reflexivity|]; now left | reflexivity].
    + rewrite (findSession_down _ _ Hup). simpl. split; [discriminate|].
      intros [Hempty | [Hfalse _]]; [contradiction | discriminate].
  - apply nonempty_false in Htok. split; [now left | reflexivity].
Qed.

(** A record with a set expiry strictly before [now] resolves to none. *)
Lemma getSession_expired db now tok s :
  up db = true -> nonempty tok = true ->
  storedSession db tok = Some s ->
  expiresAt s <> 0%Z -> (expiresAt s < now)%Z ->
  getSession db now tok = Return None.
Proof.
  intros Hup Htok Hs Hnz Hlt. unfold getSession. rewrite Htok. simpl.
  rewrite (findSession_up _ _ Hup), Hs. simpl.
  apply Z.eqb_neq in Hnz. apply Z.ltb_lt in Hlt. now rewrite Hnz, Hlt.
Qed.

(** A record whose [expiresAt] is the current instant resolves to itself. *)
Lemma getSession_at_expiry db now tok s :
  up db = true -> tok <> EmptyString ->
  storedSession db tok = Some s -> expiresAt s = now ->
  getSession db now tok = Return (Some s).
Proof.
  intros Hup Htok Hs Hexp. unfold getSession.
  apply nonempty_true in Htok. rewrite Htok. simpl.
  rewrite (findSession_up _ _ Hup), Hs. simpl.
  rewrite Hexp, Z.ltb_irrefl, andb_false_r. reflexivity.
Qed.

(** Sessions written by [createSession] carry a non-zero expiry whenever
    the clock is non-negative. *)
Lemma createSession_expiry db tok now uid db' :
  (0 <= now)%Z ->
  createSession db tok now uid = Return (tok, db') ->
  exists s, last (sessions db') = Some s /\ token s = tok /\
            expiresAt s = (now + 604800000)%Z /\ expiresAt s <> 0%Z.
Proof.
  intros Hnow. unfold createSession. destruct (up db); [|discriminate].
  intros [= <-]. eexists. simpl. rewrite last_snoc.
  split; [reflexivity|]. simpl. repeat split; lia.
Qed.

Lemma lookupToken_up db tok :
  up db = true -> nonempty tok = true ->
  lookupToken db tok = Return (storedSession db tok).
Proof.
  intros Hup Htok. unfold lookupToken. rewrite Htok. now apply findSession_up.
Qed.

Lemma requestToken_bearer req :
  nonempty (bearerToken req) = true -> requestToken req = bearerToken req.
Proof. intros Hb. unfold requestToken. now rewrite Hb. Qed.

Lemma protected_page req :
  isHtml req = true -> path req ∉ allowed ->
  isHtml req && negb (bool_decide (path req ∈ allowed)) = true.
Proof.
  intros -> Hnot. simpl. now rewrite bool_decide_eq_false_2.
Qed.

(** C2. The two guards do not resolve a token alike: the page guard only
    looks the token up, while the API guard also checks the expiry.  On a
    protected page, a bearer token whose session record exists and has
    expired is refused by the API guard and let through by the page guard. *)
Theorem pageGuard_accepts_expired_session
    (db : Db) (now : Z) (req : request) (s : session) :
  up db = true ->
  isHtml req = true -> path req ∉ allowed ->
  nonempty (bearerToken req) = true ->
  storedSession db (bearerToken req) = Some s ->
  expiresAt s <> 0%Z -> (expiresAt s < now)%Z ->
  authRequired db now req = Unauthorized /\ pageGuard db req = Next.
Proof.
  intros Hup Hhtml Hprot Htok Hs Hnz Hlt. split.
  - unfold authRequired.
    now rewrite (getSession_expired db now _ s Hup Htok Hs Hnz Hlt).
  - unfold pageGuard. rewrite (protected_page _ Hhtml Hprot).
    rewrite (requestToken_bearer _ Htok), (lookupToken_up _ _ Hup Htok), Hs.
    reflexivity.
Qed.

Lemma pageGuard_accepts_expired_session_witness :
  authRequired sessionDb 2000 bearerRequest = Unauthorized /\
  pageGuard sessionDb bearerRequest = Next.
Proof.
  apply (pageGuard_accepts_expired_session sessionDb 2000 bearerRequest
           {| token := "5f2a"; userId := 7; createdAt := 400; expiresAt := 1000 |}).
  - reflexivity.
  - reflexivity.
  - unfold allowed. vm_compute. intros Hin.
    repeat (apply elem_of_cons in Hin as [Hin | Hin]; [discriminate Hin|]).
    now apply elem_of_nil in Hin.
  - reflexivity.
  - reflexivity.
  - simpl. lia.
  - simpl. lia.
Defined.

(** With that request the page itself is sent by [express.static]. *)
Lemma servePage_expired_session :
  servePage (fun p => String.eqb p "/tasks.html") sessionDb bearerRequest
  = PageFile "/tasks.html".
Proof. vm_compute. reflexivity. Qed.

(** Where the guards do agree: for a bearer token and a session that has
    not expired (or no session), the page guard redirects exactly when the
    API guard answers 401. *)
Lemma guards_agree_without_expiry db now req :
  up db = true ->
  isHtml req = true -> path req ∉ allowed ->
  nonempty (bearerToken req) = true ->
  (forall s, storedSession db (bearerToken req) = Some s ->
             expiresAt s = 0%Z \/ (now <= expiresAt s)%Z) ->
  (authRequired db now req = Unauthorized <->
   pageGuard db req = Redirect "/login.html").
Proof.
  intros Hup Hhtml Hprot Htok Hlive.
  unfold authRequired, pageGuard, getSession.
  rewrite (protected_page _ Hhtml Hprot).
  rewrite (requestToken_bearer _ Htok), (lookupToken_up _ _ Hup Htok).
  rewrite Htok, (findSession_up _ _ Hup). simpl.
  destruct (storedSession db (bearerToken req)) as [s|]; simpl; [|tauto].
  destruct (Hlive s eq_refl) as [Hz | Hge].
  - rewrite Hz. simpl. split; discriminate.
  - destruct (Z.ltb_spec (expiresAt s) now); [lia|].
    rewrite andb_false_r. simpl. split; discriminate.
Qed.

(** C10. When the session lookup of the page guard throws, the guard
    swallows the error and calls [next()]: the request is forwarded, and a
    page that exists as a file is then sent by [express.static] instead of a
    redirect to [/login.html]. *)
Theorem pageGuard_fails_open
    (isFile : string -> bool) (db : Db) (req : request) (e : exn) :
  lookupToken db (requestToken req) = Throws e ->
  pageGuard db req = Next /\
  (isGetOrHead req = true -> isFile (path req) = true ->
   servePage isFile db req = PageFile (path req)).
Proof.
  intros Hthrow.
  assert (Hnext : pageGuard db req = Next).
  { unfold pageGuard.
    destruct (isHtml req && negb (bool_decide (path req ∈ allowed)));
      [now rewrite Hthrow | reflexivity]. }
  split; [exact Hnext|].
  intros Hget Hfile. unfold servePage. rewrite Hnext, Hget, Hfile.
  unfold isGetOrHead in Hget.
  destruct (String.eqb_spec (method req) "OPTIONS") as [Hopt|]; [|reflexivity].
  rewrite Hopt in Hget. discriminate Hget.
Qed.

Lemma pageGuard_fails_open_witness :
  lookupToken downDb (requestToken cookieRequest) = Throws MongoError /\
  pageGuard downDb cookieRequest = Next /\
  servePage (fun p => String.eqb p "/tasks.html") downDb cookieRequest
  = PageFile "/tasks.html".
Proof.
  split; [reflexivity|].
  destruct (pageGuard_fails_open (fun p => String.eqb p "/tasks.html")
              downDb cookieRequest MongoError eq_refl) as [Hnext Hserve].
  split; [exact Hnext | apply Hserve; reflexivity].
Defined.

(** The root is not served in that situation: [express.static] passes it
    on and the lookup of the route handler rejects in its turn. *)
Lemma servePage_root_store_down :
  servePage (fun p => String.eqb p "/tasks.html") downDb
    {| method := "GET"; path := "/"; authorization := None;
       cookie := Some "token=0000" |}
  = PageUnhandled MongoError.
Proof. vm_compute. reflexivity. Qed.

(** The same request is redirected when the store answers and holds no
    session for the token. *)
Lemma pageGuard_redirects_unknown_token :
  pageGuard {| up := true; sessions := []; tasks := ∅ |} cookieRequest
  = Redirect "/login.html".
Proof. vm_compute. reflexivity. Qed.

(** ** Task repository *)

Section TaskFacts.
Context `{Runtime}.

Lemma ownedBy_inj a b d : ownedBy a d = true -> ownedBy b d = true -> a = b.
Proof.
  unfold ownedBy. destruct (d !! "userId") as [[]|]; try discriminate.
  intros Ha%N.eqb_eq Hb%N.eqb_eq. congruence.
Qed.

Lemma ownedBy_other a b d : a <> b -> ownedBy a d = true -> ownedBy b d = false.
Proof.
  intros Hne Ha. destruct (ownedBy b d) eqn:Hb; [|reflexivity].
  destruct Hne. eapply ownedBy_inj; eassumption.
Qed.

(** The update handler, case by case. *)
Lemma patchTask_cases db t uid idParam body :
  patchTask db t uid idParam body =
  match parseObjectId idParam with
  | None => (RespError 500 "Failed to update task", db)
  | Some id =>
      if negb (up db)
         || ((size (buildUpdate t body) =? 0)%nat && negb emptySetAllowed)
      then (RespError 500 "Failed to update task", db)
      else
        match tasks db !! id with
        | Some d =>
            if ownedBy uid d
            then (RespTask 200 (withId id (buildUpdate t body ∪ d)),
                  setTasks db (<[id := buildUpdate t body ∪ d]> (tasks db)))
            else (RespError 404 "Not found", db)
        | None => (RespError 404 "Not found", db)
        end
  end.
Proof.
  unfold patchTask, ObjectId, findOneAndUpdate.
  destruct (parseObjectId idParam) as [id|]; simpl; [|reflexivity].
  destruct (up db); simpl; [|reflexivity].
  destruct ((size (buildUpdate t body) =? 0)%nat && negb emptySetAllowed);
    simpl; [reflexivity|].
  destruct (tasks db !! id) as [d|]; simpl; [|reflexivity].
  destruct (ownedBy uid d); reflexivity.
Qed.

(** The delete handler, case by case. *)
Lemma deleteTask_cases db uid idParam :
  deleteTask db uid idParam =
  match parseObjectId idParam with
  | None => (RespError 500 "Failed to delete task", db)
  | Some id =>
      if negb (up db) then (RespError 500 "Failed to delete task", db)
      else
        match tasks db !! id with
        | Some d =>
            if ownedBy uid d
            then (RespOk, setTasks db (delete id (tasks db)))
            else (RespError 404 "Not found", db)
        | None => (RespError 404 "Not found", db)
        end
  end.
Proof.
  unfold deleteTask, ObjectId, deleteOne.
  destruct (parseObjectId idParam) as [id|]; simpl; [|reflexivity].
  destruct (up db); simpl; [|reflexivity].
  destruct (tasks db !! id) as [d|]; simpl; [|reflexivity].
  destruct (ownedBy uid d); reflexivity.
Qed.

(** Every document returned by [GET /api/tasks] is a stored document of the
    caller. *)
Lemma listTasks_owned db uid docs x :
  listTasks db uid = RespTasks docs -> x ∈ docs ->
  exists id d, x = withId id d /\ tasks db !! id = Some d /\ ownedBy uid d = true.
Proof.
  unfold listTasks, findTasks. destruct (up db); simpl; [|discriminate].
  intros [= <-] Hin.
  apply list_elem_of_fmap in Hin as ([id d] & -> & Hin).
  rewrite merge_sort_Permutation in Hin.
  apply list_elem_of_filter in Hin as [Hown Hin].
  apply elem_of_map_to_list in Hin.
  exists id, d. auto.
Qed.

Lemma withId_id id d : withId id d !! "_id" = Some (VOid id).
Proof. apply lookup_insert_eq. Qed.

(** The list call of another user does not return the task. *)
Lemma listTasks_hides_foreign db a b id d docs x :
  a <> b -> tasks db !! id = Some d -> ownedBy a d = true ->
  listTasks db b = RespTasks docs -> x ∈ docs ->
  x !! "_id" <> Some (VOid id).
Proof.
  intros Hab Hd Hown Hlist Hin Hid.
  pose proof (ownedBy_other a b d Hab Hown) as Hnot.
  destruct (listTasks_owned _ _ _ _ Hlist Hin) as (id' & d' & -> & Hd' & Hown').
  rewrite withId_id in Hid. injection Hid as ->.
  rewrite Hd in Hd'. injection Hd' as <-. congruence.
Qed.

(** The update call of another user leaves the task alone. *)
Lemma patchTask_foreign db a b id d t idParam body resp db' :
  a <> b -> tasks db !! id = Some d -> ownedBy a d = true ->
  patchTask db t b idParam body = (resp, db') ->
  tasks db' !! id = Some d
  /\ (forall st x, resp = RespTask st x -> x !! "_id" <> Some (VOid id))
  /\ (parseObjectId idParam = Some id -> up db = true ->
      buildUpdate t body <> ∅ \/ emptySetAllowed = true ->
      resp = RespError 404 "Not found" /\ db' = db).
Proof.
  intros Hab Hd Hown.
  pose proof (ownedBy_other a b d Hab Hown) as Hnot.
  rewrite patchTask_cases.
  destruct (parseObjectId idParam) as [id'|] eqn:Hparse.
  2: { intros [= <- <-]. repeat split; [assumption | discriminate | discriminate]. }
  destruct (up db) eqn:Hup; simpl.
  2: { intros [= <- <-]. repeat split; [assumption | discriminate | discriminate]. }
  destruct ((size (buildUpdate t body) =? 0)%nat && negb emptySetAllowed) eqn:Hset.
  { intros [= <- <-]. split; [assumption|]. split; [discriminate|].
    intros _ _ Hok. apply andb_prop in Hset as [Hsz%Nat.eqb_eq Hallow].
    apply map_size_empty_inv in Hsz. apply negb_true_iff in Hallow.
    destruct Hok; congruence. }
  destruct (decide (id' = id)) as [->|Hne].
  - rewrite Hd, Hnot. intros [= <- <-].
    split; [assumption|]. split; [discriminate|]. auto.
  - destruct (tasks db !! id') as [d'|] eqn:Hd';
      [destruct (ownedBy b d')|]; intros [= <- <-]; simpl.
    + rewrite lookup_insert_ne by assumption.
      split; [assumption|]. split; [|congruence].
      intros st x [= <- <-]. rewrite withId_id. congruence.
    + split; [assumption|]. split; [discriminate|congruence].
    + split; [assumption|]. split; [discriminate|congruence].
Qed.

(** The delete call of another user leaves the task alone. *)
Lemma deleteTask_foreign db a b id d idParam resp db' :
  a <> b -> tasks db !! id = Some d -> ownedBy a d = true ->
  deleteTask db b idParam = (resp, db') ->
  tasks db' !! id = Some d
  /\ (parseObjectId idParam = Some id -> up db = true ->
      resp = RespError 404 "Not found" /\ db' = db).
Proof.
  intros Hab Hd Hown.
  pose proof (ownedBy_other a b d Hab Hown) as Hnot.
  rewrite deleteTask_cases.
  destruct (parseObjectId idParam) as [id'|] eqn:Hparse.
  2: { intros [= <- <-]. split; [assumption | discriminate]. }
  destruct (up db) eqn:Hup; simpl.
  2: { intros [= <- <-]. split; [assumption | discriminate]. }
  destruct (decide (id' = id)) as [->|Hne].
  - rewrite Hd, Hnot. intros [= <- <-]. auto.
  - destruct (tasks db !! id') as [d'|] eqn:Hd';
      [destruct (ownedBy b d')|]; intros [= <- <-]; simpl.
    + rewrite lookup_delete_ne by assumption. split; [assumption|congruence].
    + split; [assumption|congruence].
    + split; [assumption|congruence].
Qed.

(** C1. A task owned by user [a] is out of reach of any other user [b],
    whatever id [b] supplies: it is not among the documents [b]'s list call
    returns; [b]'s update call never modifies it and never returns it, and
    answers 404 without touching the store when [b] supplies its id; and
    [b]'s delete call never deletes it and answers 404 in the same way.
    (The 404 presupposes that the call reaches the store's matching step:
    the store answers and accepts the [$set] document.) *)
Theorem tasks_isolated_between_users
    (db : Db) (a b : N) (id : N) (d : object) :
  a <> b ->
  tasks db !! id = Some d -> ownedBy a d = true ->
  (forall docs x, listTasks db b = RespTasks docs -> x ∈ docs ->
     x !! "_id" <> Some (VOid id))
  /\ (forall t idParam body resp db',
        patchTask db t b idParam body = (resp, db') ->
        tasks db' !! id = Some d
        /\ (forall st x, resp = RespTask st x -> x !! "_id" <> Some (VOid id))
        /\ (parseObjectId idParam = Some id -> up db = true ->
            buildUpdate t body <> ∅ \/ emptySetAllowed = true ->
            resp = RespError 404 "Not found" /\ db' = db))
  /\ (forall idParam resp db',
        deleteTask db b idParam = (resp, db') ->
        tasks db' !! id = Some d
        /\ (parseObjectId idParam = Some id -> up db = true ->
            resp = RespError 404 "Not found" /\ db' = db)).
Proof.
  intros Hab Hd Hown. split; [|split].
  - intros docs x. now apply (listTasks_hides_foreign db a b id d).
  - intros t idParam body resp db'. now apply (patchTask_foreign db a b id d).
  - intros idParam resp db'. now apply (deleteTask_foreign db a b id d).
Qed.

(** *** The update object *)

Lemma pick_fold_lookup (body : object) ks (acc : object) k :
  fold_left
    (fun update k =>
       match body !! k with
       | Some v => <[k := v]> update
       | None => update
       end) ks acc !! k
  = if bool_decide (k ∈ ks)
    then match body !! k with Some v => Some v | None => acc !! k end
    else acc !! k.
Proof.
  revert acc. induction ks as [|a ks IH]; intros acc; cbn [fold_left].
  - case_bool_decide as Hin; [|reflexivity]. now apply elem_of_nil in Hin.
  - rewrite IH.
    assert (Hacc : k <> a ->
              (match body !! a with
               | Some v => <[a := v]> acc
               | None => acc
               end) !! k = acc !! k).
    { intros Hne. destruct (body !! a); [now rewrite lookup_insert_ne|reflexivity]. }
    repeat case_bool_decide; try reflexivity.
    + destruct (decide (k = a)) as [->|Hne]; [|now rewrite Hacc].
      destruct (body !! a); [|reflexivity]. reflexivity.
    + exfalso. match goal with Hn : ~ _ |- _ => apply Hn end.
      now apply list_elem_of_further.
    + match goal with Hc : k ∈ a :: ks |- _ => apply elem_of_cons in Hc as [->|Hc] end;
        [|contradiction].
      destruct (body !! a); [now rewrite lookup_insert_eq | reflexivity].
    + apply Hacc. intros ->.
      match goal with Hn : ~ (a ∈ a :: ks) |- _ => apply Hn end.
      apply list_elem_of_here.
Qed.

(** Only the six accepted fields pass from the body into the update. *)
Lemma pickUpdate_lookup body k :
  pickUpdate body !! k
  = if bool_decide (k ∈ mutableFields) then body !! k else None.
Proof.
  unfold pickUpdate. rewrite pick_fold_lookup, lookup_empty.
  destruct (bool_decide (k ∈ mutableFields)); [|reflexivity].
  now destruct (body !! k).
Qed.

Lemma normalizeDeadline_lookup_ne update k :
  k <> "deadline" -> normalizeDeadline update !! k = update !! k.
Proof.
  intros Hne. unfold normalizeDeadline.
  destruct (update !! "deadline") as [d|]; [|reflexivity].
  destruct (truthy (Some d)); [|reflexivity].
  destruct (newDateISO _); simpl.
  - now rewrite lookup_insert_ne.
  - now rewrite lookup_delete_ne.
Qed.

Lemma stampCompleted_done t update :
  update !! "status" = Some (VStr "done") ->
  stampCompleted t update
  = <["completedAtIST" := VStr (toLocaleStringIST t)]>
      (<["completedAt" := VStr (toISOString t)]> update).
Proof. intros Hs. unfold stampCompleted. now rewrite Hs. Qed.

Lemma stampCompleted_other t update :
  update !! "status" <> Some (VStr "done") -> stampCompleted t update = update.
Proof.
  intros Hs. unfold stampCompleted.
  destruct (update !! "status") as [[| | |s| | |]|]; try reflexivity.
  destruct (String.eqb_spec s "done") as [->|]; [congruence|reflexivity].
Qed.

Lemma buildUpdate_status t body :
  buildUpdate t body !! "status" = body !! "status".
Proof.
  assert (Hs : normalizeDeadline (pickUpdate body) !! "status" = body !! "status").
  { rewrite normalizeDeadline_lookup_ne by discriminate.
    rewrite pickUpdate_lookup. reflexivity. }
  unfold buildUpdate, stampCompleted. rewrite Hs.
  destruct (body !! "status") as [[| | |s| | |]|]; try exact Hs.
  destruct (String.eqb s "done"); [|exact Hs].
  now rewrite !lookup_insert_ne by discriminate.
Qed.

(** The update carries [completedAt] and its display form exactly when the
    body sets the status to ['done']; the body cannot supply them. *)
Lemma buildUpdate_completedAt t body :
  (body !! "status" = Some (VStr "done") ->
   buildUpdate t body !! "completedAt" = Some (VStr (toISOString t))
   /\ buildUpdate t body !! "completedAtIST" = Some (VStr (toLocaleStringIST t)))
  /\ (body !! "status" <> Some (VStr "done") ->
      buildUpdate t body !! "completedAt" = None
      /\ buildUpdate t body !! "completedAtIST" = None).
Proof.
  assert (Hs : normalizeDeadline (pickUpdate body) !! "status" = body !! "status").
  { rewrite normalizeDeadline_lookup_ne by discriminate.
    now rewrite pickUpdate_lookup. }
  assert (Hnone : forall k, k = "completedAt" \/ k = "completedAtIST" ->
            normalizeDeadline (pickUpdate body) !! k = None).
  { intros k [-> | ->]; rewrite normalizeDeadline_lookup_ne by discriminate;
      now rewrite pickUpdate_lookup. }
  unfold buildUpdate. split; intros Hst.
  - rewrite stampCompleted_done by congruence.
    rewrite lookup_insert_ne by discriminate.
    now rewrite !lookup_insert_eq.
  - rewrite stampCompleted_other by congruence. auto.
Qed.

(** [$set] neither changes the owner nor the identity of a document. *)
Lemma buildUpdate_userId t body : buildUpdate t body !! "userId" = None.
Proof.
  unfold buildUpdate, stampCompleted.
  assert (Hu : normalizeDeadline (pickUpdate body) !! "userId" = None).
  { rewrite normalizeDeadline_lookup_ne by discriminate.
    now rewrite pickUpdate_lookup. }
  destruct (normalizeDeadline (pickUpdate body) !! "status") as [[| | |s| | |]|];
    try exact Hu.
  destruct (String.eqb s "done"); [|exact Hu].
  now rewrite !lookup_insert_ne by discriminate.
Qed.

Lemma ownedBy_update t body uid d :
  ownedBy uid (buildUpdate t body ∪ d) = ownedBy uid d.
Proof.
  unfold ownedBy. now rewrite lookup_union_r by apply buildUpdate_userId.
Qed.

(** C4. For a task the caller owns, an update that sets [status] stores and
    returns the merged document; when the status set is ['done'] the
    document's [completedAt] (and its display form) is the stamp of this
    update, whatever the task's status was before; when the status set is
    anything else, [completedAt] (and its display form) is what it was. *)
Theorem patchTask_completedAt
    (db : Db) (t : Z) (uid id : N) (idParam : string) (d body : object) :
  up db = true ->
  parseObjectId idParam = Some id ->
  tasks db !! id = Some d -> ownedBy uid d = true ->
  is_Some (body !! "status") ->
  exists d',
    patchTask db t uid idParam body
    = (RespTask 200 (withId id d'), setTasks db (<[id := d']> (tasks db)))
    /\ d' !! "status" = body !! "status"
    /\ (body !! "status" = Some (VStr "done") ->
        d' !! "completedAt" = Some (VStr (toISOString t))
        /\ d' !! "completedAtIST" = Some (VStr (toLocaleStringIST t)))
    /\ (body !! "status" <> Some (VStr "done") ->
        d' !! "completedAt" = d !! "completedAt"
        /\ d' !! "completedAtIST" = d !! "completedAtIST").
Proof.
  intros Hup Hparse Hd Hown Hstatus.
  exists (buildUpdate t body ∪ d).
  assert (Hsz : (size (buildUpdate t body) =? 0)%nat = false).
  { apply Nat.eqb_neq. apply (map_size_ne_0_lookup_2 _ "status").
    now rewrite buildUpdate_status. }
  split; [|split; [|split]].
  - rewrite patchTask_cases, Hparse, Hup, Hsz, Hd, Hown. reflexivity.
  - destruct Hstatus as [v Hv].
    rewrite (lookup_union_Some_l _ _ _ v); [now rewrite Hv|].
    now rewrite buildUpdate_status.
  - intros Hdone.
    destruct (proj1 (buildUpdate_completedAt t body) Hdone) as [Hc Hi].
    split; eapply lookup_union_Some_l; eassumption.
  - intros Hother.
    destruct (proj2 (buildUpdate_completedAt t body) Hother) as [Hc Hi].
    split; now apply lookup_union_r.
Qed.

(** *** Creation *)

Ltac doc_lookup :=
  unfold newTaskDoc;
  repeat (rewrite lookup_insert_ne by discriminate);
  rewrite ?lookup_insert_eq.

Lemma newTaskDoc_stamped tDate tNow uid body title :
  stamped_with_defaults tDate tNow uid body (newTaskDoc tDate tNow uid body title).
Proof.
  unfold stamped_with_defaults. repeat split; try intros Hnone; doc_lookup;
    try rewrite Hnone; reflexivity.
Qed.

(** The create handler, case by case. *)
(** A title that is not a string is refused like a missing one. *)
Lemma createTask_title_not_string db tDate tNow newId uid body :
  is_string (body !! "title") = false ->
  createTask db tDate tNow newId uid body = (RespError 400 "Title is required", db).
Proof.
  unfold createTask. destruct (body !! "title") as [title|]; [|reflexivity].
  intros ->. now rewrite orb_true_r.
Qed.

Lemma createTask_cases db tDate tNow newId uid body :
  createTask db tDate tNow newId uid body =
  match body !! "title" with
  | Some (VStr s) =>
      if nonempty s
      then if up db
           then match tasks db !! newId with
                | Some _ => (RespError 500 "Failed to create task", db)
                | None =>
                    (RespTask 201 (withId newId (newTaskDoc tDate tNow uid body (VStr s))),
                     setTasks db (<[newId := newTaskDoc tDate tNow uid body (VStr s)]> (tasks db)))
                end
           else (RespError 500 "Failed to create task", db)
      else (RespError 400 "Title is required", db)
  | _ => (RespError 400 "Title is required", db)
  end.
Proof.
  unfold createTask, insertOne.
  destruct (body !! "title") as [[|b|n|s|o|l|l]|]; try reflexivity.
  - simpl. now destruct b.
  - simpl. now destruct (n =? 0)%Z.
  - unfold nonempty. simpl. destruct (negb (String.eqb s "")); simpl; [|reflexivity].
    destruct (up db); simpl; [|reflexivity].
    now destruct (tasks db !! newId).
Qed.

Lemma newTaskDoc_ignores tDate tNow uid body title k v :
  k ∉ createFields ->
  newTaskDoc tDate tNow uid (<[k := v]> body) title
  = newTaskDoc tDate tNow uid body title.
Proof.
  intros Hk. unfold newTaskDoc.
  rewrite !(lookup_insert_ne body k) ; [reflexivity | ..];
    intros ->; apply Hk; unfold createFields; set_solver.
Qed.

(** Whatever the create handler stores is the document it answers with,
    built with the defaults and the server's stamps. *)
Lemma createTask_created db tDate tNow newId uid body st d db' :
  createTask db tDate tNow newId uid body = (RespTask st d, db') ->
  exists doc,
    st = 201%nat /\ d = withId newId doc /\ tasks db' !! newId = Some doc
    /\ stamped_with_defaults tDate tNow uid body doc.
Proof.
  rewrite createTask_cases.
  destruct (body !! "title") as [[|b|n|s|o|l|l]|]; try discriminate.
  destruct (nonempty s); [|discriminate].
  destruct (up db); [|discriminate].
  destruct (tasks db !! newId); [discriminate|].
  intros [= <- <- <-]. eexists. split; [reflexivity|]. split; [reflexivity|].
  split; [apply lookup_insert_eq | apply newTaskDoc_stamped].
Qed.

(** A task the create handler stores belongs to the caller. *)
Lemma createTask_owned db tDate tNow newId uid body st d db' :
  createTask db tDate tNow newId uid body = (RespTask st d, db') ->
  exists doc, tasks db' !! newId = Some doc /\ ownedBy uid doc = true.
Proof.
  intros (doc & _ & _ & Hdoc & Hst)%createTask_created.
  exists doc. split; [exact Hdoc|].
  destruct Hst as (_ & _ & _ & _ & _ & _ & Huid).
  unfold ownedBy. rewrite Huid. apply N.eqb_refl.
Qed.

(** C8. For every create request of an authenticated user: a title that is
    absent or empty (or otherwise falsy) is answered 400 and nothing is
    stored; a non-empty title is answered 201 with the stored task (the
    store answering, the generated id being new); every created task has
    priority ['Medium'], status ['backlog'] and starred [false] where the
    input leaves them out, and [createdAt], [assignedAt] and the display
    form stamped from the server's clock; and fields of the input other
    than the six the handler reads, such as client-supplied timestamps, do
    not change the outcome. *)
Theorem createTask_spec
    (db : Db) (tDate tNow : Z) (newId uid : N) (body : object) :
  (truthy (body !! "title") = false ->
   createTask db tDate tNow newId uid body = (RespError 400 "Title is required", db))
  /\ (forall s, body !! "title" = Some (VStr s) -> s <> EmptyString ->
        up db = true -> tasks db !! newId = None ->
        exists doc,
          createTask db tDate tNow newId uid body
          = (RespTask 201 (withId newId doc), setTasks db (<[newId := doc]> (tasks db))))
  /\ (forall st d db',
        createTask db tDate tNow newId uid body = (RespTask st d, db') ->
        exists doc,
          st = 201%nat /\ d = withId newId doc /\ tasks db' !! newId = Some doc
          /\ stamped_with_defaults tDate tNow uid body doc)
  /\ (forall k v, k ∉ createFields ->
        createTask db tDate tNow newId uid (<[k := v]> body)
        = createTask db tDate tNow newId uid body).
Proof.
  split; [|split; [|split]].
  - intros Hfalsy. rewrite createTask_cases.
    destruct (body !! "title") as [[|b|n|s|o|l|l]|]; try reflexivity.
    simpl in Hfalsy. unfold nonempty. now rewrite Hfalsy.
  - intros s Htitle Hs Hup Hfresh. rewrite createTask_cases, Htitle.
    apply nonempty_true in Hs. rewrite Hs, Hup, Hfresh. eauto.
  - intros st d db'. apply createTask_created.
  - intros k v Hk. unfold createTask.
    assert (Htitle : k <> "title").
    { intros ->. apply Hk. unfold createFields. set_solver. }
    rewrite lookup_insert_ne by assumption.
    destruct (body !! "title") as [title|]; [|reflexivity].
    now rewrite newTaskDoc_ignores.
Qed.

(** *** Isolation along any sequence of calls *)

Lemma createTask_foreign db b id d tDate tNow newId body resp db' :
  tasks db !! id = Some d ->
  createTask db tDate tNow newId b body = (resp, db') ->
  tasks db' !! id = Some d /\ ~ exposes id resp.
Proof.
  intros Hd. rewrite createTask_cases.
  destruct (body !! "title") as [[|x|n|s|o|l|l]|];
    try (intros [= <- <-]; split; [assumption | intros []]).
  destruct (nonempty s); [|intros [= <- <-]; split; [assumption | intros []]].
  destruct (up db); [|intros [= <- <-]; split; [assumption | intros []]].
  destruct (tasks db !! newId) eqn:Hnew;
    [intros [= <- <-]; split; [assumption | intros []]|].
  intros [= <- <-]. simpl.
  assert (Hne : newId <> id) by congruence.
  split; [now rewrite lookup_insert_ne|].
  rewrite withId_id. congruence.
Qed.

Lemma patchTask_response db t uid idParam body :
  match (patchTask db t uid idParam body).1 with
  | RespTask _ _ | RespError _ _ => True
  | _ => False
  end.
Proof.
  rewrite patchTask_cases.
  destruct (parseObjectId idParam) as [id|]; [|exact I].
  destruct (negb (up db) || _); [exact I|].
  destruct (tasks db !! id) as [d|]; [destruct (ownedBy uid d)|]; exact I.
Qed.

Lemma deleteTask_response db uid idParam :
  match (deleteTask db uid idParam).1 with
  | RespOk | RespError _ _ => True
  | _ => False
  end.
Proof.
  rewrite deleteTask_cases.
  destruct (parseObjectId idParam) as [id|]; [|exact I].
  destruct (negb (up db)); [exact I|].
  destruct (tasks db !! id) as [d|]; [destruct (ownedBy uid d)|]; exact I.
Qed.

Lemma handle_foreign db a b id d c resp db' :
  a <> b -> tasks db !! id = Some d -> ownedBy a d = true ->
  handle db b c = (resp, db') ->
  tasks db' !! id = Some d /\ ~ exposes id resp.
Proof.
  intros Hab Hd Hown. destruct c as [|tDate tNow newId body|tDate idParam body|idParam]; simpl.
  - intros [= <- <-]. split; [assumption|].
    destruct (listTasks db b) as [docs|st x| |st e] eqn:Hlist; simpl; try tauto.
    + intros (x & Hin & Hid).
      exact (listTasks_hides_foreign db a b id d docs x Hab Hd Hown Hlist Hin Hid).
    + revert Hlist. unfold listTasks, findTasks. destruct (up db); discriminate.
  - now apply createTask_foreign.
  - intros Hpatch.
    destruct (patchTask_foreign db a b id d _ _ _ _ _ Hab Hd Hown Hpatch) as (Hkeep & Hhide & _).
    split; [assumption|].
    pose proof (patchTask_response db tDate b idParam body) as Hshape.
    rewrite Hpatch in Hshape. simpl in Hshape.
    destruct resp as [docs|st x| |st e]; simpl; try tauto.
    now apply (Hhide st).
  - intros Hdel.
    destruct (deleteTask_foreign db a b id d _ _ _ Hab Hd Hown Hdel) as (Hkeep & _).
    split; [assumption|].
    pose proof (deleteTask_response db b idParam) as Hshape.
    rewrite Hdel in Hshape. simpl in Hshape.
    destruct resp as [docs|st x| |st e]; simpl; tauto.
Qed.

(** Whatever calls users other than [a] make, in any number and order, a
    task of [a] stays in the store as it is and appears in no response. *)
Lemma serve_foreign cs : forall db a id d,
  Forall (fun uc => uc.1 <> a) cs ->
  tasks db !! id = Some d -> ownedBy a d = true ->
  tasks (serve db cs).2 !! id = Some d
  /\ Forall (fun r => ~ exposes id r) (serve db cs).1.
Proof.
  induction cs as [|[b c] rest IH]; intros db a id d Hall Hd Hown; simpl.
  - split; [assumption | constructor].
  - apply Forall_cons in Hall as [Hb Hrest]. simpl in Hb.
    destruct (handle db b c) as [r db1] eqn:Hstep.
    destruct (handle_foreign db a b id d c r db1 (not_eq_sym Hb) Hd Hown Hstep)
      as [Hd1 Hr].
    destruct (IH db1 a id d Hrest Hd1 Hown) as [Hd2 Hrs].
    destruct (serve db1 rest) as [rs db2]. simpl in *.
    split; [assumption | now constructor].
Qed.

End TaskFacts.

(** *** The handlers on a small store *)

(** The list call returns the caller's tasks, newest identifier first. *)
Example listTasks_newest_first :
  let doc (u : N) (t : string) : object :=
    <["userId" := VOid u]> {[ "title" := VStr t ]} in
  listTasks {| up := true; sessions := [];
               tasks := <[3%N := doc aliceId "c"]>
                        (<[1%N := doc aliceId "a"]>
                        (<[2%N := doc bobId "b"]> ∅)) |} aliceId
  = RespTasks [withId 3 (doc aliceId "c"); withId 1 (doc aliceId "a")].
Proof. vm_compute. reflexivity. Qed.

Lemma tasks_isolated_between_users_witness :
  (forall docs x, listTasks sampleDb bobId = RespTasks docs -> x ∈ docs ->
     x !! "_id" <> Some (VOid 1))
  /\ patchTask sampleDb 99 bobId aliceTaskId {[ "status" := VStr "backlog" ]}
     = (RespError 404 "Not found", sampleDb)
  /\ deleteTask sampleDb bobId aliceTaskId = (RespError 404 "Not found", sampleDb).
Proof.
  destruct (tasks_isolated_between_users sampleDb aliceId bobId 1 aliceTask)
    as (Hlist & Hpatch & Hdelete).
  - discriminate.
  - reflexivity.
  - reflexivity.
  - split; [exact Hlist|]. split.
    + destruct (patchTask sampleDb 99 bobId aliceTaskId {[ "status" := VStr "backlog" ]})
        as [resp db'] eqn:E.
      destruct (Hpatch _ _ _ _ _ E) as (_ & _ & H404).
      destruct H404 as [-> ->]; [reflexivity | reflexivity | now right | reflexivity].
    + destruct (deleteTask sampleDb bobId aliceTaskId) as [resp db'] eqn:E.
      destruct (Hdelete _ _ _ E) as (_ & H404).
      destruct H404 as [-> ->]; reflexivity.
Defined.

Lemma patchTask_completedAt_witness :
  exists d',
    patchTask sampleDb 99 aliceId aliceTaskId {[ "status" := VStr "done" ]}
    = (RespTask 200 (withId 1 d'), setTasks sampleDb (<[1%N := d']> (tasks sampleDb)))
    /\ aliceTask !! "completedAt" = Some (VStr "iso:5")
    /\ d' !! "completedAt" = Some (VStr "iso:99").
Proof.
  destruct (patchTask_completedAt sampleDb 99 aliceId 1 aliceTaskId aliceTask
              {[ "status" := VStr "done" ]})
    as (d' & Hpatch & _ & Hdone & _).
  - reflexivity.
  - reflexivity.
  - reflexivity.
  - reflexivity.
  - eexists. reflexivity.
  - exists d'. split; [exact Hpatch|]. split; [reflexivity|].
    apply Hdone. reflexivity.
Defined.

(** The scenario of the specification: create, complete, reopen, delete. *)
Example create_complete_reopen_delete :
  let db0 := {| up := true; sessions := []; tasks := ∅ |} in
  let body := <["priority" := VStr "High"]> {[ "title" := VStr "Ship v2" ]} in
  let '(r1, db1) := createTask db0 500 501 1 aliceId body in
  let '(r2, db2) := patchTask db1 700 aliceId aliceTaskId {[ "status" := VStr "done" ]} in
  let '(r3, db3) := patchTask db2 900 aliceId aliceTaskId {[ "status" := VStr "review" ]} in
  let '(r4, db4) := deleteTask db3 aliceId aliceTaskId in
  (exists d1, r1 = RespTask 201 d1
     /\ d1 !! "status" = Some (VStr "backlog") /\ d1 !! "starred" = Some (VBool false)
     /\ d1 !! "priority" = Some (VStr "High") /\ d1 !! "createdAt" = Some (VNum 501)
     /\ d1 !! "completedAt" = None)
  /\ (exists d2, r2 = RespTask 200 d2 /\ d2 !! "completedAt" = Some (VStr "iso:700"))
  /\ (exists d3, r3 = RespTask 200 d3 /\ d3 !! "status" = Some (VStr "review")
        /\ d3 !! "completedAt" = Some (VStr "iso:700"))
  /\ r4 = RespOk
  /\ listTasks db4 aliceId = RespTasks [].
Proof.
  vm_compute. repeat split; eexists; repeat split; reflexivity.
Qed.

(** ** The client *)

Section ClientFacts.
Import AppCore.

(** *** Status widget *)

Lemma round_nonneg v z : round v = Some z -> (0 <= z)%Z.
Proof.
  unfold round.
  destruct v as [s|[|]| |s m e]; simpl; intros [= <-]; lia.
Qed.

(** After the residual is put on the done segment, the widths add up to
    100 unless the three other segments already exceed 100: the done
    segment is clamped at 0 and cannot absorb a negative residual. *)
Lemma fixResidual_total rb rp rr rd :
  (0 <= rb)%Z -> (0 <= rp)%Z -> (0 <= rr)%Z -> (0 <= rd)%Z ->
  totalWidth (fixResidual rb rp rr rd) = Z.max 100 (rb + rp + rr)
  /\ wDone (fixResidual rb rp rr rd) = Z.max 0 (100 - (rb + rp + rr)).
Proof.
  intros Hb Hp Hr Hd. unfold totalWidth, fixResidual. simpl.
  destruct (Z.eqb_spec (rb + rp + rr + rd) 0) as [H0|H0]; simpl.
  - split; lia.
  - destruct (Z.eqb_spec (rb + rp + rr + rd) 100) as [H100|H100]; simpl; split; lia.
Qed.

Lemma segmentWidths_total c w :
  segmentWidths c = Some w ->
  totalWidth w = Z.max 100 (wBacklog w + wProgress w + wReview w)
  /\ wDone w = Z.max 0 (100 - (wBacklog w + wProgress w + wReview w)).
Proof.
  unfold segmentWidths.
  destruct (round (pct c (backlog c))) as [rb|] eqn:Hb; [|discriminate].
  destruct (round (pct c (progress c))) as [rp|] eqn:Hp; [|discriminate].
  destruct (round (pct c (review c))) as [rr|] eqn:Hr; [|discriminate].
  destruct (round (pct c (done c))) as [rd|] eqn:Hd; [|discriminate].
  simpl. intros [= <-].
  apply fixResidual_total; eapply round_nonneg; eassumption.
Qed.

(** The widths add up to exactly 100 precisely when the rounded backlog,
    in-progress and review widths do not exceed 100 together. *)
Lemma segmentWidths_total_100_iff c w :
  segmentWidths c = Some w ->
  (totalWidth w = 100%Z <-> (wBacklog w + wProgress w + wReview w <= 100)%Z).
Proof. intros [Ht _]%segmentWidths_total. lia. Qed.

(** With no task at all, the done segment alone is 100. *)
Lemma segmentWidths_no_tasks :
  segmentWidths {| backlog := 0; progress := 0; review := 0; done := 0 |}
  = Some {| wBacklog := 0; wProgress := 0; wReview := 0; wDone := 100 |}.
Proof. vm_compute. reflexivity. Qed.

(** A residual of +1 goes to the done segment. *)
Lemma segmentWidths_thirds :
  segmentWidths {| backlog := 1; progress := 1; review := 1; done := 0 |}
  = Some {| wBacklog := 33; wProgress := 33; wReview := 33; wDone := 1 |}.
Proof. vm_compute. reflexivity. Qed.

(** C3. The four widths do not always add up to 100.  With 3 backlog, 3
    in-progress, 2 review and no done task the shares are 37.5, 37.5, 25
    and 0, which round to 38, 38, 25 and 0; the residual is -1 and the done
    segment, clamped at 0, cannot take it: the widths add up to 101. *)
Theorem segmentWidths_exceed_100 :
  segmentWidths {| backlog := 3; progress := 3; review := 2; done := 0 |}
  = Some {| wBacklog := 38; wProgress := 38; wReview := 25; wDone := 0 |}
  /\ totalWidth {| wBacklog := 38; wProgress := 38; wReview := 25; wDone := 0 |} = 101%Z.
Proof. split; vm_compute; reflexivity. Qed.

(** The shares of that input are exact in binary64: 37.5 and 25. *)
Lemma pct_three_eighths :
  let c := {| backlog := 3; progress := 3; review := 2; done := 0 |} in
  pct c 3 = S754_finite false 5277655813324800 (-47)
  /\ (5277655813324800 * 2 = 75 * 2 ^ 47)%Z
  /\ pct c 2 = number_of_Z 25.
Proof. vm_compute. repeat split; reflexivity. Qed.

(** *** Drop handler *)

Lemma setStatus_same t : setStatus t (status t) = t.
Proof. now destruct t. Qed.

Lemma findTask_assignStatus ts i s t :
  findTask ts i = Some t ->
  findTask (assignStatus ts i s) i = Some (setStatus t s).
Proof.
  unfold findTask. induction ts as [|x r IH]; simpl; [discriminate|].
  destruct (String.eqb (id x) i) eqn:E; simpl.
  - intros [= <-]. now rewrite E.
  - intros Hr. rewrite E. now apply IH.
Qed.

Lemma assignStatus_revert ts i s t :
  findTask ts i = Some t ->
  assignStatus (assignStatus ts i s) i (status t) = ts.
Proof.
  unfold findTask. induction ts as [|x r IH]; simpl; [discriminate|].
  destruct (String.eqb (id x) i) eqn:E; simpl.
  - intros [= <-]. rewrite E. f_equal. now destruct x.
  - intros Hr. rewrite E. f_equal. now apply IH.
Qed.

Lemma updateColumnCounts_counts cols c n :
  c ∈ updateColumnCounts cols -> count c = Some n -> n = length (cards c).
Proof.
  unfold updateColumnCounts.
  intros (c0 & -> & _)%list_elem_of_fmap. simpl.
  destruct (count c0); simpl; congruence.
Qed.

Lemma updateTasksStatusWidget_tasks p :
  tasks (updateTasksStatusWidget p) = tasks p
  /\ board (updateTasksStatusWidget p) = board p.
Proof. unfold updateTasksStatusWidget. now destruct (stacks p). Qed.

(** The optimistic half of the handler: for a drop of a card on a column
    other than its task's, the local status becomes the column's, the
    column counts are recomputed from the cards, and one PATCH request is
    issued whose body holds the status alone. *)
Lemma dropStart_optimistic p k i cols col t :
  board p = Some cols -> cols !! k = Some col ->
  findTask (tasks p) i = Some t -> status t <> dataStatus col ->
  exists p' cols',
    dropStart p k i
    = (p', Some ({| reqMethod := "PATCH"; reqUrl := "/api/tasks/" +:+ i;
                    reqBody := [("status", VStr (dataStatus col))] |},
                 {| dragId := i; prev := status t |}))
    /\ findTask (tasks p') i = Some (setStatus t (dataStatus col))
    /\ board p' = Some cols'
    /\ (forall c n, c ∈ cols' -> count c = Some n -> n = length (cards c)).
Proof.
  intros Hb Hk Ht Hne. unfold dropStart. rewrite Hb, Hk, Ht.
  apply String.eqb_neq in Hne. rewrite Hne.
  eexists. exists (updateColumnCounts (moveCard cols i k)).
  split; [reflexivity|].
  destruct (updateTasksStatusWidget_tasks
              (withBoard (withTasks p (assignStatus (tasks p) i (dataStatus col)))
                 (updateColumnCounts (moveCard cols i k)))) as [-> ->].
  simpl. split; [now apply findTask_assignStatus|].
  split; [reflexivity|]. apply updateColumnCounts_counts.
Qed.

Lemma detachCard_lookup cols i k col :
  cols !! k = Some col ->
  exists cs, detachCard cols i !! k
             = Some {| dataStatus := dataStatus col; cards := cs; count := count col |}.
Proof.
  revert k. induction cols as [|c r IH]; intros k Hk; [discriminate|].
  simpl. destruct (removeFirst i (cards c)) as [l|].
  - destruct k as [|k]; simpl in *.
    + injection Hk as <-. now exists l.
    + exists (cards col). rewrite Hk. now destruct col.
  - destruct k as [|k]; simpl in *.
    + injection Hk as <-. exists (cards c). now destruct c.
    + now apply IH.
Qed.

(** A card found on the board becomes the last card of the column it is
    dropped on. *)
Lemma moveCard_lands cols i k col :
  hasCard cols i = true -> cols !! k = Some col ->
  exists cs, moveCard cols i k !! k
             = Some {| dataStatus := dataStatus col; cards := cs ++ [i]; count := count col |}.
Proof.
  intros Hhas Hk. unfold moveCard. rewrite Hhas.
  destruct (detachCard_lookup cols i k col Hk) as [cs Hcs].
  exists cs. rewrite list_lookup_alter, Hcs. now rewrite decide_True.
Qed.

Lemma dropStart_card_in_target p k i cols col t :
  board p = Some cols -> cols !! k = Some col -> hasCard cols i = true ->
  findTask (tasks p) i = Some t -> status t <> dataStatus col ->
  exists cols' cs,
    board (dropStart p k i).1 = Some cols'
    /\ cols' !! k = Some {| dataStatus := dataStatus col; cards := cs ++ [i];
                            count := (fun _ => length (cs ++ [i])) <$> count col |}.
Proof.
  intros Hb Hk Hhas Ht Hne. unfold dropStart. rewrite Hb, Hk, Ht.
  apply String.eqb_neq in Hne. rewrite Hne. simpl.
  match goal with
  | |- context [updateTasksStatusWidget ?q] =>
      destruct (updateTasksStatusWidget_tasks q) as [_ ->]
  end.
  simpl. destruct (moveCard_lands cols i k col Hhas Hk) as [cs Hcs].
  eexists. exists cs. split; [reflexivity|].
  unfold updateColumnCounts. rewrite list_lookup_fmap, Hcs. reflexivity.
Qed.

(** When the request settles with an HTTP response, whatever its status,
    nothing is undone: the page stays as the optimistic half left it. *)
Lemma drop_http_response p k i st :
  drop p k i (HttpResponse st) = (dropStart p k i).1.
Proof.
  unfold drop. destruct (dropStart p k i) as [p' [[req pd]|]]; reflexivity.
Qed.

(** When [fetch] rejects, the task list is what it was before the drop. *)
Lemma drop_network_error_tasks p k i cols col t :
  board p = Some cols -> cols !! k = Some col ->
  findTask (tasks p) i = Some t -> status t <> dataStatus col ->
  tasks (drop p k i NetworkError) = tasks p.
Proof.
  intros Hb Hk Ht Hne. unfold drop, dropStart. rewrite Hb, Hk, Ht.
  apply String.eqb_neq in Hne. rewrite Hne. unfold dropSettle.
  destruct (updateTasksStatusWidget_tasks
              (withBoard (withTasks p (assignStatus (tasks p) i (dataStatus col)))
                 (updateColumnCounts (moveCard cols i k)))) as [Htasks Hboard].
  rewrite Hboard, Htasks. simpl.
  match goal with
  | |- tasks (updateTasksStatusWidget ?q) = _ =>
      destruct (updateTasksStatusWidget_tasks q) as [-> _]
  end.
  simpl. now apply assignStatus_revert.
Qed.

(** C7. A failed update call does not always revert the drop.  The card
    [t1] is dragged from backlog to the done column (number 3) and the
    server answers 500: [fetch] resolves, the [catch] block does not run,
    and the page keeps the status ['done'], the card in the done column and
    the counts 0 and 2, although the update failed.  Only a rejected
    [fetch] (a network failure) reverts the three. *)
Theorem drop_not_reverted_on_http_error :
  let p := drop boardPage 3 "t1" (HttpResponse 500) in
  status <$> findTask (tasks boardPage) "t1" = Some "backlog"
  /\ (snd <$> (dropStart boardPage 3 "t1").2)
     = Some {| dragId := "t1"; prev := "backlog" |}
  /\ status <$> findTask (tasks p) "t1" = Some "done"
  /\ board p
     = Some [ {| dataStatus := "backlog"; cards := []; count := Some 0%nat |};
              {| dataStatus := "in-progress"; cards := []; count := Some 0%nat |};
              {| dataStatus := "review"; cards := []; count := Some 0%nat |};
              {| dataStatus := "done"; cards := ["t2"; "t1"]; count := Some 2%nat |} ]
  /\ legend p = Some {| backlog := 0; progress := 0; review := 0; done := 2 |}.
Proof. vm_compute. repeat split; reflexivity. Qed.

(** The same drop when [fetch] rejects: status, card and counts are back. *)
Lemma drop_reverted_on_network_error :
  let p := drop boardPage 3 "t1" NetworkError in
  tasks p = tasks boardPage
  /\ board p = board boardPage
  /\ legend p = legend boardPage
  /\ stacks p = stacks boardPage.
Proof. vm_compute. repeat split; reflexivity. Qed.

End ClientFacts.

(** ** Sessions: issue, resolve, revoke *)

Section SessionLifecycle.

Lemma find_app_fresh {A} (f : A -> bool) (l : list A) (x : A) :
  List.find f l = None -> f x = true -> List.find f (l ++ [x])%list = Some x.
Proof.
  induction l as [|y r IH]; simpl; intros Hnone Hx.
  - now rewrite Hx.
  - destruct (f y); [discriminate|]. now apply IH.
Qed.

Lemma bearerToken_of_header req tok :
  authorization req = Some ("Bearer " +:+ tok) -> bearerToken req = tok.
Proof. intros Hh. unfold bearerToken. rewrite Hh. now destruct tok. Qed.

Lemma createSession_up db tok now uid db' :
  createSession db tok now uid = Return (tok, db') ->
  up db = true /\ up db' = true /\ tasks db' = tasks db
  /\ sessions db'
     = (sessions db ++ [{| token := tok; userId := uid; createdAt := now;
                           expiresAt := (now + 604800000)%Z |}])%list.
Proof.
  unfold createSession. destruct (up db) eqn:Hup; [|discriminate].
  intros [= <-]. simpl. auto.
Qed.

Lemma storedSession_created db tok now uid db' :
  createSession db tok now uid = Return (tok, db') ->
  storedSession db tok = None ->
  storedSession db' tok
  = Some {| token := tok; userId := uid; createdAt := now;
            expiresAt := (now + 604800000)%Z |}.
Proof.
  intros (_ & _ & _ & Hs)%createSession_up Hfresh.
  unfold storedSession in *. rewrite Hs.
  apply find_app_fresh; [assumption|]. simpl. apply String.eqb_refl.
Qed.

(** A live record resolves to itself. *)
Lemma getSession_live db now tok s :
  up db = true -> tok <> EmptyString ->
  storedSession db tok = Some s ->
  (now <= expiresAt s)%Z ->
  getSession db now tok = Return (Some s).
Proof.
  intros Hup Htok Hs Hlive. unfold getSession.
  apply nonempty_true in Htok. rewrite Htok. simpl.
  rewrite (findSession_up _ _ Hup), Hs. simpl.
  destruct (Z.ltb_spec (expiresAt s) now); [lia|].
  now rewrite andb_false_r.
Qed.

(** X1. A session issued by [createSession] under a token that is not
    empty and not yet in the store resolves to the issuing user, through
    [getSession] and through the API guard, at every instant up to and
    including its expiry seven days later; after that instant it resolves
    to none. *)
Theorem createSession_then_resolve
    (db db' : Db) (tok : string) (now now' : Z) (uid : N) (req : request) :
  createSession db tok now uid = Return (tok, db') ->
  tok <> EmptyString ->
  storedSession db tok = None ->
  authorization req = Some ("Bearer " +:+ tok) ->
  ((now' <= now + 604800000)%Z ->
     getSession db' now' tok
     = Return (Some {| token := tok; userId := uid; createdAt := now;
                       expiresAt := (now + 604800000)%Z |})
     /\ authRequired db' now' req = Authorized uid)
  /\ ((now + 604800000 < now')%Z -> (now + 604800000 <> 0)%Z ->
      getSession db' now' tok = Return None
      /\ authRequired db' now' req = Unauthorized).
Proof.
  intros Hcreate Htok Hfresh Hreq.
  pose proof (storedSession_created _ _ _ _ _ Hcreate Hfresh) as Hstored.
  destruct (createSession_up _ _ _ _ _ Hcreate) as (_ & Hup' & _ & _).
  pose proof (bearerToken_of_header _ _ Hreq) as Hbearer.
  split.
  - intros Hlive.
    assert (Hget : getSession db' now' tok
                   = Return (Some {| token := tok; userId := uid; createdAt := now;
                                     expiresAt := (now + 604800000)%Z |})).
    { apply getSession_live; auto. }
    split; [exact Hget|]. unfold authRequired. now rewrite Hbearer, Hget.
  - intros Hlate Hnz.
    assert (Hget : getSession db' now' tok = Return None).
    { eapply getSession_expired; eauto. now apply nonempty_true. }
    split; [exact Hget|]. unfold authRequired. now rewrite Hbearer, Hget.
Qed.

End SessionLifecycle.

Section Logout.
Import Accounts.

Lemma find_token_elem ss tok s :
  List.find (fun s => String.eqb (token s) tok) ss = Some s ->
  tok ∈ token <$> ss.
Proof.
  induction ss as [|x r IH]; simpl; [discriminate|].
  destruct (String.eqb_spec (token x) tok) as [<-|Hne].
  - intros _. apply list_elem_of_here.
  - intros Hr. apply list_elem_of_further. now apply IH.
Qed.

Lemma find_deleteFirst_other tok tok' ss :
  tok' <> tok ->
  List.find (fun s => String.eqb (token s) tok') (deleteFirstSession tok ss)
  = List.find (fun s => String.eqb (token s) tok') ss.
Proof.
  intros Hne. induction ss as [|x r IH]; simpl; [reflexivity|].
  destruct (String.eqb_spec (token x) tok) as [Hx|Hx]; simpl.
  - destruct (String.eqb_spec (token x) tok'); [congruence | reflexivity].
  - now rewrite IH.
Qed.

Lemma find_deleteFirst_same tok ss :
  NoDup (token <$> ss) ->
  List.find (fun s => String.eqb (token s) tok) (deleteFirstSession tok ss) = None.
Proof.
  induction ss as [|x r IH]; simpl; [reflexivity|].
  intros [Hx Hr]%NoDup_cons.
  destruct (String.eqb_spec (token x) tok) as [Heq|Hne]; simpl.
  - destruct (List.find _ r) as [s|] eqn:Hfind; [|reflexivity].
    apply find_token_elem in Hfind. rewrite Heq in Hx. contradiction.
  - destruct (String.eqb_spec (token x) tok); [contradiction|]. now apply IH.
Qed.

Lemma authRequired_authorized db now req uid :
  authRequired db now req = Authorized uid ->
  up db = true /\ bearerToken req <> EmptyString
  /\ exists s, storedSession db (bearerToken req) = Some s /\ userId s = uid
               /\ (expiresAt s = 0%Z \/ (now <= expiresAt s)%Z).
Proof.
  unfold authRequired, getSession.
  destruct (nonempty (bearerToken req)) eqn:Htok; simpl; [|discriminate].
  unfold findSession. destruct (up db) eqn:Hup; simpl; [|discriminate].
  fold (storedSession db (bearerToken req)).
  destruct (storedSession db (bearerToken req)) as [s|]; simpl; [|discriminate].
  destruct (Z.eqb_spec (expiresAt s) 0) as [Hz|Hz];
    destruct (Z.ltb_spec (expiresAt s) now) as [Hlt|Hge]; simpl;
    try discriminate; intros [= <-];
    (split; [reflexivity|]; split; [now apply nonempty_true|]);
    exists s; repeat split; auto.
Qed.

(** X2. A logout that succeeds revokes the token: when the tokens in the
    store are pairwise distinct, the same request is refused by the API
    guard from then on, every other token resolves as before, and the tasks
    are untouched. *)
Theorem logout_revokes (db db' : Db) (now : Z) (req : request) :
  NoDup (token <$> sessions db) ->
  logout db now req = (AuthOk, db') ->
  (forall now', authRequired db' now' req = Unauthorized)
  /\ (forall tok' now', tok' <> bearerToken req ->
        getSession db' now' tok' = getSession db now' tok')
  /\ tasks db' = tasks db.
Proof.
  intros Hdistinct. unfold logout.
  destruct (authRequired db now req) as [uid|] eqn:Hauth; [|discriminate].
  destruct (authRequired_authorized _ _ _ _ Hauth) as (Hup & Htok & _).
  unfold deleteSession. rewrite Hup. intros [= <-].
  split; [|split; [|reflexivity]].
  - intros now'. unfold authRequired, getSession.
    apply nonempty_true in Htok. rewrite Htok. simpl.
    unfold findSession. simpl. rewrite Hup.
    now rewrite find_deleteFirst_same.
  - intros tok' now' Hne. unfold getSession, findSession. simpl.
    now rewrite find_deleteFirst_other.
Qed.

(** A request the guard refuses (no token, unknown token, expired session)
    is answered 401 and deletes nothing: an expired record stays. *)
Lemma logout_refused db now req :
  authRequired db now req = Unauthorized ->
  logout db now req = (AuthError 401 "Unauthorized", db).
Proof. intros Hauth. unfold logout. now rewrite Hauth. Qed.

Lemma logout_revokes_witness :
  authRequired sessionDb 500 bearerRequest = Authorized 7
  /\ forall now', authRequired (logout sessionDb 500 bearerRequest).2 now' bearerRequest
                  = Unauthorized.
Proof.
  split; [reflexivity|].
  destruct (logout_revokes sessionDb (logout sessionDb 500 bearerRequest).2 500 bearerRequest)
    as (Hrevoked & _).
  - apply NoDup_singleton.
  - reflexivity.
  - exact Hrevoked.
Defined.

End Logout.

(** ** Accounts: signup, login, me *)

Section AccountFacts.
Import Accounts.
Context `{Scrypt} `{Matching}.

(** Verification succeeds against the stored form of the same password for
    any salt that is not empty. *)
Lemma verifyPassword_own_hash salt password :
  salt <> [] ->
  verifyPassword password (Some (hashPassword salt password)) = Return true.
Proof.
  intros Hsalt.
  assert (Hs : nonempty (toStringHex salt) = true).
  { apply nonempty_length. rewrite toStringHex_length.
    destruct salt; [contradiction | simpl; lia]. }
  assert (Hh : nonempty (toStringHex (scryptSync password (toStringHex salt) 64)) = true).
  { apply nonempty_length. rewrite toStringHex_length, scryptSync_length. lia. }
  assert (Hstored : nonempty (hashPassword salt password) = true).
  { apply nonempty_length. unfold hashPassword.
    rewrite !string_length_app. apply nonempty_length in Hs. lia. }
  rewrite (verifyPassword_parts password _ _ _ [] Hstored
             (split_hashPassword salt password) Hs Hh).
  rewrite bufferFromHex_toStringHex, scryptSync_length.
  simpl. now rewrite bool_decide_eq_true_2.
Qed.

(** What a successful signup has done. *)
Lemma signup_created db users salt tokenBytes tCreated tSession newId body
    st tok id name email users' db' :
  signup db users salt tokenBytes tCreated tSession newId body
  = (AuthSession st tok id name email, users', db') ->
  st = 201%nat /\ tok = toStringHex tokenBytes /\ id = newId
  /\ body !! "name" = Some name /\ body !! "email" = Some email
  /\ truthy (Some email) = true
  /\ up db = true
  /\ List.find (fun u => fieldMatches email (userEmail u)) users = None
  /\ List.find (fun u => (userOid u =? newId)%N) users = None
  /\ exists pw,
       body !! "password" = Some (VStr pw) /\ pw <> EmptyString
       /\ users' = (users ++ [{| userOid := newId; userName := name; userEmail := email;
                                 passwordHash := hashPassword salt pw;
                                 userCreatedAt := tCreated |}])%list
       /\ createSession db (toStringHex tokenBytes) tSession newId
          = Return (toStringHex tokenBytes, db').
Proof.
  unfold signup.
  destruct (body !! "name") as [n|]; [|discriminate].
  destruct (body !! "email") as [e|]; [|discriminate].
  destruct (body !! "password") as [p|]; [|discriminate].
  destruct (truthy (Some n)) eqn:Hn; destruct (truthy (Some e)) eqn:He;
    destruct (truthy (Some p)) eqn:Hp; cbn [negb orb]; try discriminate.
  unfold findUserByEmail. destruct (up db) eqn:Hup; simpl; [|discriminate].
  destruct (List.find _ users) as [u|] eqn:Hfind; simpl; [discriminate|].
  destruct p as [| | |pw| | |]; simpl; try discriminate.
  unfold insertUser. rewrite Hup. simpl.
  destruct (existsb _ users) eqn:Hex; simpl; [discriminate|].
  unfold createSession. rewrite Hup. simpl.
  intros [= <- <- <- <- <- <- <-].
  repeat split; try reflexivity; try assumption.
  - destruct (List.find (fun u => (userOid u =? newId)%N) users) as [u|] eqn:Hid;
      [|reflexivity].
    apply find_some in Hid as [Hin Hu].
    assert (existsb (fun v => (userOid v =? newId)%N) users = true)
      by (apply existsb_exists; eauto).
    congruence.
  - exists pw. repeat split; try reflexivity.
    simpl in Hp. intros ->. discriminate Hp.
Qed.

(** X3. Signing up and then logging in with the same credentials succeeds:
    after a signup answered 201 for a string email (with a salt that is not
    empty), a login with that email and the same password is answered 200
    with a new session for the user just created. *)
Theorem signup_then_login
    (db db' : Db) (users users' : list user) (salt tokenBytes : list byte)
    (tCreated tSession : Z) (newId id : N) (body : object)
    (st : nat) (tok e : string) (name : value)
    (tokenBytes2 : list byte) (tLogin : Z) (body2 : object) :
  signup db users salt tokenBytes tCreated tSession newId body
  = (AuthSession st tok id name (VStr e), users', db') ->
  salt <> [] ->
  body2 !! "email" = Some (VStr e) ->
  body2 !! "password" = body !! "password" ->
  login db' users' tokenBytes2 tLogin body2
  = (AuthSession 200 (toStringHex tokenBytes2) newId name (VStr e),
     setSessions db'
       (sessions db' ++ [{| token := toStringHex tokenBytes2; userId := newId;
                            createdAt := tLogin;
                            expiresAt := (tLogin + 604800000)%Z |}])%list).
Proof.
  intros Hsignup Hsalt Hemail Hpassword.
  destruct (signup_created _ _ _ _ _ _ _ _ _ _ _ _ _ _ _ Hsignup)
    as (_ & _ & _ & _ & _ & Htruthy & Hup & Hfresh & _ & pw & Hpw & Hpwne & -> & Hsession).
  destruct (createSession_up _ _ _ _ _ Hsession) as (_ & Hup' & _ & _).
  unfold login. rewrite Hemail, Hpassword, Hpw, Htruthy.
  assert (Hp : truthy (Some (VStr pw)) = true).
  { simpl. destruct pw; [contradiction | reflexivity]. }
  rewrite Hp. simpl.
  unfold findUserByEmail. rewrite Hup'. simpl.
  rewrite (find_app_fresh _ _ _ Hfresh).
  2: { simpl. rewrite fieldMatches_strings. apply String.eqb_refl. }
  simpl. rewrite (verifyPassword_own_hash salt pw Hsalt). simpl.
  unfold createSession. rewrite Hup'. reflexivity.
Qed.

(** X4. A signup whose email is already the email of a stored user is
    answered 409 and changes neither the users nor the sessions. *)
Theorem signup_email_taken
    (db : Db) (users : list user) (salt tokenBytes : list byte)
    (tCreated tSession : Z) (newId : N) (body : object)
    (name password : value) (e : string) (u : user) :
  up db = true ->
  body !! "name" = Some name -> truthy (Some name) = true ->
  body !! "email" = Some (VStr e) -> e <> EmptyString ->
  body !! "password" = Some password -> truthy (Some password) = true ->
  u ∈ users -> userEmail u = VStr e ->
  signup db users salt tokenBytes tCreated tSession newId body
  = (AuthError 409 "Email already registered", users, db).
Proof.
  intros Hup Hname Hn Hemail He Hpassword Hp Hin Hu.
  unfold signup. rewrite Hname, Hemail, Hpassword, Hn, Hp.
  assert (Ht : truthy (Some (VStr e)) = true).
  { simpl. destruct e; [contradiction | reflexivity]. }
  rewrite Ht. simpl. unfold findUserByEmail. rewrite Hup. simpl.
  destruct (List.find _ users) as [v|] eqn:Hfind; [reflexivity|].
  apply list_elem_of_In in Hin.
  pose proof (find_none _ _ Hfind u Hin) as Hno. simpl in Hno.
  rewrite Hu, fieldMatches_strings, String.eqb_refl in Hno. discriminate.
Qed.

Lemma stringEmails_elem users e :
  e ∈ stringEmails users -> exists u, u ∈ users /\ userEmail u = VStr e.
Proof.
  unfold stringEmails. intros (u & Hin & Hu)%list_elem_of_omap.
  exists u. split; [assumption|].
  destruct (userEmail u); try discriminate. now injection Hu as ->.
Qed.

(** X5. Signup keeps the string emails of the users pairwise distinct,
    whatever the request. *)
Theorem signup_keeps_emails_distinct
    (db : Db) (users : list user) (salt tokenBytes : list byte)
    (tCreated tSession : Z) (newId : N) (body : object) :
  NoDup (stringEmails users) ->
  NoDup (stringEmails
           (signup db users salt tokenBytes tCreated tSession newId body).1.2).
Proof.
  intros Hdistinct.
  destruct (signup db users salt tokenBytes tCreated tSession newId body)
    as [[resp users'] db'] eqn:Hsignup. simpl.
  assert (Hsame : users' = users \/ exists st tok id name email,
            resp = AuthSession st tok id name email).
  { revert Hsignup. unfold signup.
    destruct (body !! "name") as [n|]; [|intros [= <- <- <-]; now left].
    destruct (body !! "email") as [e|]; [|intros [= <- <- <-]; now left].
    destruct (body !! "password") as [p|]; [|intros [= <- <- <-]; now left].
    destruct (_ || _); [intros [= <- <- <-]; now left|].
    unfold findUserByEmail. destruct (up db); simpl; [|intros [= <- <- <-]; now left].
    destruct (List.find _ users); simpl; [intros [= <- <- <-]; now left|].
    destruct (hashPasswordValue salt p); simpl; [|intros [= <- <- <-]; now left].
    destruct (insertUser _ _ _); simpl; [|intros [= <- <- <-]; now left].
    destruct (createSession _ _ _ _); simpl; intros [= <- <- <-]; [right|now left].
    eauto 6. }
  destruct Hsame as [-> | (st & tok & id & name & email & ->)]; [assumption|].
  destruct (signup_created _ _ _ _ _ _ _ _ _ _ _ _ _ _ _ Hsignup)
    as (_ & _ & _ & _ & _ & _ & _ & Hfresh & _ & pw & _ & _ & -> & _).
  unfold stringEmails. rewrite omap_app. apply NoDup_app.
  split; [exact Hdistinct|]. split.
  - intros e He Hnew. simpl in Hnew.
    destruct email as [| | |e'| | |]; simpl in Hnew; try now apply elem_of_nil in Hnew.
    apply list_elem_of_singleton in Hnew as ->.
    destruct (stringEmails_elem _ _ He) as (u & Hin & Hu).
    apply list_elem_of_In in Hin.
    pose proof (find_none _ _ Hfresh u Hin) as Hno. simpl in Hno.
    rewrite Hu, fieldMatches_strings, String.eqb_refl in Hno. discriminate.
  - simpl. destruct email; simpl; try apply NoDup_nil_2. apply NoDup_singleton.
Qed.

(** X6. Login opens a session only for a stored user found by the email
    whose stored form verified the password; in every other case (400, 401,
    500) it leaves the database as it was. *)
Theorem login_requires_verified_password
    (db : Db) (users : list user) (tokenBytes : list byte) (tLogin : Z) (body : object) :
  match (login db users tokenBytes tLogin body).1 with
  | AuthSession st tok id name email =>
      exists u q pw,
        body !! "email" = Some q /\ body !! "password" = Some pw
        /\ List.find (fun u => fieldMatches q (userEmail u)) users = Some u
        /\ verifyPasswordValue pw (passwordHash u) = Return true
        /\ st = 200%nat /\ id = userOid u
        /\ createSession db tok tLogin (userOid u)
           = Return (tok, (login db users tokenBytes tLogin body).2)
  | _ => (login db users tokenBytes tLogin body).2 = db
  end.
Proof.
  unfold login.
  destruct (body !! "email") as [q|]; [|reflexivity].
  destruct (body !! "password") as [pw|]; [|reflexivity].
  destruct (_ || _); [reflexivity|].
  unfold findUserByEmail. destruct (up db) eqn:Hup; simpl; [|reflexivity].
  destruct (List.find _ users) as [u|] eqn:Hfind; simpl; [|reflexivity].
  destruct (verifyPasswordValue pw (passwordHash u)) as [[|]|] eqn:Hverify;
    simpl; try reflexivity.
  unfold createSession. rewrite Hup. simpl.
  exists u, q, pw. repeat split; auto.
Qed.

(** X7. The token of a signup identifies the new user: when the token is
    not empty and not yet in the store, [GET /api/auth/me] with that bearer
    token answers the identifier, name and email of the signup, until the
    session expires. *)
Theorem signup_then_me
    (db db' : Db) (users users' : list user) (salt tokenBytes : list byte)
    (tCreated tSession : Z) (newId id : N) (body : object)
    (st : nat) (tok : string) (name email : value) (now' : Z) (req : request) :
  signup db users salt tokenBytes tCreated tSession newId body
  = (AuthSession st tok id name email, users', db') ->
  tokenBytes <> [] ->
  storedSession db tok = None ->
  authorization req = Some ("Bearer " +:+ tok) ->
  (now' <= tSession + 604800000)%Z ->
  me db' users' now' req = AuthUser newId name email.
Proof.
  intros Hsignup Hbytes Hfresh Hreq Hlive.
  destruct (signup_created _ _ _ _ _ _ _ _ _ _ _ _ _ _ _ Hsignup)
    as (_ & -> & _ & _ & _ & _ & _ & _ & Hnoid & pw & _ & _ & -> & Hsession).
  assert (Htok : toStringHex tokenBytes <> EmptyString).
  { apply nonempty_true, nonempty_length. rewrite toStringHex_length.
    destruct tokenBytes; [contradiction | simpl; lia]. }
  pose proof (storedSession_created _ _ _ _ _ Hsession Hfresh) as Hstored.
  destruct (createSession_up _ _ _ _ _ Hsession) as (_ & Hup' & _ & _).
  unfold me, authRequired.
  rewrite (bearerToken_of_header _ _ Hreq).
  rewrite (getSession_live db' now' _ _ Hup' Htok Hstored) by (simpl; lia).
  simpl. unfold findUserById. rewrite Hup'.
  rewrite (find_app_fresh _ _ _ Hnoid) by (simpl; apply N.eqb_refl).
  reflexivity.
Qed.

End AccountFacts.

(** ** Task routes behind the guard *)

Section TaskRouteFacts.
Import Routes.
Context `{Runtime}.

(** X8. Every call on a task route either is answered 401 with the
    database unchanged, or runs the handler as the user of a stored session
    whose token is the bearer token of the request and which has not
    expired; a request without an [Authorization] header is always answered
    401, whatever its cookie. *)
Theorem taskRoute_runs_as_session_user
    (db : Db) (now : Z) (req : request) (c : call) :
  (taskRoute db now req c = (RespError 401 "Unauthorized", db)
   \/ exists s,
        bearerToken req <> EmptyString
        /\ storedSession db (bearerToken req) = Some s
        /\ (expiresAt s = 0%Z \/ (now <= expiresAt s)%Z)
        /\ taskRoute db now req c = handle db (userId s) c)
  /\ (authorization req = None ->
      taskRoute db now req c = (RespError 401 "Unauthorized", db)).
Proof.
  split.
  - unfold taskRoute.
    destruct (authRequired db now req) as [uid|] eqn:Hauth; [|now left].
    destruct (authRequired_authorized _ _ _ _ Hauth) as (_ & Htok & s & Hs & <- & Hlive).
    right. exists s. auto.
  - intros Hnone. unfold taskRoute, authRequired, bearerToken.
    rewrite Hnone. reflexivity.
Qed.

(** *** The list call *)

Lemma newerFirst_total : Total newerFirst.
Proof. intros a b. unfold newerFirst. lia. Qed.

Lemma descending_strict (l : list (N * object)) :
  Sorted newerFirst l -> NoDup l.*1 -> idsDescending l.
Proof.
  unfold idsDescending.
  induction 1 as [|a l Hsorted IH Hhd]; intros Hnodup; [constructor|].
  rewrite fmap_cons in Hnodup. apply NoDup_cons in Hnodup as [Ha Hl].
  constructor; [now apply IH|].
  destruct Hhd as [|b l' Hab]; constructor.
  unfold newerFirst in Hab.
  assert (b.1 <> a.1).
  { intros Heq. apply Ha. rewrite <- Heq, fmap_cons. apply list_elem_of_here. }
  lia.
Qed.

(** The result of the list call when the store answers. *)
Lemma listTasks_sorted_complete db uid :
  up db = true ->
  exists l : list (N * object),
    listTasks db uid = RespTasks ((fun kv => withId kv.1 kv.2) <$> l)
    /\ (forall id d, (id, d) ∈ l <-> tasks db !! id = Some d /\ ownedBy uid d = true)
    /\ idsDescending l.
Proof.
  intros Hup. unfold listTasks, findTasks. rewrite Hup. simpl.
  set (owned := filter (fun kv : N * object => ownedBy uid kv.2 = true)
                  (map_to_list (tasks db))).
  exists (merge_sort newerFirst owned).
  split; [reflexivity|]. split.
  - intros id d. rewrite merge_sort_Permutation. unfold owned.
    rewrite list_elem_of_filter, elem_of_map_to_list. simpl. tauto.
  - apply descending_strict.
    + apply (@Sorted_merge_sort _ newerFirst _ newerFirst_total).
    + rewrite merge_sort_Permutation. unfold owned.
      eapply sublist_NoDup; [apply (NoDup_fst_map_to_list (tasks db))|].
      apply fmap_sublist, sublist_filter.
Qed.

(** X9. When the store answers, the list call returns all the tasks of the
    caller and only those, each once, by strictly decreasing identifier. *)
Theorem listTasks_all_and_only_own (db : Db) (uid : N) :
  up db = true ->
  exists l : list (N * object),
    listTasks db uid = RespTasks ((fun kv => withId kv.1 kv.2) <$> l)
    /\ (forall id d, (id, d) ∈ l <-> tasks db !! id = Some d /\ ownedBy uid d = true)
    /\ idsDescending l.
Proof. apply listTasks_sorted_complete. Qed.

(** *** The update call *)

Lemma buildUpdate_other t body k :
  k ∉ mutableFields -> k <> "completedAt" -> k <> "completedAtIST" ->
  buildUpdate t body !! k = None.
Proof.
  intros Hk Hc Hi.
  assert (Hdl : k <> "deadline").
  { intros ->. apply Hk. unfold mutableFields. set_solver. }
  assert (Hn : normalizeDeadline (pickUpdate body) !! k = None).
  { rewrite normalizeDeadline_lookup_ne by assumption.
    rewrite pickUpdate_lookup. now rewrite bool_decide_eq_false_2. }
  unfold buildUpdate, stampCompleted.
  destruct (normalizeDeadline (pickUpdate body) !! "status") as [[| | |s| | |]|];
    try exact Hn.
  destruct (String.eqb s "done"); [|exact Hn].
  now rewrite !lookup_insert_ne by congruence.
Qed.

(** What a successful update has done. *)
Lemma patchTask_updated db t uid idParam body st d' db' :
  patchTask db t uid idParam body = (RespTask st d', db') ->
  exists id d,
    parseObjectId idParam = Some id /\ up db = true
    /\ tasks db !! id = Some d /\ ownedBy uid d = true
    /\ st = 200%nat /\ d' = withId id (buildUpdate t body ∪ d)
    /\ db' = setTasks db (<[id := buildUpdate t body ∪ d]> (tasks db)).
Proof.
  rewrite patchTask_cases.
  destruct (parseObjectId idParam) as [id|]; [|discriminate].
  destruct (up db); simpl; [|discriminate].
  destruct (_ && _); [discriminate|].
  destruct (tasks db !! id) as [d|] eqn:Hd; [|discriminate].
  destruct (ownedBy uid d) eqn:Hown; [|discriminate].
  intros [= <- <- <-]. exists id, d. auto 10.
Qed.

(** X10. An update changes nothing outside the six accepted fields and the
    completion stamps: in the document stored and returned by a successful
    update, every other field, such as [userId], [createdAt] or
    [assignedAt], is what it was, whatever the body contains; the task
    keeps its owner. *)
Theorem patchTask_keeps_other_fields
    (db db' : Db) (t : Z) (uid : N) (idParam : string) (body : object)
    (st : nat) (d' : object) :
  patchTask db t uid idParam body = (RespTask st d', db') ->
  exists id d d1,
    parseObjectId idParam = Some id
    /\ tasks db !! id = Some d
    /\ d' = withId id d1 /\ tasks db' !! id = Some d1
    /\ ownedBy uid d1 = true
    /\ forall k, k ∉ mutableFields -> k <> "completedAt" -> k <> "completedAtIST" ->
                 d1 !! k = d !! k.
Proof.
  intros (id & d & Hparse & _ & Hd & Hown & _ & -> & ->)%patchTask_updated.
  exists id, d, (buildUpdate t body ∪ d).
  split; [assumption|]. split; [assumption|]. split; [reflexivity|].
  split; [apply lookup_insert_eq|]. split; [now rewrite ownedBy_update|].
  intros k Hk Hc Hi. apply lookup_union_r. now apply buildUpdate_other.
Qed.

Lemma buildUpdate_deadline t body :
  buildUpdate t body !! "deadline" = normalizeDeadline (pickUpdate body) !! "deadline".
Proof.
  unfold buildUpdate, stampCompleted.
  destruct (normalizeDeadline (pickUpdate body) !! "status") as [[| | |s| | |]|];
    try reflexivity.
  destruct (String.eqb s "done"); [|reflexivity].
  now rewrite !lookup_insert_ne by discriminate.
Qed.

(** X11. The deadline after a successful update: absent from the body, it
    is what it was; falsy in the body (null, empty), it is stored as sent;
    otherwise its text, with the first space turned into [T] and [:00]
    added to a bare [datetime-local] value, is parsed as a date and stored
    in ISO form, and when it does not parse the stored deadline is what it
    was. *)
Theorem patchTask_deadline
    (db db' : Db) (t : Z) (uid : N) (idParam : string) (body : object)
    (st : nat) (d' : object) :
  patchTask db t uid idParam body = (RespTask st d', db') ->
  exists id d,
    parseObjectId idParam = Some id /\ tasks db !! id = Some d
    /\ d' !! "deadline"
       = match body !! "deadline" with
         | None => d !! "deadline"
         | Some dl =>
             if truthy (Some dl)
             then
               let s := replace_first_space (jsString dl) in
               match parseDate (if isLocalDateTime s then s +:+ ":00" else s) with
               | Some tv => Some (VStr (toISOString tv))
               | None => d !! "deadline"
               end
             else Some dl
         end.
Proof.
  intros (id & d & Hparse & _ & Hd & _ & _ & -> & _)%patchTask_updated.
  exists id, d. split; [assumption|]. split; [assumption|].
  unfold withId. rewrite lookup_insert_ne by discriminate.
  assert (Hpick : pickUpdate body !! "deadline" = body !! "deadline").
  { rewrite pickUpdate_lookup. reflexivity. }
  destruct (body !! "deadline") as [dl|] eqn:Hdl.
  - destruct (truthy (Some dl)) eqn:Htruthy.
    + cbv zeta.
      destruct (parseDate _) as [tv|] eqn:Hdate.
      * apply lookup_union_Some_l. rewrite buildUpdate_deadline.
        unfold normalizeDeadline, newDateISO. rewrite Hpick, Htruthy, Hdate. simpl.
        apply lookup_insert_eq.
      * apply lookup_union_r. rewrite buildUpdate_deadline.
        unfold normalizeDeadline, newDateISO. rewrite Hpick, Htruthy, Hdate. simpl.
        apply lookup_delete_eq.
    + apply lookup_union_Some_l. rewrite buildUpdate_deadline.
      unfold normalizeDeadline. now rewrite Hpick, Htruthy.
  - apply lookup_union_r. rewrite buildUpdate_deadline.
    unfold normalizeDeadline. now rewrite Hpick.
Qed.

(** *** The delete call *)

(** X12. The owner's delete removes the task and nothing else: it is
    answered [{ok: true}], the task is gone from the store and from the
    owner's list, every other task is as before, and a second delete of the
    same id is answered 404. *)
Theorem deleteTask_by_owner
    (db : Db) (uid id : N) (idParam : string) (d : object) :
  up db = true ->
  parseObjectId idParam = Some id ->
  tasks db !! id = Some d -> ownedBy uid d = true ->
  exists db',
    deleteTask db uid idParam = (RespOk, db')
    /\ tasks db' !! id = None
    /\ (forall id', id' <> id -> tasks db' !! id' = tasks db !! id')
    /\ (forall docs x, listTasks db' uid = RespTasks docs -> x ∈ docs ->
          x !! "_id" <> Some (VOid id))
    /\ deleteTask db' uid idParam = (RespError 404 "Not found", db').
Proof.
  intros Hup Hparse Hd Hown.
  exists (setTasks db (delete id (tasks db))).
  split; [|split; [|split; [|split]]].
  - rewrite deleteTask_cases, Hparse, Hup, Hd, Hown. reflexivity.
  - apply lookup_delete_eq.
  - intros id' Hne. simpl. now apply lookup_delete_ne.
  - intros docs x Hlist Hin Hid.
    destruct (listTasks_owned _ _ _ _ Hlist Hin) as (id' & d0 & -> & Hd0 & _).
    rewrite withId_id in Hid. injection Hid as ->.
    simpl in Hd0. rewrite lookup_delete_eq in Hd0. discriminate.
  - rewrite deleteTask_cases, Hparse. simpl. rewrite Hup. simpl.
    now rewrite lookup_delete_eq.
Qed.

(** *** Create, then list *)

Lemma idsDescending_head (l : list (N * object)) x :
  idsDescending l -> x ∈ l -> (forall y, y ∈ l -> (y.1 <= x.1)%N) ->
  head l = Some x.
Proof.
  unfold idsDescending. intros Hsorted Hin Hmax.
  destruct l as [|a r]; [now apply elem_of_nil in Hin|]. simpl. f_equal.
  apply elem_of_cons in Hin as [->|Hin]; [reflexivity|].
  apply Sorted_StronglySorted in Hsorted.
  2: { intros p q s Hpq Hqs. lia. }
  apply StronglySorted_inv in Hsorted as [_ Hall].
  rewrite Forall_forall in Hall.
  pose proof (Hall x Hin) as Hlt. simpl in Hlt.
  pose proof (Hmax a (list_elem_of_here _ _)). lia.
Qed.

(** X13. A created task is in its creator's list at once, and it is the
    first of the list when its identifier is greater than those already in
    the store. *)
Theorem createTask_then_list
    (db db' : Db) (tDate tNow : Z) (newId uid : N) (body : object)
    (st : nat) (d : object) :
  createTask db tDate tNow newId uid body = (RespTask st d, db') ->
  exists docs,
    listTasks db' uid = RespTasks docs
    /\ d ∈ docs
    /\ ((forall id, is_Some (tasks db !! id) -> (id < newId)%N) ->
        head docs = Some d).
Proof.
  intros Hcreate.
  destruct (createTask_created _ _ _ _ _ _ _ _ _ Hcreate)
    as (doc & _ & -> & Hdoc & Hst).
  assert (Hown : ownedBy uid doc = true).
  { destruct Hst as (_ & _ & _ & _ & _ & _ & Huid).
    unfold ownedBy. rewrite Huid. apply N.eqb_refl. }
  assert (Hdb : up db' = true /\ forall id, id <> newId -> tasks db' !! id = tasks db !! id).
  { revert Hcreate. rewrite createTask_cases.
    destruct (body !! "title") as [[| | |s| | |]|]; try discriminate.
    destruct (nonempty s); [|discriminate].
    destruct (up db) eqn:Hup; [|discriminate].
    destruct (tasks db !! newId); [discriminate|].
    intros Heq. injection Heq as _ _ <-. simpl. split; [assumption|].
    intros id Hne. now apply lookup_insert_ne. }
  destruct Hdb as [Hup' Hold].
  destruct (listTasks_sorted_complete db' uid Hup') as (l & Hlist & Hl & Hsorted).
  exists ((fun kv => withId kv.1 kv.2) <$> l).
  split; [exact Hlist|].
  assert (Hin : (newId, doc) ∈ l) by (apply Hl; auto).
  split.
  - apply list_elem_of_fmap. exists (newId, doc). auto.
  - intros Hgreater.
    assert (Hhead : head l = Some (newId, doc)).
    { apply idsDescending_head; [assumption | assumption |].
      intros [id' d0] [Hd0 _]%Hl. simpl.
      destruct (decide (id' = newId)) as [->|Hne]; [lia|].
      rewrite (Hold id' Hne) in Hd0.
      assert (id' < newId)%N by (apply Hgreater; eauto). lia. }
    destruct l as [|a r]; [discriminate|]. simpl in *.
    injection Hhead as ->. reflexivity.
Qed.

End TaskRouteFacts.

(** ** Tokens in cookies and the page chain *)

Section PageFacts.

Lemma semicolonFree_app s1 s2 :
  semicolonFree (s1 +:+ s2) = semicolonFree s1 && semicolonFree s2.
Proof.
  induction s1 as [|a r IH]; simpl; [reflexivity|].
  rewrite IH. now rewrite andb_assoc.
Qed.

Lemma upToSemicolon_free s : semicolonFree (upToSemicolon s) = true.
Proof.
  induction s as [|a r IH]; simpl; [reflexivity|].
  destruct (Ascii.eqb a ";") eqn:E; simpl; [reflexivity|].
  now rewrite E, IH.
Qed.

Lemma upToSemicolon_value v rest :
  semicolonFree v = true ->
  rest = EmptyString \/ (exists r, rest = String ";" r) ->
  upToSemicolon (v +:+ rest) = v.
Proof.
  intros Hv Hrest. induction v as [|a r IH]; simpl.
  - destruct Hrest as [-> | [r ->]]; reflexivity.
  - simpl in Hv. apply andb_prop in Hv as [Ha Hr].
    apply negb_true_iff in Ha. rewrite Ha. f_equal. now apply IH.
Qed.

Lemma tokenHere_value s v :
  tokenHere s = Some v -> v <> EmptyString /\ semicolonFree v = true.
Proof.
  unfold tokenHere. destruct (startsWith "token=" s); [|discriminate].
  destruct (nonempty (upToSemicolon (slice 6 s))) eqn:Hne; [|discriminate].
  intros [= <-]. split; [now apply nonempty_true | apply upToSemicolon_free].
Qed.

Lemma tokenAfterSemicolon_value s v :
  tokenAfterSemicolon s = Some v -> v <> EmptyString /\ semicolonFree v = true.
Proof.
  induction s as [|a r IH]; simpl; [discriminate|].
  destruct (Ascii.eqb a ";"); [|exact IH].
  destruct (tokenHere (skipSpaces r)) as [w|] eqn:Hw; [|exact IH].
  intros [= <-]. now apply tokenHere_value in Hw.
Qed.

(** X14. The token read from a [Cookie] header is never empty and holds no
    [;]; and a header that begins with [token=v], where [v] is not empty,
    holds no [;] and is followed by nothing or by [;], yields exactly [v]. *)
Theorem cookieToken_value :
  (forall c v, cookieToken c = Some v ->
     v <> EmptyString /\ semicolonFree v = true)
  /\ (forall v rest,
        v <> EmptyString -> semicolonFree v = true ->
        rest = EmptyString \/ (exists r, rest = String ";" r) ->
        cookieToken ("token=" +:+ v +:+ rest) = Some v).
Proof.
  split.
  - intros c v. unfold cookieToken.
    destruct (tokenHere c) as [w|] eqn:Hw.
    + intros [= <-]. now apply tokenHere_value in Hw.
    + apply tokenAfterSemicolon_value.
  - intros v rest Hne Hfree Hrest. unfold cookieToken, tokenHere.
    assert (Hstart : startsWith "token=" ("token=" +:+ v +:+ rest) = true).
    { destruct v as [|a r]; [contradiction|]. reflexivity. }
    rewrite Hstart.
    change (slice 6 ("token=" +:+ v +:+ rest)) with (v +:+ rest).
    rewrite (upToSemicolon_value v rest Hfree Hrest).
    apply nonempty_true in Hne. now rewrite Hne.
Qed.

Lemma isHtml_get req : isHtml req = true -> isGetOrHead req = true.
Proof. unfold isHtml. now intros [Hg _]%andb_prop. Qed.

Lemma not_options req : isGetOrHead req = true -> String.eqb (method req) "OPTIONS" = false.
Proof.
  unfold isGetOrHead.
  destruct (String.eqb_spec (method req) "OPTIONS") as [->|]; [discriminate | reflexivity].
Qed.

(** The page guard on a protected page when no lookup throws. *)
Lemma pageGuard_protected db req :
  isHtml req = true -> path req ∉ allowed ->
  (requestToken req = EmptyString -> pageGuard db req = Redirect "/login.html")
  /\ (up db = true -> storedSession db (requestToken req) = None ->
      pageGuard db req = Redirect "/login.html")
  /\ (up db = true -> requestToken req <> EmptyString ->
      is_Some (storedSession db (requestToken req)) ->
      pageGuard db req = Next).
Proof.
  intros Hhtml Hprot. unfold pageGuard.
  rewrite (protected_page _ Hhtml Hprot). unfold lookupToken.
  split; [|split].
  - intros ->. reflexivity.
  - intros Hup Hnone. destruct (nonempty (requestToken req)); [|reflexivity].
    now rewrite (findSession_up _ _ Hup), Hnone.
  - intros Hup Htok [s Hs]. apply nonempty_true in Htok. rewrite Htok.
    now rewrite (findSession_up _ _ Hup), Hs.
Qed.

(** X15. A protected page ([/] or a path ending in [.html] other than the
    login and signup pages) is answered by a redirect to [/login.html] when
    the request carries no token, whatever the state of the store, and,
    when the store answers, exactly when the store holds no session for
    the token of the request; with such a session the page file is sent
    ([index.html] for the root). *)
Theorem servePage_protected
    (isFile : string -> bool) (db : Db) (req : request) :
  isHtml req = true -> path req ∉ allowed ->
  (requestToken req = EmptyString ->
     servePage isFile db req = PageRedirect "/login.html")
  /\ (up db = true -> storedSession db (requestToken req) = None ->
      servePage isFile db req = PageRedirect "/login.html")
  /\ (up db = true -> requestToken req <> EmptyString ->
      is_Some (storedSession db (requestToken req)) ->
      (isFile (path req) = true -> servePage isFile db req = PageFile (path req))
      /\ (isFile (path req) = false -> path req = "/" ->
          servePage isFile db req = PageFile "index.html")).
Proof.
  intros Hhtml Hprot.
  destruct (pageGuard_protected db req Hhtml Hprot) as (Hnotoken & Hunknown & Hknown).
  pose proof (isHtml_get _ Hhtml) as Hget.
  pose proof (not_options _ Hget) as Hopt.
  unfold servePage. rewrite Hopt.
  split; [|split].
  - intros Htok. now rewrite (Hnotoken Htok).
  - intros Hup Hnone. now rewrite (Hunknown Hup Hnone).
  - intros Hup Htok Hsome. rewrite (Hknown Hup Htok Hsome), Hget. simpl.
    split.
    + intros ->. reflexivity.
    + intros -> Hroot. rewrite Hroot. simpl.
      unfold pageRoute, sessionFromRequest.
      destruct Hsome as [s Hs].
      apply nonempty_true in Htok.
      now rewrite (lookupToken_up _ _ Hup Htok), Hs.
Qed.

(** X16. The guard covers HTML pages only: a [GET] or [HEAD] of the login
    or signup page, or of any path that is neither [/] nor ends in
    [.html], is sent as soon as the file exists, without any token and
    whatever the state of the store. *)
Theorem servePage_unprotected
    (isFile : string -> bool) (db : Db) (req : request) :
  isGetOrHead req = true ->
  isFile (path req) = true ->
  path req ∈ allowed \/ isHtml req = false ->
  servePage isFile db req = PageFile (path req).
Proof.
  intros Hget Hfile Hopen.
  assert (Hnext : pageGuard db req = Next).
  { unfold pageGuard. destruct Hopen as [Hin | ->].
    - rewrite (bool_decide_eq_true_2 _ Hin). simpl. now rewrite andb_false_r.
    - reflexivity. }
  unfold servePage. now rewrite (not_options _ Hget), Hnext, Hget, Hfile.
Qed.

End PageFacts.

(** ** The client: views and card actions *)

Section ClientViewFacts.
Import AppCore AppViews.

(** X17. The pinned list shows at most six tasks, all starred, in the
    order of the task list; it shows every starred task when there are at
    most six of them; and its widget is visible exactly when some task is
    starred. *)
Theorem pinnedItems_spec (ts : list task) :
  (length (pinnedItems ts) <= 6)%nat
  /\ pinnedItems ts `sublist_of` ts
  /\ Forall (fun t => starred t = true) (pinnedItems ts)
  /\ ((length (filter (fun t => starred t = true) ts) <= 6)%nat ->
      forall t, t ∈ ts -> starred t = true -> t ∈ pinnedItems ts)
  /\ (pinnedWidgetShown ts = true <-> exists t, t ∈ ts /\ starred t = true).
Proof.
  unfold pinnedItems. split; [|split; [|split; [|split]]].
  - rewrite length_take. lia.
  - etransitivity; [apply sublist_take | apply sublist_filter].
  - apply Forall_take. apply Forall_forall.
    intros t Hin. now apply list_elem_of_filter in Hin as [Hs _].
  - intros Hfew t Hin Hs. rewrite take_ge by assumption.
    apply list_elem_of_filter. auto.
  - unfold pinnedWidgetShown, pinnedItems. rewrite negb_true_iff, Nat.eqb_neq.
    rewrite length_take. split.
    + intros Hlen.
      destruct (filter (fun t => starred t = true) ts) as [|t r] eqn:E;
        [simpl in Hlen; lia|].
      assert (Hin : t ∈ filter (fun t => starred t = true) ts)
        by (rewrite E; apply list_elem_of_here).
      apply list_elem_of_filter in Hin as [Hs Hin]. eauto.
    + intros (t & Hin & Hs).
      assert (Hf : t ∈ filter (fun t => starred t = true) ts)
        by (apply list_elem_of_filter; auto).
      destruct (filter (fun t => starred t = true) ts); [now apply elem_of_nil in Hf|].
      simpl. lia.
Qed.

(** *** What the optimistic requests do on the server *)

Lemma pickUpdate_single k v :
  k ∈ Server.mutableFields ->
  Server.pickUpdate (list_to_map [(k, v)]) = {[ k := v ]}.
Proof.
  intros Hk. apply map_eq. intros j.
  rewrite pickUpdate_lookup.
  simpl. rewrite insert_empty.
  destruct (decide (j = k)) as [->|Hne].
  - rewrite lookup_singleton_eq. now rewrite bool_decide_eq_true_2.
  - rewrite lookup_singleton_ne by congruence. now destruct (bool_decide _).
Qed.

Lemma dropStart_started p k i p' req pd :
  dropStart p k i = (p', Some (req, pd)) ->
  exists cols col t,
    board p = Some cols /\ cols !! k = Some col
    /\ findTask (tasks p) i = Some t /\ status t <> dataStatus col
    /\ req = {| reqMethod := "PATCH"; reqUrl := "/api/tasks/" +:+ i;
                reqBody := [("status", VStr (dataStatus col))] |}
    /\ pd = {| dragId := i; prev := status t |}
    /\ findTask (tasks p') i = Some (setStatus t (dataStatus col))
    /\ board p' = Some (updateColumnCounts (moveCard cols i k)).
Proof.
  unfold dropStart.
  destruct (board p) as [cols|] eqn:Hb; [|discriminate].
  destruct (cols !! k) as [col|] eqn:Hk; [|discriminate].
  destruct (findTask (tasks p) i) as [t|] eqn:Ht; [|discriminate].
  destruct (String.eqb_spec (status t) (dataStatus col)) as [|Hne]; [discriminate|].
  intros [= <- <- <-]. exists cols, col, t.
  repeat (split; [reflexivity || assumption|]).
  match goal with
  | |- context [updateTasksStatusWidget ?q] =>
      destruct (updateTasksStatusWidget_tasks q) as [-> ->]
  end.
  simpl. split; [now apply findTask_assignStatus | reflexivity].
Qed.

Lemma moveCard_keeps_status cols i k col :
  cols !! k = Some col ->
  exists c', moveCard cols i k !! k = Some c' /\ dataStatus c' = dataStatus col.
Proof.
  intros Hk. unfold moveCard. destruct (hasCard cols i).
  - destruct (detachCard_lookup cols i k col Hk) as [cs Hcs].
    rewrite list_lookup_alter, Hcs, decide_True by reflexivity.
    eexists. split; reflexivity.
  - eauto.
Qed.

(** X18. The drop handler runs once per gesture even when it is registered
    several times: on the page left by a drop that issued its request, the
    same drop returns at once, changes nothing and sends nothing (each
    [_renderBoard] adds a further [drop] listener to every column). *)
Theorem dropStart_once (p p' : page) (k : nat) (i : string)
    (req : fetch_request) (pd : pending) :
  dropStart p k i = (p', Some (req, pd)) ->
  dropStart p' k i = (p', None).
Proof.
  intros (cols & col & t & _ & Hk & _ & _ & _ & _ & Ht' & Hb')%dropStart_started.
  destruct (moveCard_keeps_status cols i k col Hk) as (c' & Hc' & Hstatus).
  unfold dropStart. rewrite Hb'.
  unfold updateColumnCounts. rewrite list_lookup_fmap, Hc'. simpl.
  rewrite Ht'. simpl. rewrite Hstatus. now rewrite String.eqb_refl.
Qed.

End ClientViewFacts.

Section ClientServerFacts.
Import AppCore AppViews.
Context `{Runtime}.

Lemma buildUpdate_status_only t s :
  buildUpdate t (list_to_map [("status", VStr s)])
  = if String.eqb s "done"
    then <["completedAtIST" := VStr (toLocaleStringIST t)]>
           (<["completedAt" := VStr (toISOString t)]> {[ "status" := VStr s ]})
    else {[ "status" := VStr s ]}.
Proof.
  unfold buildUpdate. rewrite pickUpdate_single by (unfold mutableFields; set_solver).
  unfold normalizeDeadline. rewrite lookup_singleton_ne by discriminate.
  unfold stampCompleted. now rewrite lookup_singleton_eq.
Qed.

Lemma buildUpdate_starred_only t b :
  buildUpdate t (list_to_map [("starred", VBool b)]) = {[ "starred" := VBool b ]}.
Proof.
  unfold buildUpdate. rewrite pickUpdate_single by (unfold mutableFields; set_solver).
  unfold normalizeDeadline. rewrite lookup_singleton_ne by discriminate.
  unfold stampCompleted. now rewrite lookup_singleton_ne by discriminate.
Qed.

(** X19. The request of a drop, served for the owner of the task, brings
    the server to the client's optimistic state: the update is answered 200
    and the stored status is the local status after the drop; [completedAt]
    is stamped when that status is ['done'] and is what it was otherwise;
    no other field of the stored task changes. *)
Theorem drop_request_on_server
    (p p' : page) (k : nat) (i : string) (req : fetch_request) (pd : pending)
    (db : Db) (tDate : Z) (uid oid : N) (d : object) :
  dropStart p k i = (p', Some (req, pd)) ->
  up db = true ->
  parseObjectId i = Some oid ->
  Server.tasks db !! oid = Some d -> ownedBy uid d = true ->
  exists d1 t',
    reqUrl req = "/api/tasks/" +:+ i
    /\ patchTask db tDate uid i (list_to_map (reqBody req))
       = (RespTask 200 (withId oid d1), setTasks db (<[oid := d1]> (Server.tasks db)))
    /\ findTask (AppCore.tasks p') i = Some t'
    /\ d1 !! "status" = Some (VStr (status t'))
    /\ (status t' = "done" ->
        d1 !! "completedAt" = Some (VStr (toISOString tDate)))
    /\ (status t' <> "done" -> d1 !! "completedAt" = d !! "completedAt")
    /\ (forall j, j <> "status" -> j <> "completedAt" -> j <> "completedAtIST" ->
        d1 !! j = d !! j).
Proof.
  intros (cols & col & t & _ & _ & _ & _ & -> & _ & Ht' & _)%dropStart_started
         Hup Hparse Hd Hown.
  set (target := dataStatus col) in *.
  exists (buildUpdate tDate (list_to_map [("status", VStr target)]) ∪ d),
         (setStatus t target).
  cbn [reqBody reqUrl].
  split; [reflexivity|]. split.
  { assert (Hsz : (size (buildUpdate tDate (list_to_map [("status", VStr target)])) =? 0)%nat
                  = false).
    { apply Nat.eqb_neq. apply (map_size_ne_0_lookup_2 _ "status").
      rewrite buildUpdate_status. simpl. rewrite lookup_insert_eq. eauto. }
    rewrite patchTask_cases, Hparse, Hup, Hsz, Hd, Hown. reflexivity. }
  split; [exact Ht'|]. cbn [status setStatus].
  rewrite buildUpdate_status_only.
  destruct (String.eqb_spec target "done") as [Hdone|Hother].
  - split; [|split; [|split]].
    + apply lookup_union_Some_l. rewrite !lookup_insert_ne by discriminate.
      apply lookup_singleton_eq.
    + intros _. apply lookup_union_Some_l. rewrite lookup_insert_ne by discriminate.
      apply lookup_insert_eq.
    + intros Hno. contradiction.
    + intros j Hs Hc Hi. apply lookup_union_r.
      rewrite !lookup_insert_ne by congruence. now apply lookup_singleton_ne.
  - split; [|split; [|split]].
    + apply lookup_union_Some_l. apply lookup_singleton_eq.
    + intros Hyes. contradiction.
    + intros _. apply lookup_union_r. now apply lookup_singleton_ne.
    + intros j Hs Hc Hi. apply lookup_union_r. now apply lookup_singleton_ne.
Qed.

(** X20. The request of a click on a star, served for the owner of the task,
    stores the flag the client now shows and changes no other field. *)
Theorem star_request_on_server
    (p p' : page) (n : nat) (t : task) (req : fetch_request)
    (db : Db) (tDate : Z) (uid oid : N) (d : object) :
  AppCore.tasks p !! n = Some t ->
  starClick p n = (p', Some req) ->
  up db = true ->
  parseObjectId (id t) = Some oid ->
  Server.tasks db !! oid = Some d -> ownedBy uid d = true ->
  exists d1 t',
    reqUrl req = "/api/tasks/" +:+ id t
    /\ patchTask db tDate uid (id t) (list_to_map (reqBody req))
       = (RespTask 200 (withId oid d1), setTasks db (<[oid := d1]> (Server.tasks db)))
    /\ AppCore.tasks p' !! n = Some t'
    /\ starred t' = negb (starred t)
    /\ d1 !! "starred" = Some (VBool (starred t'))
    /\ (forall j, j <> "starred" -> d1 !! j = d !! j).
Proof.
  intros Ht. unfold starClick. rewrite Ht. intros [= <- <-] Hup Hparse Hd Hown.
  exists ({[ "starred" := VBool (negb (starred t)) ]} ∪ d),
         (setStarred t (negb (starred t))).
  cbn [reqBody reqUrl].
  split; [reflexivity|]. split.
  { rewrite patchTask_cases, Hparse, Hup, buildUpdate_starred_only.
    rewrite map_size_singleton, Hd, Hown. reflexivity. }
  split.
  { cbn [AppCore.tasks withTasks].
    apply list_lookup_insert_eq. now apply lookup_lt_Some in Ht. }
  split; [reflexivity|]. cbn [starred setStarred]. split.
  - apply lookup_union_Some_l. apply lookup_singleton_eq.
  - intros j Hj. apply lookup_union_r. now apply lookup_singleton_ne.
Qed.

End ClientServerFacts.

(** ** The client: rendering the board and the feeds *)

Section BoardFacts.
Import AppCore AppViews.






(** *** Recent activity *)

Lemma insertNewest_perm x l : insertNewest x l ≡ₚ x :: l.
Proof.
  induction l as [|y r IH]; simpl; [reflexivity|].
  destruct (createdAtMs x <? createdAtMs y)%Z; [|reflexivity].
  rewrite IH. apply Permutation_swap.
Qed.

Lemma sortNewestFirst_perm l : sortNewestFirst l ≡ₚ l.
Proof.
  induction l as [|x r IH]; simpl; [reflexivity|].
  now rewrite insertNewest_perm, IH.
Qed.

Lemma insertNewest_sorted x l :
  StronglySorted (fun a b => (createdAtMs b <= createdAtMs a)%Z) l ->
  StronglySorted (fun a b => (createdAtMs b <= createdAtMs a)%Z) (insertNewest x l).
Proof.
  induction 1 as [|y r Hsorted IH Hall]; simpl.
  - repeat constructor.
  - destruct (Z.ltb_spec (createdAtMs x) (createdAtMs y)) as [Hlt|Hge].
    + constructor; [assumption|].
      rewrite insertNewest_perm. constructor; [lia | assumption].
    + constructor; [now constructor|].
      constructor; [assumption|].
      eapply Forall_impl; [exact Hall|]. simpl. intros z Hz. lia.
Qed.

Lemma sortNewestFirst_sorted l :
  StronglySorted (fun a b => (createdAtMs b <= createdAtMs a)%Z) (sortNewestFirst l).
Proof.
  induction l as [|x r IH]; simpl; [constructor | now apply insertNewest_sorted].
Qed.

Lemma StronglySorted_app_cross {A} (R : A -> A -> Prop) l1 l2 :
  StronglySorted R (l1 ++ l2) ->
  StronglySorted R l1 /\ forall x y, x ∈ l1 -> y ∈ l2 -> R x y.
Proof.
  induction l1 as [|a l1 IH]; simpl; intros Hs.
  - split; [constructor|]. intros x y Hx. now apply elem_of_nil in Hx.
  - apply StronglySorted_inv in Hs as [Hs Hall].
    destruct (IH Hs) as [Hs1 Hcross].
    apply Forall_app in Hall as [Hall1 Hall2]. split.
    + now constructor.
    + intros x y [->|Hx]%elem_of_cons Hy.
      * rewrite Forall_forall in Hall2. now apply Hall2.
      * now apply Hcross.
Qed.

(** X23. The activity feed shows the five most recently created tasks,
    newest first: it has five items (all of them when the tasks are fewer),
    they are in non-increasing order of [createdAt], they are tasks of the
    list, and no task left out is newer than a task shown. *)
Theorem recentItems_newest (l : list dated) :
  length (recentItems l) = Nat.min 5 (length l)
  /\ StronglySorted (fun a b => (createdAtMs b <= createdAtMs a)%Z) (recentItems l)
  /\ exists rest,
       l ≡ₚ recentItems l ++ rest
       /\ forall x y, x ∈ recentItems l -> y ∈ rest ->
                      (createdAtMs y <= createdAtMs x)%Z.
Proof.
  unfold recentItems.
  pose proof (sortNewestFirst_sorted l) as Hsorted.
  rewrite <- (take_drop 5 (sortNewestFirst l)) in Hsorted.
  apply StronglySorted_app_cross in Hsorted as [Htake Hcross].
  split; [|split; [exact Htake|]].
  - rewrite length_take. now rewrite (Permutation_length (sortNewestFirst_perm l)).
  - exists (list.drop 5 (sortNewestFirst l)). split; [|exact Hcross].
    now rewrite take_drop, sortNewestFirst_perm.
Qed.

(** The sort is stable: tasks created at the same instant stay in the
    order of the list. *)
Lemma sortNewestFirst_same_age l c :
  Forall (fun x => createdAtMs x = c) l -> sortNewestFirst l = l.
Proof.
  induction 1 as [|x r Hx Hall IH]; simpl; [reflexivity|].
  rewrite IH. destruct r as [|y r']; simpl; [reflexivity|].
  apply Forall_cons in Hall as [Hy _].
  rewrite Hx, Hy, Z.ltb_irrefl. reflexivity.
Qed.

End BoardFacts.

Section TimeAgoFacts.
Import AppViews.
Context `{Runtime}.

Lemma div_pos_iff a b : (0 < b)%Z -> ((0 <? a / b)%Z = true <-> (b <= a)%Z).
Proof.
  intros Hb. rewrite Z.ltb_lt. split.
  - intros Hpos. destruct (Z_lt_le_dec a b) as [Hlt|]; [|assumption].
    pose proof (Z.div_lt_upper_bound a b 1 Hb ltac:(lia)). lia.
  - intros Hle. pose proof (Z.div_le_lower_bound a b 1 Hb ltac:(lia)). lia.
Qed.

Lemma div_pos_false a b : (0 < b)%Z -> (a < b)%Z -> (0 <? a / b)%Z = false.
Proof.
  intros Hb Hlt. destruct (0 <? a / b)%Z eqn:E; [|reflexivity].
  apply div_pos_iff in E; [lia | assumption].
Qed.

(** X24. [_timeAgo] on a numeric timestamp shows the elapsed time in the
    largest unit that has begun: under a minute (or for a timestamp in the
    future) it says "just now", then whole minutes up to an hour, whole
    hours up to a day, and whole days from then on; a timestamp of 0, like
    a text that does not parse as a date, counts as now. *)
Theorem timeAgo_units (now1 now2 : Z) :
  (forall n, n <> 0%Z ->
     let e := (now1 - n)%Z in
     ((e < 60000)%Z -> timeAgo now1 now2 (TsNumber n) = "just now")
     /\ ((60000 <= e < 3600000)%Z ->
         timeAgo now1 now2 (TsNumber n) = pretty (e / 60000)%Z +:+ "m ago")
     /\ ((3600000 <= e < 86400000)%Z ->
         timeAgo now1 now2 (TsNumber n) = pretty (e / 3600000)%Z +:+ "h ago")
     /\ ((86400000 <= e)%Z ->
         timeAgo now1 now2 (TsNumber n) = pretty (e / 86400000)%Z +:+ "d ago"))
  /\ ((now1 - now2 < 60000)%Z ->
      timeAgo now1 now2 (TsNumber 0) = "just now"
      /\ forall s, parseDate s = None -> timeAgo now1 now2 (TsText s) = "just now").
Proof.
  assert (Hshape : forall diff, (0 <= diff)%Z ->
            (diff / 60000 / 60 = diff / 3600000)%Z
            /\ (diff / 60000 / 60 / 24 = diff / 86400000)%Z).
  { intros diff Hd. rewrite !Z.div_div by lia. split; reflexivity. }
  assert (Hsmall : forall d', (now1 - d' < 60000)%Z ->
            (let diff := Z.max 0 (now1 - d') in
             let m := (diff / 60000)%Z in
             let h := (m / 60)%Z in
             let d2 := (h / 24)%Z in
             if (0 <? d2)%Z then pretty d2 +:+ "d ago"
             else if (0 <? h)%Z then pretty h +:+ "h ago"
             else if (0 <? m)%Z then pretty m +:+ "m ago"
             else "just now") = "just now").
  { intros d' Hlt. cbv zeta.
    destruct (Hshape (Z.max 0 (now1 - d')) ltac:(lia)) as [-> ->].
    now rewrite !div_pos_false by lia. }
  split.
  - intros n Hn e. unfold timeAgo.
    apply Z.eqb_neq in Hn. rewrite Hn. fold e.
    split; [|split; [|split]].
    + intros He. now apply Hsmall.
    + intros He. destruct (Hshape (Z.max 0 e) ltac:(lia)) as [-> ->].
      rewrite Z.max_r by lia.
      rewrite !div_pos_false by lia.
      now rewrite (proj2 (div_pos_iff e 60000 ltac:(lia))) by lia.
    + intros He. destruct (Hshape (Z.max 0 e) ltac:(lia)) as [-> ->].
      rewrite Z.max_r by lia.
      rewrite div_pos_false by lia.
      now rewrite (proj2 (div_pos_iff e 3600000 ltac:(lia))) by lia.
    + intros He. destruct (Hshape (Z.max 0 e) ltac:(lia)) as [-> ->].
      rewrite Z.max_r by lia.
      now rewrite (proj2 (div_pos_iff e 86400000 ltac:(lia))) by lia.
  - intros Hclock. split.
    + unfold timeAgo. simpl. now apply Hsmall.
    + intros s Hs. unfold timeAgo. rewrite Hs. now apply Hsmall.
Qed.

End TimeAgoFacts.

(** ** The client: notifications *)

Section InboxFacts.
Import Inbox.

Lemma setupNotifications_badge s : badge_follows s (setupNotifications s).
Proof.
  unfold badge_follows, setupNotifications.
  destruct (button s) as [b|] eqn:Hb; [|exact Hb].
  eexists. split; reflexivity.
Qed.

Lemma setupNotifications_data s :
  notifications (setupNotifications s) = notifications s
  /\ listed (setupNotifications s) = listed s.
Proof. unfold setupNotifications. now destruct (button s). Qed.

Lemma badge_follows_from s s0 :
  button s0 = button s -> badge_follows s (setupNotifications s0).
Proof.
  intros Hb. pose proof (setupNotifications_badge s0) as Hs.
  unfold badge_follows in *. now rewrite Hb in Hs.
Qed.

Lemma unreadCount_all_read (ns : list notification) :
  unreadCount ((fun n => {| nid := nid n; isRead := true; ntype := ntype n |}) <$> ns) = 0%nat.
Proof.
  unfold unreadCount. induction ns as [|n r IH]; [reflexivity|].
  rewrite fmap_cons, filter_cons_False by (simpl; discriminate). exact IH.
Qed.

(** X25. The badge of the notifications button follows the unread count
    only while it is positive: after marking one notification read,
    deleting one, or marking all read, the badge shows the number of unread
    notifications when some are left and is left as it was when none is; so
    after "mark all as read" nothing is unread, no listed item is unread,
    and the badge still shows its previous number. *)
Theorem notifications_badge (s : inbox) (i : string) :
  badge_follows s (markNotificationAsRead s i)
  /\ badge_follows s (deleteNotification s i)
  /\ badge_follows s (markAllNotificationsAsRead s)
  /\ unreadCount (notifications (markAllNotificationsAsRead s)) = 0%nat
  /\ (forall items shown, listed (markAllNotificationsAsRead s) = Some (items, shown) ->
        Forall (fun x => itemUnread x = false) items)
  /\ (forall b, button s = Some b ->
        exists b', button (markAllNotificationsAsRead s) = Some b'
                   /\ badge b' = badge b).
Proof.
  assert (Hall : unreadCount (notifications (markAllNotificationsAsRead s)) = 0%nat).
  { unfold markAllNotificationsAsRead.
    destruct (setupNotifications_data
                {| notifications :=
                     (fun n => {| nid := nid n; isRead := true; ntype := ntype n |})
                       <$> notifications s;
                   listed :=
                     mapListed (fmap (fun x => {| itemId := itemId x; itemUnread := false;
                                                  itemType := itemType x |})) s;
                   button := button s |}) as [-> _].
    apply unreadCount_all_read. }
  assert (Hbadge : badge_follows s (markAllNotificationsAsRead s)).
  { unfold markAllNotificationsAsRead. now apply badge_follows_from. }
  split; [|split; [|split; [|split; [|split]]]].
  - unfold markNotificationAsRead. now apply badge_follows_from.
  - unfold deleteNotification. apply badge_follows_from.
    destruct (filter _ (notifications s)); [|reflexivity].
    unfold renderNotifications. simpl. now destruct (mapListed _ s).
  - exact Hbadge.
  - exact Hall.
  - intros items shown. unfold markAllNotificationsAsRead.
    match goal with
    | |- listed (setupNotifications ?q) = _ -> _ =>
        destruct (setupNotifications_data q) as [_ ->]
    end.
    simpl. unfold mapListed. destruct (listed s) as [[l b]|]; simpl; [|discriminate].
    intros [= <- <-]. apply Forall_fmap, Forall_forall. reflexivity.
  - intros b Hb. unfold badge_follows in Hbadge. rewrite Hb, Hall in Hbadge.
    exact Hbadge.
Qed.

(** X26. Deleting a notification removes from the data every notification
    with the id and leaves the others in their order, while only the first
    listed item with the id leaves the page; when no notification is left
    and the page has the list, the list is rendered again and shows the
    empty state alone. *)
Theorem deleteNotification_effect (s : inbox) (i : string) :
  notifications (deleteNotification s i) = filter (fun n => nid n <> i) (notifications s)
  /\ (forall n, n ∈ notifications (deleteNotification s i) -> nid n <> i)
  /\ (forall items shown,
        listed s = Some (items, shown) ->
        listed (deleteNotification s i)
        = if decide (filter (fun n => nid n <> i) (notifications s) = [])
          then Some ([], true)
          else Some (removeFirstItem i items, shown))
  /\ (listed s = None -> listed (deleteNotification s i) = None).
Proof.
  unfold deleteNotification.
  match goal with
  | |- notifications (setupNotifications ?q) = _ /\ _ =>
      destruct (setupNotifications_data q) as [-> ->]
  end.
  destruct (filter (fun n => nid n <> i) (notifications s)) as [|n0 r] eqn:Hf.
  - assert (Hdata : notifications
                      (renderNotifications
                         {| notifications := []; listed := mapListed (removeFirstItem i) s;
                            button := button s |}) = []).
    { unfold renderNotifications. now destruct (mapListed _ s). }
    split; [exact Hdata|]. split.
    { intros n Hn. rewrite Hdata in Hn. now apply elem_of_nil in Hn. }
    unfold renderNotifications, mapListed. split.
    + intros items shown ->. reflexivity.
    + intros ->. reflexivity.
  - split; [reflexivity|]. split.
    + intros n Hn. cbn [notifications] in Hn. rewrite <- Hf in Hn.
      now apply list_elem_of_filter in Hn as [Hne _].
    + unfold mapListed. split.
      * intros items shown ->. reflexivity.
      * intros ->. reflexivity.
Qed.

End InboxFacts.

(** ** The analytics page *)

Section AnalyticsFacts.
Import Analytics.

(** X27. The badge of a deadline: overdue exactly when the deadline has
    passed and the task is not done; due soon when the deadline lies within
    48 hours (inclusive) or when it has passed and the task is done;
    upcoming when the deadline is more than 48 hours away or does not parse
    as a date. *)
Theorem classify_table (now : Z) (e : entry) :
  (classify now e = Overdue <->
     exists m, ms e = Some m /\ (m < now)%Z /\ entryStatus e <> "done")
  /\ (classify now e = NearDue <->
        exists m, ms e = Some m /\ (m - now <= nearMs)%Z
                  /\ ((now <= m)%Z \/ entryStatus e = "done"))
  /\ (classify now e = Upcoming <->
        ms e = None \/ exists m, ms e = Some m /\ (nearMs < m - now)%Z).
Proof.
  unfold classify, isNear, isOverdue.
  assert (Hnear : (0 < nearMs)%Z) by (unfold nearMs; lia).
  destruct (ms e) as [m|]; simpl.
  - destruct (Z.ltb_spec m now) as [Hlt|Hge];
      destruct (String.eqb_spec (entryStatus e) "done") as [Hdone|Hnot]; simpl;
      destruct (Z.leb_spec (m - now) nearMs) as [Hle|Hgt]; simpl;
      repeat split; intros Hx;
      repeat match goal with
             | Hy : exists _, _ |- _ => destruct Hy
             | Hy : _ /\ _ |- _ => destruct Hy
             | Hy : _ \/ _ |- _ => destruct Hy
             | Hy : Some _ = Some _ |- _ => injection Hy as <-
             end;
      try discriminate; try contradiction; try lia; try reflexivity;
      try (right; exists m; split; [reflexivity | lia]);
      try (exists m; split; [reflexivity|]; split; [lia|];
           first [assumption | left; lia | right; assumption]).
  - repeat split; intros Hx;
      repeat match goal with
             | Hy : exists _, _ |- _ => destruct Hy
             | Hy : _ /\ _ |- _ => destruct Hy
             | Hy : _ \/ _ |- _ => destruct Hy
             end;
      try discriminate; try reflexivity. now left.
Qed.

Lemma deadlineCounts_fold now l o n u :
  fold_left
    (fun c e =>
       let '(o, n, u) := c in
       if isOverdue now e then (S o, n, u)
       else if isNear now e then (o, S n, u)
       else (o, n, S u))
    l (o, n, u)
  = (o + length (filter (fun e => classify now e = Overdue) l),
     n + length (filter (fun e => classify now e = NearDue) l),
     u + length (filter (fun e => classify now e = Upcoming) l))%nat.
Proof.
  revert o n u. induction l as [|e r IH]; intros o n u; simpl.
  - f_equal; [f_equal|]; lia.
  - pose proof (eq_refl : classify now e = classify now e) as Hc.
    unfold classify at 2 in Hc.
    destruct (isOverdue now e); [|destruct (isNear now e)];
      rewrite IH, !filter_cons, Hc;
      repeat (rewrite decide_True by reflexivity);
      repeat (rewrite decide_False by discriminate);
      simpl; f_equal; try f_equal; lia.
Qed.

(** X28. The three deadline counters are the numbers of entries of each
    badge, in whatever order the entries are visited, and add up to the
    number of entries: every task with a deadline is counted once. *)
Theorem deadlineCounts_partition (now : Z) (l l' : list entry) :
  l ≡ₚ l' ->
  deadlineCounts now l'
  = (length (filter (fun e => classify now e = Overdue) l),
     length (filter (fun e => classify now e = NearDue) l),
     length (filter (fun e => classify now e = Upcoming) l))
  /\ (let '(o, n, u) := deadlineCounts now l' in (o + n + u)%nat = length l).
Proof.
  intros Hperm. unfold deadlineCounts. rewrite deadlineCounts_fold. simpl.
  rewrite <- Hperm. split; [reflexivity|].
  clear Hperm l'. induction l as [|e r IH]; [reflexivity|].
  rewrite !filter_cons. simpl.
  destruct (classify now e);
    repeat (rewrite decide_True by reflexivity);
    repeat (rewrite decide_False by discriminate);
    simpl; lia.
Qed.

Section GroupByFacts.
Context {A K : Type} `{EqDecision K}.

Lemma groupCount_bump (k k' : K) (m : list (K * nat)) :
  groupCount k' (bump k m)
  = if decide (k' = k) then S (groupCount k m) else groupCount k' m.
Proof.
  unfold groupCount. induction m as [|[a n] r IH]; simpl.
  - repeat case_decide; repeat case_bool_decide; simpl; congruence.
  - destruct (decide (a = k)) as [->|Hak]; simpl.
    + repeat case_decide; repeat case_bool_decide; simpl; congruence.
    + rewrite (bool_decide_eq_false_2 (a = k) Hak).
      case_bool_decide as Hak'; simpl.
      * subst a. now rewrite decide_False by congruence.
      * exact IH.
Qed.

Lemma bump_keys (k x : K) (m : list (K * nat)) :
  x ∈ (bump k m).*1 <-> x = k \/ x ∈ m.*1.
Proof.
  induction m as [|[a n] r IH]; simpl.
  - rewrite list_elem_of_singleton. split; [auto|]. intros [->|Hx]; [reflexivity|].
    now apply elem_of_nil in Hx.
  - destruct (decide (a = k)) as [->|Hak]; simpl.
    + rewrite !elem_of_cons. tauto.
    + rewrite !elem_of_cons, IH. tauto.
Qed.

Lemma bump_NoDup (k : K) (m : list (K * nat)) :
  NoDup m.*1 -> NoDup (bump k m).*1.
Proof.
  induction m as [|[a n] r IH]; simpl; intros Hnd.
  - apply NoDup_singleton.
  - apply NoDup_cons in Hnd as [Ha Hr].
    destruct (decide (a = k)) as [->|Hak]; simpl.
    + now apply NoDup_cons.
    + apply NoDup_cons. split; [|now apply IH].
      rewrite bump_keys. intros [->|Hin]; contradiction.
Qed.

Lemma bump_positive (k : K) (m : list (K * nat)) :
  Forall (fun kv => (0 < kv.2)%nat) m -> Forall (fun kv => (0 < kv.2)%nat) (bump k m).
Proof.
  induction 1 as [|[a n] r Ha Hr IH]; simpl.
  - repeat constructor.
  - destruct (decide (a = k)); constructor; simpl in *; auto; lia.
Qed.

Lemma bump_sum (k : K) (m : list (K * nat)) :
  list_sum (bump k m).*2 = S (list_sum m.*2).
Proof.
  unfold list_sum. induction m as [|[a n] r IH]; [reflexivity|].
  cbn [bump]. destruct (decide (a = k)); rewrite !fmap_cons; cbn [fold_right snd].
  - reflexivity.
  - rewrite IH. lia.
Qed.

Lemma groupBy_fold (key : A -> K) (arr : list A) (m : list (K * nat)) :
  let r := fold_left (fun m t => bump (key t) m) arr m in
  (forall k, groupCount k r
             = (groupCount k m + length (filter (fun t => key t = k) arr))%nat)
  /\ (NoDup m.*1 -> NoDup r.*1)
  /\ (Forall (fun kv => (0 < kv.2)%nat) m -> Forall (fun kv => (0 < kv.2)%nat) r)
  /\ list_sum r.*2 = (list_sum m.*2 + length arr)%nat.
Proof.
  revert m. induction arr as [|t arr IH]; intros m; simpl.
  - repeat split; auto; try (intros k; lia); lia.
  - destruct (IH (bump (key t) m)) as (Hcount & Hnd & Hpos & Hsum).
    repeat split.
    + intros k. rewrite Hcount, groupCount_bump, filter_cons.
      destruct (decide (k = key t)) as [->|Hne].
      * rewrite decide_True by reflexivity. simpl. lia.
      * rewrite decide_False by congruence. reflexivity.
    + intros Hm. now apply Hnd, bump_NoDup.
    + intros Hm. now apply Hpos, bump_positive.
    + rewrite Hsum, bump_sum. lia.
Qed.

Lemma groupCount_elem (k : K) (n : nat) (m : list (K * nat)) :
  NoDup m.*1 -> (k, n) ∈ m -> groupCount k m = n.
Proof.
  unfold groupCount. induction m as [|[a x] r IH]; simpl; intros Hnd Hin.
  - now apply elem_of_nil in Hin.
  - apply NoDup_cons in Hnd as [Ha Hr].
    apply elem_of_cons in Hin as [[= <- <-]|Hin].
    + now rewrite bool_decide_eq_true_2.
    + case_bool_decide as Hak; simpl; [|now apply IH].
      subst a. exfalso. apply Ha. apply list_elem_of_fmap. exists (k, n). auto.
Qed.

Lemma groupCount_positive (k : K) (n : nat) (m : list (K * nat)) :
  groupCount k m = n -> (0 < n)%nat -> (k, n) ∈ m.
Proof.
  unfold groupCount. induction m as [|[a x] r IH]; simpl; intros Hn Hpos; [lia|].
  case_bool_decide as Hak; simpl in *.
  - subst. apply list_elem_of_here.
  - apply list_elem_of_further. now apply IH.
Qed.

(** X29. [groupBy] gives every label once, with the number of elements
    that carry it (never 0), so the numbers add up to the number of
    elements; the donut built from the groups shows that number in its
    centre, except that it shows 1 when there is no element. *)
Theorem groupBy_counts (key : A -> K) (arr : list A) :
  NoDup (groupBy key arr).*1
  /\ (forall k n, (k, n) ∈ groupBy key arr <->
        n = length (filter (fun t => key t = k) arr) /\ (0 < n)%nat)
  /\ list_sum (groupBy key arr).*2 = length arr
  /\ donutTotal (groupBy key arr) = Nat.max 1 (length arr).
Proof.
  unfold groupBy.
  destruct (groupBy_fold key arr []) as (Hcount & Hnd & Hpos & Hsum).
  specialize (Hnd (NoDup_nil_2 : NoDup ([] : list (K * nat)).*1)).
  specialize (Hpos (Forall_nil_2 _)).
  simpl in Hsum.
  split; [exact Hnd|]. split; [|split; [exact Hsum|]].
  - intros k n. split.
    + intros Hin. split.
      * rewrite <- (groupCount_elem k n _ Hnd Hin), Hcount. reflexivity.
      * rewrite Forall_forall in Hpos. exact (Hpos _ Hin).
    + intros [-> Hpos']. apply groupCount_positive; [|assumption].
      rewrite Hcount. reflexivity.
  - unfold donutTotal. rewrite Hsum.
    destruct (Nat.eqb_spec (length arr) 0); lia.
Qed.

End GroupByFacts.

End AnalyticsFacts.

(** ** The further properties on the sample data *)

Section MoreWitnesses.
Import Accounts Routes.

Lemma createSession_then_resolve_witness :
  authRequired
    (setSessions emptyDb
       [{| token := toStringHex tokenBytesA; userId := 7; createdAt := 100;
           expiresAt := 604800100 |}])
    604800100 tokenRequest
  = Authorized 7.
Proof.
  refine (proj2 (proj1 (createSession_then_resolve emptyDb _
            (toStringHex tokenBytesA) 100 604800100 7 tokenRequest _ _ _ _) _)).
  - reflexivity.
  - discriminate.
  - reflexivity.
  - reflexivity.
  - lia.
Defined.

Lemma signup_then_login_witness :
  exists users' db' db'',
    signup emptyDb [] sampleSalt tokenBytesA 10 11 1 signupBody
    = (AuthSession 201 (toStringHex tokenBytesA) 1 (VStr "Asha") (VStr "asha@example.org"),
       users', db')
    /\ login db' users' tokenBytesB 20 signupBody
       = (AuthSession 200 (toStringHex tokenBytesB) 1 (VStr "Asha") (VStr "asha@example.org"),
          db'').
Proof.
  eexists. eexists. eexists. split.
  - vm_compute. reflexivity.
  - eapply (signup_then_login emptyDb _ [] _ sampleSalt tokenBytesA 10 11 1 1 signupBody
              201 (toStringHex tokenBytesA) "asha@example.org" (VStr "Asha")
              tokenBytesB 20 signupBody).
    + vm_compute. reflexivity.
    + discriminate.
    + reflexivity.
    + reflexivity.
Defined.

Lemma signup_email_taken_witness :
  signup emptyDb [storedAsha] sampleSalt tokenBytesA 10 11 5 signupBody
  = (AuthError 409 "Email already registered", [storedAsha], emptyDb).
Proof.
  apply (signup_email_taken emptyDb [storedAsha] sampleSalt tokenBytesA 10 11 5 signupBody
           (VStr "Asha") (VStr "hunter2") "asha@example.org" storedAsha).
  - reflexivity.
  - reflexivity.
  - reflexivity.
  - reflexivity.
  - discriminate.
  - reflexivity.
  - reflexivity.
  - apply list_elem_of_here.
  - reflexivity.
Defined.

Lemma signup_keeps_emails_distinct_witness :
  NoDup (stringEmails
           (signup emptyDb [storedAsha] sampleSalt tokenBytesA 10 11 5
              (<["email" := VStr "ravi@example.org"]> signupBody)).1.2).
Proof.
  apply (signup_keeps_emails_distinct emptyDb [storedAsha] sampleSalt tokenBytesA 10 11 5).
  apply NoDup_singleton.
Defined.

Lemma signup_then_me_witness :
  exists users' db',
    signup emptyDb [] sampleSalt tokenBytesA 10 11 1 signupBody
    = (AuthSession 201 (toStringHex tokenBytesA) 1 (VStr "Asha") (VStr "asha@example.org"),
       users', db')
    /\ me db' users' 500 tokenRequest = AuthUser 1 (VStr "Asha") (VStr "asha@example.org").
Proof.
  eexists. eexists. split.
  - vm_compute. reflexivity.
  - eapply (signup_then_me emptyDb _ [] _ sampleSalt tokenBytesA 10 11 1 1 signupBody
              201 (toStringHex tokenBytesA) (VStr "Asha") (VStr "asha@example.org")
              500 tokenRequest).
    + vm_compute. reflexivity.
    + discriminate.
    + reflexivity.
    + reflexivity.
    + lia.
Defined.

Lemma listTasks_all_and_only_own_witness :
  exists l : list (N * object),
    listTasks sampleDb aliceId = RespTasks ((fun kv => withId kv.1 kv.2) <$> l)
    /\ (1%N, aliceTask) ∈ l.
Proof.
  destruct (listTasks_all_and_only_own sampleDb aliceId eq_refl) as (l & Hlist & Hl & _).
  exists l. split; [exact Hlist|]. apply Hl. split; reflexivity.
Defined.

Lemma patchTask_keeps_other_fields_witness :
  exists d1,
    tasks (patchTask sampleDb 99 aliceId aliceTaskId aliceUpdate).2 !! 1%N = Some d1
    /\ d1 !! "userId" = Some (VOid aliceId)
    /\ d1 !! "createdAt" = None.
Proof.
  destruct (patchTask sampleDb 99 aliceId aliceTaskId aliceUpdate) as [resp db'] eqn:E.
  assert (Hresp : exists st d', resp = RespTask st d').
  { vm_compute in E. injection E as <- _. eauto. }
  destruct Hresp as (st & d' & ->).
  destruct (patchTask_keeps_other_fields sampleDb db' 99 aliceId aliceTaskId aliceUpdate
              st d' E) as (id & d & d1 & Hparse & Hd & _ & Hd1 & _ & Hkeep).
  injection Hparse as <-. injection Hd as <-.
  exists d1. split; [exact Hd1|]. split.
  - rewrite Hkeep; [reflexivity | | discriminate | discriminate].
    unfold mutableFields. intros Hin.
    repeat (apply elem_of_cons in Hin as [Hin|Hin]; [discriminate Hin|]).
    now apply elem_of_nil in Hin.
  - rewrite Hkeep; [reflexivity | | discriminate | discriminate].
    unfold mutableFields. intros Hin.
    repeat (apply elem_of_cons in Hin as [Hin|Hin]; [discriminate Hin|]).
    now apply elem_of_nil in Hin.
Defined.

Lemma patchTask_deadline_witness :
  exists st d' db',
    patchTask sampleDb 99 aliceId aliceTaskId aliceUpdate = (RespTask st d', db')
    /\ d' !! "deadline" = None
    /\ d' !! "title" = Some (VStr "Ship v1.1").
Proof.
  destruct (patchTask sampleDb 99 aliceId aliceTaskId aliceUpdate) as [resp db'] eqn:E.
  assert (Hresp : exists st d', resp = RespTask st d' /\ d' !! "title" = Some (VStr "Ship v1.1")).
  { vm_compute in E. injection E as <- _. eexists. eexists. split; reflexivity. }
  destruct Hresp as (st & d' & -> & Htitle).
  exists st, d', db'. split; [reflexivity|]. split; [|exact Htitle].
  destruct (patchTask_deadline sampleDb db' 99 aliceId aliceTaskId aliceUpdate st d' E)
    as (id & d & Hparse & Hd & Hdeadline).
  injection Hparse as <-. injection Hd as <-. exact Hdeadline.
Defined.

Lemma deleteTask_by_owner_witness :
  exists db',
    deleteTask sampleDb aliceId aliceTaskId = (RespOk, db')
    /\ deleteTask db' aliceId aliceTaskId = (RespError 404 "Not found", db').
Proof.
  destruct (deleteTask_by_owner sampleDb aliceId 1 aliceTaskId aliceTask)
    as (db' & Hdel & _ & _ & _ & Hagain); try reflexivity.
  exists db'. split; assumption.
Defined.

Lemma createTask_then_list_witness :
  exists d docs,
    (createTask sampleDb 500 501 2 aliceId createBody).1 = RespTask 201 d
    /\ listTasks (createTask sampleDb 500 501 2 aliceId createBody).2 aliceId
       = RespTasks docs
    /\ head docs = Some d.
Proof.
  destruct (createTask sampleDb 500 501 2 aliceId createBody) as [resp db'] eqn:E.
  assert (Hresp : exists d, resp = RespTask 201 d).
  { vm_compute in E. injection E as <- _. eauto. }
  destruct Hresp as (d & ->).
  destruct (createTask_then_list sampleDb db' 500 501 2 aliceId createBody 201 d E)
    as (docs & Hlist & _ & Hhead).
  exists d, docs. split; [reflexivity|]. split; [exact Hlist|].
  apply Hhead. intros id [x Hx]. simpl in Hx.
  destruct (decide (id = 1%N)) as [->|Hne]; [lia|].
  rewrite lookup_singleton_ne in Hx by congruence. discriminate.
Defined.

Lemma servePage_protected_witness :
  servePage (fun p => String.eqb p "/tasks.html") downDb anonymousRequest
  = PageRedirect "/login.html".
Proof.
  refine (proj1 (servePage_protected _ downDb anonymousRequest _ _) _).
  - reflexivity.
  - unfold allowed. vm_compute. intros Hin.
    repeat (apply elem_of_cons in Hin as [Hin | Hin]; [discriminate Hin|]).
    now apply elem_of_nil in Hin.
  - reflexivity.
Defined.

Lemma servePage_unprotected_witness :
  servePage (fun p => String.eqb p "/js/analytics.js") downDb scriptRequest
  = PageFile "/js/analytics.js".
Proof.
  apply (servePage_unprotected _ downDb scriptRequest).
  - reflexivity.
  - reflexivity.
  - right. reflexivity.
Defined.

End MoreWitnesses.

Section MoreClientWitnesses.
Import AppCore AppViews.


Lemma dropStart_once_witness :
  dropStart (dropStart cardPage 3 "000000000000000000000001").1 3
    "000000000000000000000001"
  = ((dropStart cardPage 3 "000000000000000000000001").1, None).
Proof.
  eapply (dropStart_once cardPage _ 3 "000000000000000000000001").
  vm_compute. reflexivity.
Defined.

Lemma drop_request_on_server_witness :
  exists d1,
    patchTask cardDb 700 aliceId "000000000000000000000001"
      (list_to_map [("status", VStr "done")])
    = (RespTask 200 (withId 1 d1), setTasks cardDb (<[1%N := d1]> (Server.tasks cardDb)))
    /\ d1 !! "status" = Some (VStr "done")
    /\ d1 !! "title" = Some (VStr "Write report").
Proof.
  destruct (dropStart cardPage 3 "000000000000000000000001") as [p' [[req pd]|]] eqn:E;
    [|vm_compute in E; discriminate E].
  assert (Hreq : reqBody req = [("status", VStr "done")]).
  { vm_compute in E. now injection E as _ <- _. }
  assert (Hserver := drop_request_on_server cardPage p' 3 "000000000000000000000001"
                       req pd cardDb 700 aliceId 1).
  edestruct Hserver as (d1 & t' & _ & Hpatch & Ht' & Hstatus & _ & _ & Hkeep);
    [exact E | reflexivity | reflexivity | reflexivity | reflexivity |].
  rewrite Hreq in Hpatch.
  assert (Hlocal : status t' = "done").
  { vm_compute in E. injection E as <- _ _. vm_compute in Ht'. now injection Ht' as <-. }
  rewrite Hlocal in Hstatus.
  exists d1. split; [exact Hpatch|]. split; [exact Hstatus|].
  rewrite Hkeep by discriminate. reflexivity.
Defined.

Lemma star_request_on_server_witness :
  exists d1,
    patchTask cardDb 700 aliceId "000000000000000000000001"
      (list_to_map [("starred", VBool true)])
    = (RespTask 200 (withId 1 d1), setTasks cardDb (<[1%N := d1]> (Server.tasks cardDb)))
    /\ d1 !! "starred" = Some (VBool true)
    /\ d1 !! "status" = Some (VStr "backlog").
Proof.
  destruct (starClick cardPage 0) as [p' [req|]] eqn:E; [|vm_compute in E; discriminate E].
  assert (Hreq : reqBody req = [("starred", VBool true)]).
  { vm_compute in E. now injection E as _ <-. }
  assert (Hserver := star_request_on_server cardPage p' 0).
  edestruct Hserver with (db := cardDb) (tDate := 700%Z) (uid := aliceId) (oid := 1%N)
    as (d1 & t' & _ & Hpatch & _ & Hflag & Hstarred & Hkeep);
    [reflexivity | exact E | reflexivity | reflexivity | reflexivity | reflexivity |].
  cbn [id] in Hpatch. rewrite Hreq in Hpatch.
  rewrite Hflag in Hstarred. cbn [starred negb] in Hstarred.
  exists d1. split; [exact Hpatch|]. split; [exact Hstarred|].
  rewrite Hkeep by discriminate. reflexivity.
Defined.



End MoreClientWitnesses.

Section MoreAnalyticsWitnesses.
Import Analytics.

Lemma deadlineCounts_partition_witness :
  deadlineCounts 9000 (rev sampleEntries) = (0, 1, 1)%nat.
Proof.
  exact (proj1 (deadlineCounts_partition 9000 sampleEntries (rev sampleEntries)
                  (Permutation_rev _))).
Defined.

End MoreAnalyticsWitnesses.
